(** * node-check-account

    A shallow embedding of the account checker: [index.js] (module [Index])
    and the earlier draft of the same script kept in the repository (module
    [Part000]).  The script reads a list of account credentials, opens one
    pogobuf client per account, runs a fixed login sequence and a store
    request, and writes the flags it collected to [output.csv].

    Everything the script does not implement itself -- the file system, the
    JSON and CSV parsers, the pogobuf client, the random number generator --
    is an external collaborator.  It is modelled by a [world]: a record of
    oracles that answer each call from the history of calls made so far.
    The script's own behaviour is then a computation in a state-and-exception
    monad whose state holds the call history, the object store and the
    module-level [config] variable. *)

From Stdlib Require Import ZArith String Ascii List.
From stdpp Require Import base strings list gmap.

(** ** JavaScript values *)

(** The primitive values an account field can hold.  The script performs no
    arithmetic on numbers: it passes them on, tests their truthiness and
    prints them, so a number is represented by its canonical rendering (the
    result of [String(n)]). *)
Inductive value :=
| VUndefined
| VNull
| VBool (b : bool)
| VNum (repr : string)
| VStr (s : string).

#[global] Instance value_eq_dec : EqDecision value.
Proof. solve_decision. Defined.

(** [String(v)], as applied by template literals and by [+] on a string. *)
Definition toString (v : value) : string :=
  match v with
  | VUndefined => "undefined"
  | VNull => "null"
  | VBool true => "true"
  | VBool false => "false"
  | VNum repr => repr
  | VStr s => s
  end.

(** [Boolean(v)], as applied by [||] and [? :]. *)
Definition truthy (v : value) : bool :=
  match v with
  | VUndefined | VNull => false
  | VBool b => b
  | VNum repr => negb (bool_decide (repr = "0") || bool_decide (repr = "NaN"))
  | VStr s => negb (bool_decide (s = EmptyString))
  end.

(** [a || b] *)
Definition js_or (a b : value) : value := if truthy a then a else b.

(** A flat JavaScript object: property name to value.  Reading a property
    that is not there gives [undefined]. *)
Abbreviation obj := (gmap string value).

Definition prop (o : obj) (k : string) : value := default VUndefined (o !! k).

(** The line feed, written ['\n'] in the source. *)
Definition LF : string := String "010"%char EmptyString.

(** [s.indexOf(pat)]: the position of the first occurrence, or [-1]. *)
Definition indexOf (s pat : string) : Z :=
  match String.index 0 pat s with
  | Some n => Z.of_nat n
  | None => (-1)%Z
  end.

(** [pat] occurs somewhere in [s]. *)
Definition contains (s pat : string) : Prop :=
  ∃ pre post : string, s = pre +:+ pat +:+ post.

(** [s[i]] on a string, joined into a string: an index out of range gives
    [undefined], which [join] renders as the empty string. *)
Definition char_at (s : string) (i : nat) : string :=
  match String.get i s with
  | Some c => String c EmptyString
  | None => EmptyString
  end.

(** ** Errors and results *)

(** A thrown [Error] object; the script only ever reads its [message]. *)
Record error := Error { message : string }.

Inductive result (A : Type) :=
| Ok (a : A)
| Throw (e : error).
Arguments Ok {A} a.
Arguments Throw {A} e.

Definition TypeError (msg : string) : error := Error msg.

(** ** The protocol vocabulary (node-pogo-protos) *)

Inductive RequestType :=
| GET_PLAYER
| DOWNLOAD_REMOTE_CONFIG_VERSION
| CHECK_CHALLENGE
| GET_HATCHED_EGGS
| GET_INVENTORY
| CHECK_AWARDED_BADGES
| DOWNLOAD_SETTINGS
| GET_PLAYER_PROFILE
| GET_BUDDY_WALKED
| LEVEL_UP_REWARDS.

#[global] Instance RequestType_eq_dec : EqDecision RequestType.
Proof. solve_decision. Defined.

Inductive Platform := IOS | ANDROID.

Inductive PlatformRequestType := GET_STORE_ITEMS.

(** The requests the script queues on a batch, named after the pogobuf
    builder methods, with the arguments the script passes. *)
Inductive request :=
| getPlayer (country language timezone : string)
| downloadRemoteConfigVersion (platform : Platform)
    (deviceManufacturer deviceModel locale : string) (appVersion : Z)
| checkChallenge
| getHatchedEggs
| getInventory (lastTimestamp : value)
| checkAwardedBadges
| downloadSettings (hash : value)
| getPlayerProfile (playerName : string)
| getBuddyWalked
| levelUpRewards (level : value)
| batchAddPlatformRequest (type : PlatformRequestType).

Record StoreItem := { is_iap : value }.

(** A decoded response message, reduced to the fields the script reads.
    The client is created with [includeRequestTypeInResponse], so every
    message carries the type of the request it answers. *)
Inductive response :=
| GetPlayerResponse (warn banned : value)
| GetInventoryResponse (inventory_delta : option value)
| DownloadSettingsResponse (hash : value)
| GetStoreItemsResponse (items : list StoreItem)
| OtherResponse (type : RequestType).

(** What [batchCall] resolves to: the message itself for a batch of one
    request, an array of messages otherwise. *)
Inductive batch_result :=
| Single (r : response)
| Multi (rs : list response).

(** [resp._requestType] *)
Definition _requestType (r : response) : option RequestType :=
  match r with
  | GetPlayerResponse _ _ => Some GET_PLAYER
  | GetInventoryResponse _ => Some GET_INVENTORY
  | DownloadSettingsResponse _ => Some DOWNLOAD_SETTINGS
  | GetStoreItemsResponse _ => None
  | OtherResponse t => Some t
  end.

(** [response.warn], [response.banned]: [undefined] on anything but a
    player message. *)
Definition response_warn (b : batch_result) : value :=
  match b with
  | Single (GetPlayerResponse w _) => w
  | _ => VUndefined
  end.

Definition response_banned (b : batch_result) : value :=
  match b with
  | Single (GetPlayerResponse _ bn) => bn
  | _ => VUndefined
  end.

(** [response.items]: [None] stands for [undefined]. *)
Definition response_items (b : batch_result) : option (list StoreItem) :=
  match b with
  | Single (GetStoreItemsResponse its) => Some its
  | _ => None
  end.

(** [_.find(response, resp => resp._requestType === t)] on the array a
    batch resolves to; a single message has no element of that type. *)
Definition lodash_find (b : batch_result) (t : RequestType) : option response :=
  match b with
  | Multi rs => List.find (λ resp, bool_decide (_requestType resp = Some t)) rs
  | Single _ => None
  end.

(** [_.some(items, item => item.is_iap)]; [_.some(undefined, ...)] is
    [false]. *)
Definition lodash_some (items : option (list StoreItem)) : bool :=
  match items with
  | Some its => existsb (λ item, truthy (is_iap item)) its
  | None => false
  end.

(** ** Configuration *)

Record position := { latitude : value; longitude : value }.

Record api_config := {
  version : Z;
  country : string;
  language : string;
  timezone : string;
}.

(** The module-level [config] object.  [position], [hashkey] and [proxy]
    have no default: they are [undefined] unless [config.json] has them. *)
Record config_t := {
  api : api_config;
  delimiter : value;
  loglevel : string;
  config_position : option position;
  hashkey : value;
  proxy : value;
}.

(** What [JSON.parse] yields for [config.json]: every key is optional. *)
Record api_json := {
  json_version : option Z;
  json_country : option string;
  json_language : option string;
  json_timezone : option string;
}.

Record config_json := {
  json_api : option api_json;
  json_delimiter : option value;
  json_loglevel : option string;
  json_position : option position;
  json_hashkey : option value;
  json_proxy : option value;
}.

(** [_.defaultsDeep(parsed, config)]: the parsed keys win, the current
    configuration fills in what is missing, recursively inside [api]. *)
Definition defaultsDeep_api (j : option api_json) (d : api_config) : api_config :=
  match j with
  | None => d
  | Some a =>
      {| version := default (version d) (json_version a);
         country := default (country d) (json_country a);
         language := default (language d) (json_language a);
         timezone := default (timezone d) (json_timezone a) |}
  end.

Definition defaultsDeep (j : config_json) (d : config_t) : config_t :=
  {| api := defaultsDeep_api (json_api j) (api d);
     delimiter := default (delimiter d) (json_delimiter j);
     loglevel := default (loglevel d) (json_loglevel j);
     config_position :=
       match json_position j with Some p => Some p | None => config_position d end;
     hashkey := default (hashkey d) (json_hashkey j);
     proxy := default (proxy d) (json_proxy j) |}.

(** ** Calls on the outside world *)

(** The options object handed to [new pogobuf.Client]. *)
Record client_options := {
  opt_deviceId : value;
  opt_authType : value;
  opt_username : value;
  opt_password : value;
  opt_version : Z;
  opt_useHashingServer : bool;
  opt_hashingKey : value;
  opt_includeRequestTypeInResponse : bool;
  opt_proxy : value;
  opt_maxTries : Z;
}.

(** [_.random(lower, upper, floating)], kept symbolic: the float it returns
    is determined by the bounds and by which draw of the generator it used. *)
Inductive altitude := lodash_random (lower upper : Z) (floating : bool) (draw : nat).

Inductive transport := Console | File.

(** Every call the script makes on an external collaborator, in the order
    it makes them.  Clients are told apart by the order of their creation. *)
Inductive event :=
| EExistsSync (path : string)
| EReadFile (path encoding : string)
| EWriteFile (path content encoding : string)
| ELog (level msg : string)
| EConsoleLogOverride
| ELoggerRemove (t : transport)
| ELoggerAdd (t : transport) (level : string)
| ENewClient (client : nat) (options : client_options)
| ESetPosition (client : nat) (lat lon : value) (alt : altitude)
| EInit (client : nat) (downloadSettings : bool)
| EBatchStart (client : nat)
| ERequest (client : nat) (r : request)
| EBatchCall (client : nat).

(** The environment of one run.  An oracle that answers a call receives the
    history up to and including that call, so its answer may depend on
    everything that happened before.  The pure library functions
    ([JSON.parse], [JSON.stringify], neat-csv's parser, pogobuf's
    [Utils.splitInventory] followed by [.player.level]) depend on their
    argument only. *)
Record world := {
  process_argv : list string;
  existsSync_answer : list event → bool;
  readFile_answer : list event → result string;
  writeFile_answer : list event → result unit;
  init_answer : list event → result unit;
  batchCall_answer : list event → result batch_result;
  JSON_parse : string → result config_json;
  JSON_stringify : batch_result → string;
  csvImport : string → value → result (list obj);
  splitInventory_player_level : option response → result value;
  floor_random_times : nat → Z → nat;
}.

(** ** Program state *)

(** References to account objects are keys of the object store; the
    [accounts] array of [Main] and the [account] parameter of
    [checkAccount] alias the same stored object. *)
Record state := {
  trace : list event;
  heap : gmap nat obj;
  next_ref : nat;
  next_client : nat;
  draws : nat;
  config : config_t;
}.

Definition deref (h : gmap nat obj) (r : nat) : obj := default ∅ (h !! r).

Definition with_trace (t : list event) (st : state) : state :=
  {| trace := t; heap := heap st; next_ref := next_ref st;
     next_client := next_client st; draws := draws st; config := config st |}.

Definition with_heap (h : gmap nat obj) (st : state) : state :=
  {| trace := trace st; heap := h; next_ref := next_ref st;
     next_client := next_client st; draws := draws st; config := config st |}.

Definition with_config (c : config_t) (st : state) : state :=
  {| trace := trace st; heap := heap st; next_ref := next_ref st;
     next_client := next_client st; draws := draws st; config := c |}.

Definition with_draws (n : nat) (st : state) : state :=
  {| trace := trace st; heap := heap st; next_ref := next_ref st;
     next_client := next_client st; draws := n; config := config st |}.

(** ** The monad of the script: state that survives a throw *)

Definition M (A : Type) : Type := state → result A * state.

#[global] Instance M_ret : MRet M := λ A a st, (Ok a, st).

#[global] Instance M_bind : MBind M := λ A B f m st,
  match m st with
  | (Ok a, st') => f a st'
  | (Throw e, st') => (Throw e, st')
  end.

Definition throw {A} (e : error) : M A := λ st, (Throw e, st).

(** [try { body } catch (e) { handler }] *)
Definition try_catch {A} (body : M A) (handler : error → M A) : M A := λ st,
  match body st with
  | (Ok a, st') => (Ok a, st')
  | (Throw e, st') => handler e st'
  end.

(** A pure library call that may throw. *)
Definition lift {A} (r : result A) : M A := λ st, (r, st).

(** A call whose outcome the script does not use and which does not throw. *)
Definition emit (ev : event) : M unit := λ st,
  (Ok tt, with_trace (trace st ++ [ev]) st).

(** A call answered by the world. *)
Definition ask {A} (ev : event) (answer : list event → result A) : M A := λ st,
  let t := trace st ++ [ev] in (answer t, with_trace t st).

Definition get_config : M config_t := λ st, (Ok (config st), st).

Definition set_config (c : config_t) : M unit := λ st, (Ok tt, with_config c st).

(** [account.k] *)
Definition get (r : nat) (k : string) : M value := λ st,
  (Ok (prop (deref (heap st) r) k), st).

(** The store after [k] of the object at [r] has been assigned [v]. *)
Definition assign (h : gmap nat obj) (r : nat) (k : string) (v : value) : gmap nat obj :=
  <[r := <[k := v]> (deref h r)]> h.

(** [account.k = v] *)
Definition set (r : nat) (k : string) (v : value) : M unit := λ st,
  (Ok tt, with_heap (assign (heap st) r k v) st).

(** A new object, as made by an object literal or handed over by a parser. *)
Definition alloc (o : obj) : M nat := λ st,
  (Ok (next_ref st),
   {| trace := trace st; heap := <[next_ref st := o]> (heap st);
      next_ref := S (next_ref st); next_client := next_client st;
      draws := draws st; config := config st |}).

Fixpoint alloc_all (os : list obj) : M (list nat) :=
  match os with
  | [] => mret []
  | o :: os' => r ← alloc o; rs ← alloc_all os'; mret (r :: rs)
  end.

(** One call of [Math.random()]: the number of the draw. *)
Definition Math_random : M nat := λ st,
  (Ok (draws st), with_draws (S (draws st)) st).

(** [for (const x of xs) { await body(x); }] *)
Fixpoint for_of {A} (xs : list A) (body : A → M unit) : M unit :=
  match xs with
  | [] => mret tt
  | x :: xs' => body x;; for_of xs' body
  end.

(** [for (const x of xs) { acc = step(acc, x); }] for a loop that only
    updates a local variable. *)
Fixpoint for_of_acc {A B} (xs : list A) (acc : B) (step : B → A → M B) : M B :=
  match xs with
  | [] => mret acc
  | x :: xs' => acc' ← step acc x; for_of_acc xs' acc' step
  end.

(** [_.times(n, f)] *)
Fixpoint lodash_times {A} (n : nat) (f : M A) : M (list A) :=
  match n with
  | O => mret []
  | S n' => x ← f; xs ← lodash_times n' f; mret (x :: xs)
  end.

(** [parts.join('')] *)
Definition join_empty (parts : list string) : string :=
  fold_right String.append EmptyString parts.

Section Runtime.
Variable w : world.

(** [fs.existsSync] answers without throwing. *)
Definition existsSync (path : string) : M bool :=
  ask (EExistsSync path) (λ t, Ok (existsSync_answer w t)).

Definition readFile (path encoding : string) : M string :=
  ask (EReadFile path encoding) (readFile_answer w).

Definition writeFile (path content encoding : string) : M unit :=
  ask (EWriteFile path content encoding) (writeFile_answer w).

Definition logger_info (msg : string) : M unit := emit (ELog "info" msg).

Definition logger_error (e : error) : M unit := emit (ELog "error" (message e)).

(** [new pogobuf.Client(options)] *)
Definition new_Client (options : client_options) : M nat := λ st,
  (Ok (next_client st),
   {| trace := trace st ++ [ENewClient (next_client st) options];
      heap := heap st; next_ref := next_ref st;
      next_client := S (next_client st); draws := draws st;
      config := config st |}).

Definition client_init (client : nat) (downloadSettings : bool) : M unit :=
  ask (EInit client downloadSettings) (init_answer w).

(** pogobuf's [batchStart] returns the client itself, so [batch] and
    [client] are the same object in the script. *)
Definition batchStart (client : nat) : M unit := emit (EBatchStart client).

Definition batch (client : nat) (r : request) : M unit := emit (ERequest client r).

Definition batchCall (client : nat) : M batch_result :=
  ask (EBatchCall client) (batchCall_answer w).

(** ['0123456789abcdef'[Math.floor(Math.random() * 16)]] *)
Definition random_hex_digit : M string :=
  i ← Math_random;
  mret (char_at "0123456789abcdef" (floor_random_times w i 16)).

(** [config.position.latitude], [config.position.longitude]: a
    [TypeError] when [config.position] is [undefined]. *)
Definition config_position_latitude : M value :=
  cfg ← get_config;
  match config_position cfg with
  | Some p => mret (latitude p)
  | None => throw (TypeError "Cannot read property 'latitude' of undefined")
  end.

Definition config_position_longitude : M value :=
  cfg ← get_config;
  match config_position cfg with
  | Some p => mret (longitude p)
  | None => throw (TypeError "Cannot read property 'longitude' of undefined")
  end.
End Runtime.

(** ** Code common to both versions of the script *)

Record login_result := { inventory : value; settings : value }.

(** [inventoryResponse.inventory_delta.new_timestamp_ms], where
    [inventoryResponse] is what [_.find] returned. *)
Definition inventory_timestamp (found : option response) : result value :=
  match found with
  | None => Throw (TypeError "Cannot read property 'inventory_delta' of undefined")
  | Some (GetInventoryResponse (Some new_timestamp_ms)) => Ok new_timestamp_ms
  | Some _ => Throw (TypeError "Cannot read property 'new_timestamp_ms' of undefined")
  end.

(** [_.find(...).hash] *)
Definition settings_hash (found : option response) : result value :=
  match found with
  | None => Throw (TypeError "Cannot read property 'hash' of undefined")
  | Some (DownloadSettingsResponse hash) => Ok hash
  | Some _ => Ok VUndefined
  end.

(** ** index.js *)

Module Index.
Section Script.
Variable w : world.

(** The initial value of the module-level [config] variable. *)
Definition default_config : config_t :=
  {| api := {| version := 6304; country := "FR"; language := "fr";
               timezone := "Europe/Paris" |};
     delimiter := VStr ",";
     loglevel := "debug";
     config_position := None;
     hashkey := VUndefined;
     proxy := VUndefined |}.

Definition loadConfig : M unit :=
  found ← existsSync w "config.json";
  if negb found then throw (Error "Please create a config.json config file.")
  else
    content ← readFile w "config.json" "utf8";
    parsed ← lift (JSON_parse w content);
    cfg ← get_config;
    set_config (defaultsDeep parsed cfg);;
    emit EConsoleLogOverride;;
    emit (ELoggerRemove Console);;
    cfg ← get_config;
    emit (ELoggerAdd Console (loglevel cfg));;
    cfg ← get_config;
    emit (ELoggerAdd File (loglevel cfg)).

Definition loadAccount (filename : string) : M (list nat) :=
  logger_info ("Import accounts from " +:+ filename);;
  found ← existsSync w filename;
  if negb found then throw (Error ("Input file does not exist: " +:+ filename))
  else
    content ← readFile w filename "utf8";
    cfg ← get_config;
    records ← lift (csvImport w content (delimiter cfg));
    alloc_all records.

Definition loginFlow (account client : nat) : M login_result :=
  account_latitude ← get account "latitude";
  lat ← (if truthy account_latitude then mret account_latitude
         else config_position_latitude);
  account_longitude ← get account "longitude";
  lon ← (if truthy account_longitude then mret account_longitude
         else config_position_longitude);
  draw ← Math_random;
  emit (ESetPosition client lat lon (lodash_random 0 100 true draw));;

  client_init w client false;;

  batchStart client;;
  batchCall w client;;

  batchStart client;;
  cfg ← get_config;
  batch client (getPlayer (country (api cfg)) (language (api cfg)) (timezone (api cfg)));;
  response ← batchCall w client;

  set account "warn" (response_warn response);;
  set account "banned" (response_banned response);;

  batchStart client;;
  cfg ← get_config;
  batch client (downloadRemoteConfigVersion IOS EmptyString EmptyString EmptyString
                  (version (api cfg)));;
  batch client checkChallenge;;
  batch client getHatchedEggs;;
  batch client (getInventory (VNum "0"));;
  batch client checkAwardedBadges;;
  batch client (downloadSettings (VStr EmptyString));;
  response ← batchCall w client;

  let inventoryResponse := lodash_find response GET_INVENTORY in
  level ← lift (splitInventory_player_level w inventoryResponse);
  inventory ← lift (inventory_timestamp inventoryResponse);

  settings ← lift (settings_hash (lodash_find response DOWNLOAD_SETTINGS));

  batchStart client;;
  batch client (getPlayerProfile EmptyString);;
  batch client checkChallenge;;
  batch client getHatchedEggs;;
  batch client (getInventory inventory);;
  batch client checkAwardedBadges;;
  batch client (downloadSettings settings);;
  batch client getBuddyWalked;;
  batchCall w client;;

  batchStart client;;
  batch client (levelUpRewards level);;
  batch client checkChallenge;;
  batch client getHatchedEggs;;
  batch client (getInventory inventory);;
  batch client checkAwardedBadges;;
  batch client (downloadSettings settings);;
  batch client getBuddyWalked;;
  batchCall w client;;

  mret {| inventory := inventory; settings := settings |}.

Definition checkAccount (account : nat) : M unit :=
  username ← get account "username";
  logger_info ("Checking account " +:+ toString username);;

  digits ← lodash_times 32 (random_hex_digit w);
  let deviceId := join_empty digits in
  account_deviceId ← get account "deviceId";
  account_type ← get account "type";
  username ← get account "username";
  password ← get account "password";
  cfg ← get_config;
  client ← new_Client
    {| opt_deviceId := js_or account_deviceId (VStr deviceId);
       opt_authType := account_type;
       opt_username := username;
       opt_password := password;
       opt_version := version (api cfg);
       opt_useHashingServer := true;
       opt_hashingKey := hashkey cfg;
       opt_includeRequestTypeInResponse := true;
       opt_proxy := proxy cfg;
       opt_maxTries := 1 |};

  try_catch
    (loginFlow account client;; mret tt)
    (λ e,
      if bool_decide (0 ≤ indexOf (message e) "Status code 3")%Z
      then set account "banned" (VBool true)
      else mret tt);;

  try_catch
    (batchStart client;;
     batch client (batchAddPlatformRequest GET_STORE_ITEMS);;
     response ← batchCall w client;

     set account "store" (VBool true);;
     set account "iap" (VBool (lodash_some (response_items response))))
    (λ e,
      set account "store" (VBool false);;
      set account "iap" (VBool false));;

  warn ← get account "warn";
  logger_info ("  acount is " +:+ (if truthy warn then EmptyString else "not ") +:+ "warn");;
  banned ← get account "banned";
  logger_info ("  acount is " +:+ (if truthy banned then EmptyString else "not ") +:+ "banned");;
  store ← get account "store";
  logger_info ("  acount has " +:+ (if truthy store then EmptyString else "not ")
               +:+ "access to the store.");;
  iap ← get account "iap";
  logger_info ("  acount has " +:+ (if truthy iap then EmptyString else "not ")
               +:+ "access to in app purchases.").

Definition saveToFile (accounts : list nat) (filename : string) : M unit :=
  content ← for_of_acc accounts ("username,banned,warn,store,iap" +:+ LF) (λ content account,
    username ← get account "username";
    banned ← get account "banned";
    warn ← get account "warn";
    store ← get account "store";
    iap ← get account "iap";
    mret (content +:+ toString username +:+ "," +:+ toString banned +:+ ","
          +:+ toString warn +:+ "," +:+ toString store +:+ ","
          +:+ toString iap +:+ LF));
  writeFile w filename content "utf8".

(** [process.argv[2] || 'accounts.csv'] *)
Definition input : string :=
  match process_argv w !! 2 with
  | Some arg => if bool_decide (arg = EmptyString) then "accounts.csv" else arg
  | None => "accounts.csv"
  end.

Definition Main : M unit :=
  loadConfig;;
  accounts ← loadAccount input;
  for_of accounts checkAccount;;
  saveToFile accounts "output.csv".

(** [Main().then(() => logger.info('Done')).catch(e => logger.error(e))] *)
Definition run : M unit :=
  try_catch (Main;; logger_info "Done") logger_error.
End Script.

(** The state the script starts in. *)
Definition initial_state : state :=
  {| trace := []; heap := ∅; next_ref := 0; next_client := 0; draws := 0;
     config := default_config |}.
End Index.

(** ** The earlier draft of the script (src/unnamed/part_000) *)

(** The carriage return, written ['\r'] in the source. *)
Definition CR : string := String "013"%char EmptyString.

(** Puts a character in front of the first piece of a split. *)
Definition push_char (c : ascii) (pieces : list string) : list string :=
  match pieces with
  | piece :: rest => String c piece :: rest
  | [] => [String c EmptyString]
  end.

(** [content.split(/\r?\n/)]: a line feed ends a piece, and a carriage
    return that stands right before a line feed belongs to the separator. *)
Fixpoint split_lines (content : string) : list string :=
  match content with
  | EmptyString => [EmptyString]
  | String c rest =>
      if bool_decide (c = "010"%char) then EmptyString :: split_lines rest
      else if bool_decide (c = "013"%char) && String.prefix LF rest then split_lines rest
      else push_char c (split_lines rest)
  end.

(** [s.split(d)] for a non-empty string [d]: [skip] counts the characters
    of a separator occurrence that are still to be passed over. *)
Fixpoint split_on (d : string) (s : string) (skip : nat) : list string :=
  match s with
  | EmptyString => [EmptyString]
  | String c rest =>
      match skip with
      | S k => split_on d rest k
      | O =>
          if String.prefix d s then EmptyString :: split_on d rest (String.length d - 1)
          else push_char c (split_on d rest 0)
      end
  end.

(** [s.split(d)]; the empty separator splits between all characters. *)
Definition js_split (s d : string) : list string :=
  if bool_decide (d = EmptyString)
  then map (λ c, String c EmptyString) (list_ascii_of_string s)
  else split_on d s 0.

(** [cells[i]], [undefined] past the end. *)
Definition cell (cells : list string) (i : nat) : value :=
  match cells !! i with
  | Some s => VStr s
  | None => VUndefined
  end.

Module Part000.
Section Script.
Variable w : world.

Definition default_config : config_t :=
  {| api := {| version := 6301; country := "FR"; language := "fr";
               timezone := "Europe/Paris" |};
     delimiter := VUndefined;
     loglevel := "debug";
     config_position := None;
     hashkey := VUndefined;
     proxy := VUndefined |}.

Definition loadConfig : M unit :=
  found ← existsSync w "config.json";
  if negb found then throw (Error "Please create a config.json config file.")
  else
    content ← readFile w "config.json" "utf8";
    parsed ← lift (JSON_parse w content);
    cfg ← get_config;
    set_config (defaultsDeep parsed cfg);;
    emit (ELoggerRemove Console);;
    cfg ← get_config;
    emit (ELoggerAdd Console (loglevel cfg));;
    cfg ← get_config;
    emit (ELoggerAdd File (loglevel cfg)).

(** The object literal [{type: account[0], username: account[1],
    password: account[2]}]. *)
Definition account_record (account : list string) : obj :=
  <["password" := cell account 2]>
    (<["username" := cell account 1]> (<["type" := cell account 0]> ∅)).

(** [delimiter] is [None] when the caller leaves the parameter out. *)
Definition loadAccount (filename : string) (delimiter : option string)
  : M (list nat) :=
  let delimiter := default "," delimiter in
  found ← existsSync w filename;
  if negb found then throw (Error "accounts.csv does not exist.")
  else
    content ← readFile w filename "utf8";
    let lines := split_lines content in
    for_of_acc lines [] (λ accounts line,
      let account := js_split line delimiter in
      r ← alloc (account_record account);
      mret (accounts ++ [r])).

Definition loginFlow (account client : nat) : M login_result :=
  lat ← config_position_latitude;
  lon ← config_position_longitude;
  draw ← Math_random;
  emit (ESetPosition client lat lon (lodash_random (-10) 20 true draw));;

  client_init w client false;;

  batchStart client;;
  batchCall w client;;

  batchStart client;;
  cfg ← get_config;
  batch client (getPlayer (country (api cfg)) (language (api cfg)) (timezone (api cfg)));;
  response ← batchCall w client;

  set account "warn" (response_warn response);;
  set account "banned" (response_banned response);;

  warn ← get account "warn";
  logger_info ("  acount is " +:+ (if truthy warn then EmptyString else "not ") +:+ "warn");;
  banned ← get account "banned";
  logger_info ("  acount is " +:+ (if truthy banned then EmptyString else "not ") +:+ "banned");;

  batchStart client;;
  cfg ← get_config;
  batch client (downloadRemoteConfigVersion IOS EmptyString EmptyString EmptyString
                  (version (api cfg)));;
  batch client checkChallenge;;
  batch client getHatchedEggs;;
  batch client (getInventory (VNum "0"));;
  batch client checkAwardedBadges;;
  batch client (downloadSettings (VStr EmptyString));;
  response ← batchCall w client;

  let inventoryResponse := lodash_find response GET_INVENTORY in
  level ← lift (splitInventory_player_level w inventoryResponse);
  inventory ← lift (inventory_timestamp inventoryResponse);

  settings ← lift (settings_hash (lodash_find response DOWNLOAD_SETTINGS));

  batchStart client;;
  batch client (getPlayerProfile EmptyString);;
  batch client checkChallenge;;
  batch client getHatchedEggs;;
  batch client (getInventory inventory);;
  batch client checkAwardedBadges;;
  batch client (downloadSettings settings);;
  batch client getBuddyWalked;;
  batchCall w client;;

  batchStart client;;
  batch client (levelUpRewards level);;
  batch client checkChallenge;;
  batch client getHatchedEggs;;
  batch client (getInventory inventory);;
  batch client checkAwardedBadges;;
  batch client (downloadSettings settings);;
  batch client getBuddyWalked;;
  batchCall w client;;

  mret {| inventory := inventory; settings := settings |}.

Definition checkAccount (account : nat) : M unit :=
  username ← get account "username";
  logger_info ("Checking account " +:+ toString username);;

  digits ← lodash_times 32 (random_hex_digit w);
  let deviceId := join_empty digits in
  account_type ← get account "type";
  username ← get account "username";
  password ← get account "password";
  cfg ← get_config;
  client ← new_Client
    {| opt_deviceId := VStr deviceId;
       opt_authType := account_type;
       opt_username := username;
       opt_password := password;
       opt_version := version (api cfg);
       opt_useHashingServer := true;
       opt_hashingKey := hashkey cfg;
       opt_includeRequestTypeInResponse := true;
       opt_proxy := proxy cfg;
       opt_maxTries := 1 |};

  loginFlow account client;;

  try_catch
    (batchStart client;;
     batch client (batchAddPlatformRequest GET_STORE_ITEMS);;
     response ← batchCall w client;

     writeFile w "store.json" (JSON_stringify w response) "utf8";;

     set account "store" (VBool true);;
     set account "iap" (VBool (lodash_some (response_items response))))
    (λ e,
      set account "store" (VBool false);;
      set account "iap" (VBool false));;

  store ← get account "store";
  logger_info ("  acount has " +:+ (if truthy store then EmptyString else "not ")
               +:+ "access to the store.").

Definition saveToFile (accounts : list nat) (filename : string) : M unit :=
  content ← for_of_acc accounts ("username,banned,warn,store,iap" +:+ LF) (λ content account,
    username ← get account "username";
    banned ← get account "banned";
    warn ← get account "warn";
    store ← get account "store";
    iap ← get account "iap";
    mret (content +:+ toString username +:+ "," +:+ toString banned +:+ ","
          +:+ toString warn +:+ "," +:+ toString store +:+ ","
          +:+ toString iap +:+ LF));
  writeFile w filename content "utf8".

Definition Main : M unit :=
  loadConfig;;
  accounts ← loadAccount "accounts.4.csv" None;
  for_of accounts checkAccount;;
  saveToFile accounts "output.csv".

(** [Main().then(() => logger.info('Done')).catch(e => logger.error(e))] *)
Definition run : M unit :=
  try_catch (Main;; logger_info "Done") logger_error.
End Script.

Definition initial_state : state :=
  {| trace := []; heap := ∅; next_ref := 0; next_client := 0; draws := 0;
     config := default_config |}.
End Part000.

(** * The vocabulary of the properties *)

(** ** The report *)

(** The line of the report for one account object, as the template literal
    of [saveToFile] builds it. *)
Definition report_line (o : obj) : string :=
  toString (prop o "username") +:+ "," +:+ toString (prop o "banned") +:+ ","
  +:+ toString (prop o "warn") +:+ "," +:+ toString (prop o "store") +:+ ","
  +:+ toString (prop o "iap") +:+ LF.

Definition report (os : list obj) : string :=
  "username,banned,warn,store,iap" +:+ LF +:+ join_empty (map report_line os).

(** The number of occurrences of a character in a string. *)
Fixpoint count_char (c : ascii) (s : string) : nat :=
  match s with
  | EmptyString => 0
  | String c' rest => (if bool_decide (c' = c) then 1 else 0) + count_char c rest
  end.

(** ** Events by kind *)

(** The client on which a call is made. *)
Definition event_client (ev : event) : option nat :=
  match ev with
  | ESetPosition c _ _ _ | EInit c _ | EBatchStart c | ERequest c _ | EBatchCall c =>
      Some c
  | _ => None
  end.

Definition is_log (ev : event) : Prop := ∃ level msg, ev = ELog level msg.

(** A call on [client], or a line of the log. *)
Definition session_event (client : nat) (ev : event) : Prop :=
  event_client ev = Some client ∨ is_log ev.

(** What the draft may do during a check besides calls on the client and
    log lines: dump the store answer to [store.json]. *)
Definition draft_event (client : nat) (ev : event) : Prop :=
  session_event client ev ∨ ∃ content, ev = EWriteFile "store.json" content "utf8".

Definition any_event (ev : event) : Prop := True.

(** The write of the report. *)
Definition output_write (ev : event) : Prop :=
  ∃ content encoding, ev = EWriteFile "output.csv" content encoding.

Definition is_batch_call (ev : event) : bool :=
  match ev with
  | EBatchCall _ => true
  | _ => false
  end.

(** The number of batch calls in a history. *)
Definition batch_calls (t : list event) : nat := length (List.filter is_batch_call t).

(** The pogobuf method behind a queued request. *)
Definition request_name (r : request) : string :=
  match r with
  | getPlayer _ _ _ => "getPlayer"
  | downloadRemoteConfigVersion _ _ _ _ _ => "downloadRemoteConfigVersion"
  | checkChallenge => "checkChallenge"
  | getHatchedEggs => "getHatchedEggs"
  | getInventory _ => "getInventory"
  | checkAwardedBadges => "checkAwardedBadges"
  | downloadSettings _ => "downloadSettings"
  | getPlayerProfile _ => "getPlayerProfile"
  | getBuddyWalked => "getBuddyWalked"
  | levelUpRewards _ => "levelUpRewards"
  | batchAddPlatformRequest _ => "batchAddPlatformRequest"
  end.

(** The method called on a client, if the event is a call on a client. *)
Definition call_name (ev : event) : option string :=
  match ev with
  | ESetPosition _ _ _ _ => Some "setPosition"
  | EInit _ _ => Some "init"
  | EBatchStart _ => Some "batchStart"
  | ERequest _ r => Some (request_name r)
  | EBatchCall _ => Some "batchCall"
  | _ => None
  end.

Definition call_names (t : list event) : list string := omap call_name t.

(** The methods [loginFlow] calls on its client, in order. *)
Definition login_script : list string :=
  ["setPosition"; "init";
   "batchStart"; "batchCall";
   "batchStart"; "getPlayer"; "batchCall";
   "batchStart"; "downloadRemoteConfigVersion"; "checkChallenge"; "getHatchedEggs";
   "getInventory"; "checkAwardedBadges"; "downloadSettings"; "batchCall";
   "batchStart"; "getPlayerProfile"; "checkChallenge"; "getHatchedEggs";
   "getInventory"; "checkAwardedBadges"; "downloadSettings"; "getBuddyWalked";
   "batchCall";
   "batchStart"; "levelUpRewards"; "checkChallenge"; "getHatchedEggs";
   "getInventory"; "checkAwardedBadges"; "downloadSettings"; "getBuddyWalked";
   "batchCall"].

(** ** The fields a check may assign *)

Definition login_flag (account r : nat) (k : string) : Prop :=
  r = account ∧ (k = "warn" ∨ k = "banned").

Definition status_flag (account r : nat) (k : string) : Prop :=
  r = account ∧ (k = "warn" ∨ k = "banned" ∨ k = "store" ∨ k = "iap").

(** One of the four status flags, of any record. *)
Definition any_status_flag (r : nat) (k : string) : Prop :=
  k = "warn" ∨ k = "banned" ∨ k = "store" ∨ k = "iap".

(** The four fields [checkAccount] may add to a record. *)
Definition status_fields : gset string := {["warn"; "banned"; "store"; "iap"]}.

(** ** What a computation does to the state *)

(** [st'] is reachable from [st] by adding [allowed] events and assigning
    [writable] properties; no property is ever removed and the
    configuration is left alone. *)
Record evolves (allowed : event → Prop) (writable : nat → string → Prop)
    (st st' : state) : Prop := {
  evolves_trace : ∃ new, trace st' = trace st ++ new ∧ Forall allowed new;
  evolves_frame : ∀ r k, ¬ writable r k →
                         deref (heap st') r !! k = deref (heap st) r !! k;
  evolves_dom : ∀ r, dom (deref (heap st) r) ⊆ dom (deref (heap st') r);
  evolves_config : config st' = config st;
}.

(** Every run of [m] evolves the state, whether it returns or throws. *)
Definition run_evolves (allowed : event → Prop) (writable : nat → string → Prop)
    {A} (m : M A) : Prop :=
  ∀ st, evolves allowed writable st (m st).2.

(** [m] plays [script]: a run that returns has made exactly the calls of
    the script, in order; a run that throws has made a first part of them. *)
Definition plays {A} (script : list string) (m : M A) : Prop :=
  ∀ st, ∃ new,
    trace (m st).2 = trace st ++ new
    ∧ match (m st).1 with
      | Ok _ => call_names new = script
      | Throw _ => call_names new `prefix_of` script
      end.

(** The state after the objects [os] have been created one after the
    other. *)
Fixpoint allocate (os : list obj) (st : state) : state :=
  match os with
  | [] => st
  | o :: os' => allocate os' (alloc o st).2
  end.

(** ** The phases of [checkAccount] *)

(** The options [checkAccount] passes to the client it creates in state
    [st]: the device id is the account's own, or 32 hexadecimal digits
    drawn from the random generator. *)
Definition Index_options (w : world) (account : nat) (st : state) : client_options :=
  let o := deref (heap st) account in
  {| opt_deviceId :=
       js_or (prop o "deviceId")
         (VStr (join_empty
            (map (λ i, char_at "0123456789abcdef" (floor_random_times w (i + draws st) 16))
                 (seq 0 32))));
     opt_authType := prop o "type";
     opt_username := prop o "username";
     opt_password := prop o "password";
     opt_version := version (api (config st));
     opt_useHashingServer := true;
     opt_hashingKey := hashkey (config st);
     opt_includeRequestTypeInResponse := true;
     opt_proxy := proxy (config st);
     opt_maxTries := 1 |}.

(** The state in which [checkAccount] calls [loginFlow]: the account has
    been announced in the log and its client created. *)
Definition Index_session (w : world) (account : nat) (st : state) : state :=
  {| trace := trace st ++
       [ELog "info" ("Checking account " +:+ toString (prop (deref (heap st) account) "username"));
        ENewClient (next_client st) (Index_options w account st)];
     heap := heap st;
     next_ref := next_ref st;
     next_client := S (next_client st);
     draws := 32 + draws st;
     config := config st |}.

(** The first [try] of [checkAccount]. *)
Definition Index_login_phase (w : world) (account client : nat) : M unit :=
  try_catch
    (Index.loginFlow w account client;; mret tt)
    (λ e,
      if bool_decide (0 ≤ indexOf (message e) "Status code 3")%Z
      then set account "banned" (VBool true)
      else mret tt).

(** The second [try] of [checkAccount]. *)
Definition Index_store_phase (w : world) (account client : nat) : M unit :=
  try_catch
    (batchStart client;;
     batch client (batchAddPlatformRequest GET_STORE_ITEMS);;
     response ← batchCall w client;
     set account "store" (VBool true);;
     set account "iap" (VBool (lodash_some (response_items response))))
    (λ e,
      set account "store" (VBool false);;
      set account "iap" (VBool false)).

(** The four lines [checkAccount] logs at its end. *)
Definition Index_flag_lines (o : obj) : list event :=
  [ELog "info" ("  acount is " +:+ (if truthy (prop o "warn") then EmptyString else "not ")
                +:+ "warn");
   ELog "info" ("  acount is " +:+ (if truthy (prop o "banned") then EmptyString else "not ")
                +:+ "banned");
   ELog "info" ("  acount has " +:+ (if truthy (prop o "store") then EmptyString else "not ")
                +:+ "access to the store.");
   ELog "info" ("  acount has " +:+ (if truthy (prop o "iap") then EmptyString else "not ")
                +:+ "access to in app purchases.")].

(** The history at the moment the store request is answered. *)
Definition store_history (client : nat) (st1 : state) : list event :=
  trace st1 ++ [EBatchStart client;
                ERequest client (batchAddPlatformRequest GET_STORE_ITEMS);
                EBatchCall client].

Definition Part000_options (w : world) (account : nat) (st : state) : client_options :=
  let o := deref (heap st) account in
  {| opt_deviceId :=
       VStr (join_empty
         (map (λ i, char_at "0123456789abcdef" (floor_random_times w (i + draws st) 16))
              (seq 0 32)));
     opt_authType := prop o "type";
     opt_username := prop o "username";
     opt_password := prop o "password";
     opt_version := version (api (config st));
     opt_useHashingServer := true;
     opt_hashingKey := hashkey (config st);
     opt_includeRequestTypeInResponse := true;
     opt_proxy := proxy (config st);
     opt_maxTries := 1 |}.

Definition Part000_session (w : world) (account : nat) (st : state) : state :=
  {| trace := trace st ++
       [ELog "info" ("Checking account " +:+ toString (prop (deref (heap st) account) "username"));
        ENewClient (next_client st) (Part000_options w account st)];
     heap := heap st;
     next_ref := next_ref st;
     next_client := S (next_client st);
     draws := 32 + draws st;
     config := config st |}.

(** The [try] of the draft's [checkAccount]; the dump of the answer to
    [store.json] is inside it. *)
Definition Part000_store_phase (w : world) (account client : nat) : M unit :=
  try_catch
    (batchStart client;;
     batch client (batchAddPlatformRequest GET_STORE_ITEMS);;
     response ← batchCall w client;
     writeFile w "store.json" (JSON_stringify w response) "utf8";;
     set account "store" (VBool true);;
     set account "iap" (VBool (lodash_some (response_items response))))
    (λ e,
      set account "store" (VBool false);;
      set account "iap" (VBool false)).

Definition Part000_store_line (o : obj) : event :=
  ELog "info" ("  acount has " +:+ (if truthy (prop o "store") then EmptyString else "not ")
               +:+ "access to the store.").

(** The history at the moment the draft dumps the store answer. *)
Definition dump_history (w : world) (client : nat) (st1 : state) (response : batch_result)
    : list event :=
  store_history client st1 ++ [EWriteFile "store.json" (JSON_stringify w response) "utf8"].

(** ** The run of [loginFlow] that returns *)

(** [account.latitude || config.position.latitude] and its twin. *)
Definition Index_latitude (account : nat) (st : state) : result value :=
  let account_latitude := prop (deref (heap st) account) "latitude" in
  if truthy account_latitude then Ok account_latitude
  else match config_position (config st) with
       | Some p => Ok (latitude p)
       | None => Throw (TypeError "Cannot read property 'latitude' of undefined")
       end.

Definition Index_longitude (account : nat) (st : state) : result value :=
  let account_longitude := prop (deref (heap st) account) "longitude" in
  if truthy account_longitude then Ok account_longitude
  else match config_position (config st) with
       | Some p => Ok (longitude p)
       | None => Throw (TypeError "Cannot read property 'longitude' of undefined")
       end.

(** [config.position.latitude] and its twin, as the draft reads them. *)
Definition Part000_latitude (st : state) : result value :=
  match config_position (config st) with
  | Some p => Ok (latitude p)
  | None => Throw (TypeError "Cannot read property 'latitude' of undefined")
  end.

Definition Part000_longitude (st : state) : result value :=
  match config_position (config st) with
  | Some p => Ok (longitude p)
  | None => Throw (TypeError "Cannot read property 'longitude' of undefined")
  end.

(** The events of each batch of [loginFlow]. *)
Definition empty_batch (client : nat) : list event :=
  [EBatchStart client; EBatchCall client].

Definition player_batch (client : nat) (cfg : config_t) : list event :=
  [EBatchStart client;
   ERequest client (getPlayer (country (api cfg)) (language (api cfg)) (timezone (api cfg)));
   EBatchCall client].

Definition config_batch (client : nat) (cfg : config_t) : list event :=
  [EBatchStart client;
   ERequest client (downloadRemoteConfigVersion IOS EmptyString EmptyString EmptyString
                      (version (api cfg)));
   ERequest client checkChallenge;
   ERequest client getHatchedEggs;
   ERequest client (getInventory (VNum "0"));
   ERequest client checkAwardedBadges;
   ERequest client (downloadSettings (VStr EmptyString));
   EBatchCall client].

Definition profile_batch (client : nat) (inventory settings : value) : list event :=
  [EBatchStart client;
   ERequest client (getPlayerProfile EmptyString);
   ERequest client checkChallenge;
   ERequest client getHatchedEggs;
   ERequest client (getInventory inventory);
   ERequest client checkAwardedBadges;
   ERequest client (downloadSettings settings);
   ERequest client getBuddyWalked;
   EBatchCall client].

Definition rewards_batch (client : nat) (level inventory settings : value) : list event :=
  [EBatchStart client;
   ERequest client (levelUpRewards level);
   ERequest client checkChallenge;
   ERequest client getHatchedEggs;
   ERequest client (getInventory inventory);
   ERequest client checkAwardedBadges;
   ERequest client (downloadSettings settings);
   ERequest client getBuddyWalked;
   EBatchCall client].

(** The [warn] and [banned] that the answer to the [getPlayer] batch
    gives: those of the player message when the answer is one,
    [undefined] otherwise. *)
Definition player_flags (player : batch_result) (warn banned : value) : Prop :=
  match player with
  | Single (GetPlayerResponse w b) => warn = w ∧ banned = b
  | _ => warn = VUndefined ∧ banned = VUndefined
  end.


(** [m] is the first message of the array [answers] that answers a request
    of type [t]. *)
Definition first_answer (t : RequestType) (answers : batch_result) (m : response) : Prop :=
  ∃ before after,
    answers = Multi (before ++ m :: after)
    ∧ _requestType m = Some t
    ∧ Forall (λ r, _requestType r ≠ Some t) before.

(** A run of [loginFlow] from [st0] that returned [res] in state [st1]:
    it set the position, initialised the client, made an empty batch call,
    a [getPlayer] batch, a download-config batch, a player-profile batch
    and a [levelUpRewards] batch, every one of them answered.  The account
    got the [warn] and [banned] of the player message that answered the
    [getPlayer] batch.  The answer to the download-config batch is an
    array: the timestamp that is returned is the one in the inventory
    delta of its first inventory message, the player level is read from
    that same message, and the hash that is returned is the one of its
    first settings message ([undefined] if that message carries no hash).
    The versions differ in the bounds of the random altitude, in where the
    position comes from ([lat], [lon]) and in the [lines] logged once the
    player is known. *)
Definition login_returns (w : world) (account client : nat) (lower upper : Z)
    (lat lon : result value) (lines : value → value → list event)
    (st0 : state) (res : login_result) (st1 : state) : Prop :=
  ∃ latitude longitude player warn banned answers level,
    let cfg := config st0 in
    let t1 := trace st0 ++
      [ESetPosition client latitude longitude (lodash_random lower upper true (draws st0));
       EInit client false] in
    let t2 := t1 ++ empty_batch client in
    let t3 := t2 ++ player_batch client cfg in
    let t4 := t3 ++ lines warn banned ++ config_batch client cfg in
    let t5 := t4 ++ profile_batch client (inventory res) (settings res) in
    let t6 := t5 ++ rewards_batch client level (inventory res) (settings res) in
    lat = Ok latitude
    ∧ lon = Ok longitude
    ∧ init_answer w t1 = Ok tt
    ∧ (∃ r, batchCall_answer w t2 = Ok r)
    ∧ batchCall_answer w t3 = Ok player
    ∧ player_flags player warn banned
    ∧ batchCall_answer w t4 = Ok answers
    ∧ first_answer GET_INVENTORY answers (GetInventoryResponse (Some (inventory res)))
    ∧ splitInventory_player_level w (Some (GetInventoryResponse (Some (inventory res))))
      = Ok level
    ∧ (first_answer DOWNLOAD_SETTINGS answers (DownloadSettingsResponse (settings res))
       ∨ first_answer DOWNLOAD_SETTINGS answers (OtherResponse DOWNLOAD_SETTINGS)
         ∧ settings res = VUndefined)
    ∧ (∃ r, batchCall_answer w t5 = Ok r)
    ∧ (∃ r, batchCall_answer w t6 = Ok r)
    ∧ trace st1 = t6
    ∧ heap st1 = assign (assign (heap st0) account "warn" warn) account "banned" banned
    ∧ config st1 = config st0.

(** ** The pipeline of [Main] *)

(** The events of one check: a line announcing the account, the creation
    of a client with the account's user name, then only events that are
    [allowed] for that client. *)
Definition check_segment (allowed : nat → event → Prop) (username : value)
    (segment : list event) : Prop :=
  ∃ client options rest,
    segment = ELog "info" ("Checking account " +:+ toString username)
              :: ENewClient client options :: rest
    ∧ opt_username options = username
    ∧ Forall (allowed client) rest.

Definition Index_config_events (level : string) : list event :=
  [EExistsSync "config.json"; EReadFile "config.json" "utf8"; EConsoleLogOverride;
   ELoggerRemove Console; ELoggerAdd Console level; ELoggerAdd File level].

Definition Part000_config_events (level : string) : list event :=
  [EExistsSync "config.json"; EReadFile "config.json" "utf8";
   ELoggerRemove Console; ELoggerAdd Console level; ELoggerAdd File level].

Definition Index_load_events (filename : string) : list event :=
  [ELog "info" ("Import accounts from " +:+ filename);
   EExistsSync filename; EReadFile filename "utf8"].

Definition Part000_load_events (filename : string) : list event :=
  [EExistsSync filename; EReadFile filename "utf8"].

(** The trace of a run that got as far as writing the report: the
    configuration is loaded, the input is read, the accounts are checked
    one after the other in the order of the list, each in a segment of its
    own, and the report of their final state is written last. *)
Definition pipeline (config_events load_events : list event)
    (allowed : nat → event → Prop) (accounts : list nat) (st' : state)
    (new : list event) : Prop :=
  ∃ segments,
    new = config_events ++ load_events ++ concat segments
          ++ [EWriteFile "output.csv" (report (map (deref (heap st')) accounts)) "utf8"]
    ∧ Forall2 (λ account segment,
                 check_segment allowed (prop (deref (heap st') account) "username") segment)
              accounts segments.

(** The run of [Main] from [st], given its steps: it is [run].  An error
    of [loadConfig] or of [loadAccount] ends the run then and there.  Once
    both have returned, the accounts are checked in the order of the list:
    if a check throws, the run ends with its error, each account checked
    so far has left its segment, in order, and nothing else has happened;
    if every check returns, the run has the trace of the whole pipeline,
    and it ends as the write of the report ends. *)
Definition runs_pipeline (w : world) (config_events : string → list event)
    (load_events : list event) (allowed : nat → event → Prop)
    (loadConfig : M unit) (loadAccount : M (list nat)) (check : nat → M unit)
    (st : state) (run : result unit * state) : Prop :=
  match loadConfig st with
  | (Throw e, s1) => run = (Throw e, s1)
  | (Ok _, s1) =>
      trace s1 = trace st ++ config_events (loglevel (config s1))
      ∧ match loadAccount s1 with
        | (Throw e, s2) => run = (Throw e, s2)
        | (Ok accounts, s2) =>
            trace s2 = trace s1 ++ load_events
            ∧ match for_of accounts check s2 with
              | (Throw e, s3) =>
                  run = (Throw e, s3)
                  ∧ ∃ segments,
                      trace s3 = trace s2 ++ concat segments
                      ∧ Forall2 (λ account segment,
                                   check_segment allowed
                                     (prop (deref (heap s2) account) "username") segment)
                                (take (length segments) accounts) segments
              | (Ok _, s3) =>
                  ∃ new,
                    pipeline (config_events (loglevel (config s1))) load_events allowed
                      accounts s3 new
                    ∧ run = (writeFile_answer w (trace st ++ new),
                             with_trace (trace st ++ new) s3)
              end
        end
  end.

(** ** Lines and cells *)

(** [parts.join(sep)] *)
Fixpoint join_with (sep : string) (parts : list string) : string :=
  match parts with
  | [] => EmptyString
  | piece :: rest =>
      match rest with
      | [] => piece
      | _ :: _ => piece +:+ sep +:+ join_with sep rest
      end
  end.

(** The credentials of a record, written as a line of the input file. *)
Definition credentials (d : string) (o : obj) : string :=
  join_with d [toString (prop o "type"); toString (prop o "username");
               toString (prop o "password")].

(** The five texts of an account's row in the report. *)
Definition report_cells (o : obj) : list string :=
  [toString (prop o "username"); toString (prop o "banned"); toString (prop o "warn");
   toString (prop o "store"); toString (prop o "iap")].

(** A text with none of the characters that separate cells and lines. *)
Definition plain (s : string) : Prop :=
  count_char "," s = 0 ∧ count_char "010" s = 0 ∧ count_char "013" s = 0.


(** ** The outcome of the loading steps *)

(** What a run of [loadConfig] from [st] amounts to, where [events level]
    are the calls of a run that returns.  A run that returns has merged
    the parsed file into the configuration and set up the logger with the
    merged level; a run that throws has changed nothing and has not touched
    the logger. *)
Definition loads_config (w : world) (events : string → list event) (st : state)
    (run : result unit * state) : Prop :=
  let asked := trace st ++ [EExistsSync "config.json"] in
  let read := asked ++ [EReadFile "config.json" "utf8"] in
  heap run.2 = heap st
  ∧ match run.1 with
    | Ok _ =>
        ∃ content parsed,
          existsSync_answer w asked = true
          ∧ readFile_answer w read = Ok content
          ∧ JSON_parse w content = Ok parsed
          ∧ config run.2 = defaultsDeep parsed (config st)
          ∧ trace run.2 = trace st ++ events (loglevel (defaultsDeep parsed (config st)))
    | Throw e =>
        config run.2 = config st
        ∧ (existsSync_answer w asked = false
           ∧ e = Error "Please create a config.json config file."
           ∧ trace run.2 = asked
           ∨ existsSync_answer w asked = true
             ∧ trace run.2 = read
             ∧ (readFile_answer w read = Throw e
                ∨ ∃ content, readFile_answer w read = Ok content
                             ∧ JSON_parse w content = Throw e))
    end.

(** What a run of [loadAccount] from [st] amounts to, where [asked] is the
    history at the existence test, [missing] the error for a missing file
    and [parse] what turns the content into records.  A run that returns
    has created the parsed records, in order, as new objects; a run that
    throws has created none.  The objects that were there are left alone. *)
Definition loads_accounts (w : world) (filename : string) (asked : list event)
    (missing : error) (parse : string → result (list obj)) (st : state)
    (run : result (list nat) * state) : Prop :=
  let read := asked ++ [EReadFile filename "utf8"] in
  config run.2 = config st
  ∧ (∀ r, r < next_ref st → heap run.2 !! r = heap st !! r)
  ∧ match run.1 with
    | Ok accounts =>
        ∃ content records,
          existsSync_answer w asked = true
          ∧ readFile_answer w read = Ok content
          ∧ parse content = Ok records
          ∧ trace run.2 = read
          ∧ accounts = seq (next_ref st) (length records)
          ∧ next_ref run.2 = next_ref st + length records
          ∧ ∀ i o, records !! i = Some o → heap run.2 !! (next_ref st + i) = Some o
    | Throw e =>
        heap run.2 = heap st
        ∧ next_ref run.2 = next_ref st
        ∧ (existsSync_answer w asked = false ∧ e = missing ∧ trace run.2 = asked
           ∨ existsSync_answer w asked = true
             ∧ trace run.2 = read
             ∧ (readFile_answer w read = Throw e
                ∨ ∃ content, readFile_answer w read = Ok content ∧ parse content = Throw e))
    end.

(** ** One check, event by event *)

(** The two events with which a check opens. *)
Definition opening (account : nat) (options : client_options) (st : state) : list event :=
  [ELog "info" ("Checking account " +:+ toString (prop (deref (heap st) account) "username"));
   ENewClient (next_client st) options].

(** The first two calls of a login. *)
Definition login_start (client : nat) (lat lon : value) (lower upper : Z) (st : state)
    : list event :=
  [ESetPosition client lat lon (lodash_random lower upper true (draws st));
   EInit client false].

(** The answer of the download-config batch lacks what the login reads
    from it: it has no inventory message or no settings message. *)
Definition incomplete (answers : batch_result) : Prop :=
  lodash_find answers GET_INVENTORY = None ∨ lodash_find answers DOWNLOAD_SETTINGS = None.

(** The calls of the store request. *)
Definition store_request (client : nat) : list event :=
  [EBatchStart client; ERequest client (batchAddPlatformRequest GET_STORE_ITEMS);
   EBatchCall client].

(** The dump of the store answer, which the draft makes when the store
    request is answered. *)
Definition store_dump (w : world) (answer : result batch_result) : list event :=
  match answer with
  | Ok response => [EWriteFile "store.json" (JSON_stringify w response) "utf8"]
  | Throw _ => []
  end.

Definition is_batchCall_name (name : string) : bool := bool_decide (name = "batchCall").

(** The store flags of a record are both decided, and consistently: an
    account with in-app purchases has access to the store. *)
Definition flags_decided (o : obj) : Prop :=
  ∃ store iap : bool,
    prop o "store" = VBool store ∧ prop o "iap" = VBool iap ∧ (iap = true → store = true).

(** The store flags of a record, as an answer to the store request decides
    them.  Answered: [store] is [true], and [iap] tells whether some item
    of the answer has a truthy [is_iap]; an answer without items has none.
    Not answered: both are [false]. *)
Definition store_flags (answer : result batch_result) (o : obj) : Prop :=
  match answer with
  | Ok (Single (GetStoreItemsResponse items)) =>
      prop o "store" = VBool true
      ∧ ∃ iap : bool,
          prop o "iap" = VBool iap
          ∧ (iap = true ↔ ∃ item, item ∈ items ∧ truthy (is_iap item) = true)
  | Ok _ => prop o "store" = VBool true ∧ prop o "iap" = VBool false
  | Throw _ => prop o "store" = VBool false ∧ prop o "iap" = VBool false
  end.

(** The [TypeError] of reading [config.position.latitude] when the
    configuration has no position. *)
Definition no_position : error := TypeError "Cannot read property 'latitude' of undefined".

(** The device id [checkAccount] draws in state [st]. *)
Definition drawn_deviceId (w : world) (st : state) : string :=
  join_empty
    (map (λ i, char_at "0123456789abcdef" (floor_random_times w (i + draws st) 16))
         (seq 0 32)).

(** ** The clients of a run *)

(** If [ev] creates a client, the client has the settings of the
    configuration [cfg]. *)
Definition configured_client (cfg : config_t) (ev : event) : Prop :=
  ∀ client options, ev = ENewClient client options →
    opt_version options = version (api cfg)
    ∧ opt_hashingKey options = hashkey cfg
    ∧ opt_proxy options = proxy cfg
    ∧ opt_useHashingServer options = true
    ∧ opt_includeRequestTypeInResponse options = true
    ∧ opt_maxTries options = 1%Z.

Definition is_new_client (ev : event) : bool :=
  match ev with
  | ENewClient _ _ => true
  | _ => false
  end.

(** The number of clients created in a history. *)
Definition clients (t : list event) : nat := length (List.filter is_new_client t).

(** ** The end of a run *)

(** How the run of the script ends, given the run of [Main]: it never
    throws; it logs [Done] right after a successful write of the report,
    the message of the error otherwise. *)
Definition finishes (w : world) (main run : result unit * state) : Prop :=
  run.1 = Ok tt
  ∧ heap run.2 = heap main.2
  ∧ match main.1 with
    | Ok _ =>
        trace run.2 = trace main.2 ++ [ELog "info" "Done"]
        ∧ writeFile_answer w (trace main.2) = Ok tt
        ∧ ∃ content, last (trace main.2) = Some (EWriteFile "output.csv" content "utf8")
    | Throw e => trace run.2 = trace main.2 ++ [ELog "error" (message e)]
    end.

(** ** Scripted worlds, for running the script on concrete inputs *)

Definition sample_config_json : config_json :=
  {| json_api := None;
     json_delimiter := None;
     json_loglevel := None;
     json_position := Some {| latitude := VNum "48.85"; longitude := VNum "2.35" |};
     json_hashkey := Some (VStr "key");
     json_proxy := None |}.

(** A world in which every file exists, [config.json] holds
    [sample_config_json], any other file holds [content] (which the CSV
    parser turns into [records]), [init] has the outcome [init], and the
    n-th batch call of the run has the n-th outcome of [batches]. *)
Definition scripted (content : string) (records : list obj) (init : result unit)
    (batches : list (result batch_result)) : world :=
  {| process_argv := ["node"; "index.js"];
     existsSync_answer := λ _, true;
     readFile_answer := λ _, Ok content;
     writeFile_answer := λ _, Ok tt;
     init_answer := λ _, init;
     batchCall_answer := λ t,
       default (Throw (Error "socket hang up")) (batches !! (batch_calls t - 1));
     JSON_parse := λ _, Ok sample_config_json;
     JSON_stringify := λ _, "{}";
     csvImport := λ _ _, Ok records;
     splitInventory_player_level := λ found,
       match found with
       | Some _ => Ok (VNum "5")
       | None => Throw (TypeError "Cannot read property 'level' of undefined")
       end;
     floor_random_times := λ i _, i mod 16 |}.

Definition sample_content : string := "ptc,bob,secret" +:+ LF +:+ "google,alice".

Definition bob : obj :=
  <["password" := VStr "secret"]> (<["username" := VStr "bob"]> (<["type" := VStr "ptc"]> ∅)).

(** The answers of a login that goes through, followed by a store with one
    in-app purchase. *)
Definition good_batches : list (result batch_result) :=
  [Ok (Multi []);
   Ok (Single (GetPlayerResponse (VBool false) (VBool false)));
   Ok (Multi [OtherResponse DOWNLOAD_REMOTE_CONFIG_VERSION;
              OtherResponse CHECK_CHALLENGE;
              OtherResponse GET_HATCHED_EGGS;
              GetInventoryResponse (Some (VNum "1500000000000"));
              OtherResponse CHECK_AWARDED_BADGES;
              DownloadSettingsResponse (VStr "54b359c9")]);
   Ok (Multi []);
   Ok (Multi []);
   Ok (Single (GetStoreItemsResponse [{| is_iap := VBool true |}]))].

Definition good_world : world := scripted sample_content [bob] (Ok tt) good_batches.

(** The server refuses the session of a banned account. *)
Definition banned_world : world :=
  scripted sample_content [bob] (Throw (Error "Status code 3 received from RPC")) [].

(** The login server cannot be reached. *)
Definition offline_world : world :=
  scripted sample_content [bob] (Throw (Error "connect ETIMEDOUT")) [].

(** The third batch call of the login times out; the calls before it and
    the store request after it are answered. *)
Definition timeout_world : world :=
  scripted sample_content [bob] (Ok tt)
    [Ok (Multi []);
     Ok (Single (GetPlayerResponse (VBool false) (VBool false)));
     Throw (Error "Request timed out");
     Ok (Single (GetStoreItemsResponse []))].

(** A state in which [bob] is the only account and [config.json] has been
    loaded. *)
Definition bob_state : state :=
  {| trace := []; heap := {[0 := bob]}; next_ref := 1; next_client := 0; draws := 0;
     config := defaultsDeep sample_config_json Index.default_config |}.

(** The run of [loginFlow] on [bob] in a given world, from the state in
    which [checkAccount] calls it. *)
Definition bob_login (w : world) : result login_result * state :=
  Index.loginFlow w 0 (next_client bob_state) (Index_session w 0 bob_state).

(** The state in which the draft's [loadAccount] leaves a first run. *)
Definition loaded_state : state :=
  (Part000.loadAccount good_world "accounts.4.csv" None Part000.initial_state).2.

(** A world without any file. *)
Definition bare_world : world :=
  {| process_argv := ["node"; "index.js"];
     existsSync_answer := λ _, false;
     readFile_answer := λ _, Throw (Error "ENOENT: no such file or directory");
     writeFile_answer := λ _, Ok tt;
     init_answer := λ _, Ok tt;
     batchCall_answer := λ _, Throw (Error "socket hang up");
     JSON_parse := λ _, Throw (Error "Unexpected end of JSON input");
     JSON_stringify := λ _, "{}";
     csvImport := λ _ _, Ok [];
     splitInventory_player_level := λ _, Ok VUndefined;
     floor_random_times := λ i _, i mod 16 |}.

(** An input file whose lines all have three cells, and the same file with
    a final line terminator. *)
Definition full_content : string := "ptc,bob,secret" +:+ LF +:+ "google,alice,hunter2".

Definition full_world : world := scripted full_content [bob] (Ok tt) good_batches.

Definition trailing_world : world := scripted (full_content +:+ LF) [bob] (Ok tt) good_batches.

(** [bob] in a state whose configuration has no position. *)
Definition unconfigured_state : state :=
  {| trace := []; heap := {[0 := bob]}; next_ref := 1; next_client := 0; draws := 0;
     config := Index.default_config |}.

(** The world of [good_world], for a run started with the name of the
    input file on the command line. *)
Definition argument_world : world :=
  {| process_argv := ["node"; "index.js"; "mine.csv"];
     existsSync_answer := existsSync_answer good_world;
     readFile_answer := readFile_answer good_world;
     writeFile_answer := writeFile_answer good_world;
     init_answer := init_answer good_world;
     batchCall_answer := batchCall_answer good_world;
     JSON_parse := JSON_parse good_world;
     JSON_stringify := JSON_stringify good_world;
     csvImport := csvImport good_world;
     splitInventory_player_level := splitInventory_player_level good_world;
     floor_random_times := floor_random_times good_world |}.

(** The download-config batch is answered without the inventory. *)
Definition incomplete_world : world :=
  scripted sample_content [bob] (Ok tt)
    [Ok (Multi []);
     Ok (Single (GetPlayerResponse (VBool true) (VBool false)));
     Ok (Multi [OtherResponse DOWNLOAD_REMOTE_CONFIG_VERSION;
                DownloadSettingsResponse (VStr "54b359c9")]);
     Ok (Single (GetStoreItemsResponse []))].


(** The world of [good_world] on a full disk: no file can be written. *)
Definition full_disk_world : world :=
  {| process_argv := process_argv good_world;
     existsSync_answer := existsSync_answer good_world;
     readFile_answer := readFile_answer good_world;
     writeFile_answer := λ _, Throw (Error "ENOSPC: no space left on device");
     init_answer := init_answer good_world;
     batchCall_answer := batchCall_answer good_world;
     JSON_parse := JSON_parse good_world;
     JSON_stringify := JSON_stringify good_world;
     csvImport := csvImport good_world;
     splitInventory_player_level := splitInventory_player_level good_world;
     floor_random_times := floor_random_times good_world |}.

(** A text between double quotes. *)
Definition quoted (s : string) : string :=
  String "034"%char EmptyString +:+ s +:+ String "034"%char EmptyString.

(** The text of a [config.json] that names a position and a hashing key. *)
Definition config_text : string :=
  "{" +:+ quoted "position" +:+ ": {" +:+ quoted "latitude" +:+ ": 48.85, "
  +:+ quoted "longitude" +:+ ": 2.35}, " +:+ quoted "hashkey" +:+ ": " +:+ quoted "key" +:+ "}".

(** A world that tells its files, its texts and its separators apart:
    [config.json] holds [config_text], which alone parses, to
    [sample_config_json]; every other file holds [sample_content], which
    the CSV parser reads as [bob] when the cells are separated by commas,
    and as nothing otherwise. *)
Definition filing_world : world :=
  {| process_argv := ["node"; "index.js"];
     existsSync_answer := λ _, true;
     readFile_answer := λ t,
       match last t with
       | Some (EReadFile path _) =>
           if bool_decide (path = "config.json") then Ok config_text else Ok sample_content
       | _ => Throw (Error "EBADF: bad file descriptor")
       end;
     writeFile_answer := λ _, Ok tt;
     init_answer := λ _, Ok tt;
     batchCall_answer := batchCall_answer good_world;
     JSON_parse := λ text,
       if bool_decide (text = config_text) then Ok sample_config_json
       else Throw (Error "Unexpected token in JSON");
     JSON_stringify := λ _, "{}";
     csvImport := λ content separator,
       if bool_decide (content = sample_content ∧ separator = VStr ",") then Ok [bob]
       else Ok [];
     splitInventory_player_level := splitInventory_player_level good_world;
     floor_random_times := λ i _, i mod 16 |}.

(** ** Sentences of the specification, as they are written *)

(** C7 as the specification states it, for a record that has just been
    read by the draft's [loadAccount]. *)
Definition five_to_eight_fields : Prop :=
  ∀ w filename delimiter st accounts st',
    Part000.loadAccount w filename delimiter st = (Ok accounts, st') →
    ∀ r, r ∈ accounts → 5 ≤ size (deref (heap st') r) ≤ 8.

(** C8 as the specification states it: whenever [loginFlow] throws an
    error that does not mention ['Status code 3'] on an account that had
    no [warn] and [banned] yet, the two fields are still undefined after
    [checkAccount], and so is their text in the account's line. *)
Definition login_error_leaves_flags_undefined : Prop :=
  ∀ w account st e st1,
    deref (heap st) account !! "warn" = None →
    deref (heap st) account !! "banned" = None →
    Index.loginFlow w account (next_client st) (Index_session w account st)
    = (Throw e, st1) →
    ¬ contains (message e) "Status code 3" →
    ∃ st', Index.checkAccount w account st = (Ok tt, st')
      ∧ prop (deref (heap st') account) "warn" = VUndefined
      ∧ prop (deref (heap st') account) "banned" = VUndefined.

(** C3 as the specification states it, for each version: when [loginFlow]
    throws inside a check, the check goes on with the store request and
    returns, and it has marked the account as banned if the message of the
    error contains ['Status code 3']. *)
Definition login_error_is_recovered : Prop :=
  (∀ w account st e st1,
     Index.loginFlow w account (next_client st) (Index_session w account st) = (Throw e, st1) →
     ∃ st' rest,
       Index.checkAccount w account st = (Ok tt, st')
       ∧ trace st' = store_history (next_client st) st1 ++ rest
       ∧ (contains (message e) "Status code 3" →
          prop (deref (heap st') account) "banned" = VBool true))
  ∧ (∀ w account st e st1,
       Part000.loginFlow w account (next_client st) (Part000_session w account st)
       = (Throw e, st1) →
       ∃ st' rest,
         Part000.checkAccount w account st = (Ok tt, st')
         ∧ trace st' = store_history (next_client st) st1 ++ rest
         ∧ (contains (message e) "Status code 3" →
            prop (deref (heap st') account) "banned" = VBool true)).



(** C6 as the specification states it, for each version: after a check,
    the store flags of the account are those that the answer to the store
    request decides. *)
Definition store_answer_decides_flags : Prop :=
  (∀ w account st,
     let st1 := (Index_login_phase w account (next_client st) (Index_session w account st)).2 in
     ∃ st', Index.checkAccount w account st = (Ok tt, st')
       ∧ store_flags (batchCall_answer w (store_history (next_client st) st1))
           (deref (heap st') account))
  ∧ (∀ w account st res st1,
       Part000.loginFlow w account (next_client st) (Part000_session w account st)
       = (Ok res, st1) →
       ∃ st', Part000.checkAccount w account st = (Ok tt, st')
         ∧ store_flags (batchCall_answer w (store_history (next_client st) st1))
             (deref (heap st') account)).

(** * Properties *)

(** ** Running a computation *)

Lemma run_bind {A B} (m : M A) (f : A → M B) (st : state) :
  (m ≫= f) st =
  match m st with
  | (Ok a, st') => f a st'
  | (Throw e, st') => (Throw e, st')
  end.
Proof. reflexivity. Qed.

Lemma run_get r k st : get r k st = (Ok (prop (deref (heap st) r) k), st).
Proof. reflexivity. Qed.

Lemma run_emit ev st : emit ev st = (Ok tt, with_trace (trace st ++ [ev]) st).
Proof. reflexivity. Qed.

Lemma run_ask {A} ev (answer : list event → result A) st :
  ask ev answer st = (answer (trace st ++ [ev]), with_trace (trace st ++ [ev]) st).
Proof. reflexivity. Qed.

Lemma run_get_config st : get_config st = (Ok (config st), st).
Proof. reflexivity. Qed.

Lemma run_set r k v st :
  set r k v st = (Ok tt, with_heap (assign (heap st) r k v) st).
Proof. reflexivity. Qed.

(** [_.times(n, ...)] of the hexadecimal digit draws [n] times in a row. *)
Lemma run_hex_digits w n st :
  lodash_times n (random_hex_digit w) st =
  (Ok (map (λ i, char_at "0123456789abcdef" (floor_random_times w (i + draws st) 16))
           (seq 0 n)),
   with_draws (n + draws st) st).
Proof.
  revert st. induction n as [|n IH]; intros st.
  - by destruct st.
  - cbn [lodash_times]. rewrite run_bind. unfold random_hex_digit at 1.
    rewrite run_bind. unfold Math_random at 1. cbv beta iota.
    unfold mret at 1, M_ret at 1. cbv beta iota.
    rewrite run_bind, IH. cbv beta iota. unfold mret, M_ret.
    cbn [seq map]. rewrite <- seq_shift, map_map. cbn [draws with_draws].
    f_equal; [f_equal; f_equal|].
    + apply map_ext. intros i. by rewrite Nat.add_succ_r.
    + unfold with_draws. cbn. by rewrite Nat.add_succ_r.
Qed.

(** Unfolds the monad and the primitive operations, then computes. *)
Ltac run_prims :=
  unfold mbind, M_bind, mret, M_ret, throw, try_catch, lift, emit, ask,
    get_config, set_config, get, set, alloc, Math_random, existsSync, readFile,
    writeFile, logger_info, logger_error, new_Client, client_init, batchStart,
    batch, batchCall; cbn.

(** ** The report *)

Lemma append_cons (ch : ascii) (a b : string) :
  String ch a +:+ b = String ch (a +:+ b).
Proof. reflexivity. Qed.

Lemma append_empty_l (a : string) : EmptyString +:+ a = a.
Proof. reflexivity. Qed.

Lemma append_assoc (a b c : string) : (a +:+ b) +:+ c = a +:+ (b +:+ c).
Proof.
  induction a as [|ch a IH]; [reflexivity|].
  by rewrite !append_cons, IH.
Qed.

Lemma append_empty_r (a : string) : a +:+ EmptyString = a.
Proof.
  induction a as [|ch a IH]; [reflexivity|].
  by rewrite append_cons, IH.
Qed.

(** The loop of [saveToFile] appends one line per account, in order, to
    whatever [content] held before, and touches nothing. *)
Lemma saveToFile_loop (accounts : list nat) (content : string) (st : state) :
  for_of_acc accounts content (λ content account,
      username ← get account "username";
      banned ← get account "banned";
      warn ← get account "warn";
      store ← get account "store";
      iap ← get account "iap";
      mret (content +:+ toString username +:+ "," +:+ toString banned +:+ ","
            +:+ toString warn +:+ "," +:+ toString store +:+ ","
            +:+ toString iap +:+ LF)) st
  = (Ok (content +:+ join_empty (map (λ account, report_line (deref (heap st) account)) accounts)),
     st).
Proof.
  revert content. induction accounts as [|account accounts IH]; intros content.
  - simpl. by rewrite append_empty_r.
  - cbn [for_of_acc]. rewrite run_bind. run_prims. rewrite IH. cbn [map join_empty fold_right].
    by rewrite append_assoc.
Qed.

(** ** What a computation may do to the state *)

Lemma deref_insert (h : gmap nat obj) (r r' : nat) (o : obj) :
  deref (<[r := o]> h) r' = if decide (r = r') then o else deref h r'.
Proof.
  unfold deref. destruct (decide (r = r')) as [->|Hne].
  - by rewrite lookup_insert_eq.
  - by rewrite lookup_insert_ne.
Qed.

Lemma deref_set_lookup (h : gmap nat obj) (r r' : nat) (k k' : string) (v : value) :
  deref (assign h r k v) r' !! k' =
  if decide (r = r' ∧ k = k') then Some v else deref h r' !! k'.
Proof.
  unfold assign. rewrite deref_insert. destruct (decide (r = r')) as [->|Hne].
  - destruct (decide (k = k')) as [->|Hk].
    + rewrite lookup_insert_eq. by rewrite decide_True.
    + rewrite lookup_insert_ne by done. rewrite decide_False; [done | by intros [_ ?]].
  - rewrite decide_False; [done | by intros [? _]].
Qed.

Section Evolution.
(** The events a computation may add to the history, and the properties
    of stored objects it may assign. *)
Variable allowed : event → Prop.
Variable writable : nat → string → Prop.

#[local] Abbreviation evolves := (evolves allowed writable).
#[local] Abbreviation run_evolves := (run_evolves allowed writable).

Lemma evolves_refl st : evolves st st.
Proof.
  split; try done.
  exists []. by rewrite app_nil_r.
Qed.

Lemma evolves_trans st1 st2 st3 : evolves st1 st2 → evolves st2 st3 → evolves st1 st3.
Proof.
  intros [[n1 [E1 F1]] Fr1 D1 C1] [[n2 [E2 F2]] Fr2 D2 C2]. split; try done.
  - exists (n1 ++ n2). split.
    + by rewrite E2, E1, <- app_assoc.
    + by apply Forall_app.
  - intros r k Hk. by rewrite Fr2, Fr1.
  - intros r. specialize (D1 r). specialize (D2 r). set_solver.
  - by rewrite C2.
Qed.

Lemma ev_ret {A} (a : A) : run_evolves (mret a).
Proof. intros st. apply evolves_refl. Qed.

Lemma ev_throw {A} (e : error) : run_evolves (@throw A e).
Proof. intros st. apply evolves_refl. Qed.

Lemma ev_lift {A} (r : result A) : run_evolves (lift r).
Proof. intros st. apply evolves_refl. Qed.

Lemma ev_get r k : run_evolves (get r k).
Proof. intros st. apply evolves_refl. Qed.

Lemma ev_get_config : run_evolves get_config.
Proof. intros st. apply evolves_refl. Qed.

Lemma ev_bind {A B} (m : M A) (f : A → M B) :
  run_evolves m → (∀ a, run_evolves (f a)) → run_evolves (m ≫= f).
Proof.
  intros Hm Hf st. rewrite run_bind. specialize (Hm st).
  destruct (m st) as [[a|e] st1]; [|exact Hm].
  eapply evolves_trans; [exact Hm | apply Hf].
Qed.

Lemma ev_try_catch {A} (body : M A) (handler : error → M A) :
  run_evolves body → (∀ e, run_evolves (handler e)) →
  run_evolves (try_catch body handler).
Proof.
  intros Hb Hh st. unfold try_catch. specialize (Hb st).
  destruct (body st) as [[a|e] st1]; [exact Hb|].
  eapply evolves_trans; [exact Hb | apply Hh].
Qed.

Lemma ev_emit ev : allowed ev → run_evolves (emit ev).
Proof.
  intros Hev st. split; try done.
  exists [ev]. split; [done | by constructor].
Qed.

Lemma ev_ask {A} ev (answer : list event → result A) :
  allowed ev → run_evolves (ask ev answer).
Proof.
  intros Hev st. split; try done.
  exists [ev]. split; [done | by constructor].
Qed.

Lemma ev_set r k v : writable r k → run_evolves (set r k v).
Proof.
  intros Hw st. split; try done.
  - exists []. by rewrite app_nil_r.
  - intros r' k' Hk'. cbn. rewrite deref_set_lookup.
    rewrite decide_False; [done | by intros [-> ->]].
  - intros r'. cbn. unfold assign. rewrite deref_insert. destruct (decide (r = r')) as [->|]; [|done].
    rewrite dom_insert_L. set_solver.
Qed.

Lemma ev_new_Client options :
  (∀ client, allowed (ENewClient client options)) → run_evolves (new_Client options).
Proof.
  intros Hev st. split; try done.
  exists [ENewClient (next_client st) options]. split; [done | by constructor].
Qed.

Lemma ev_Math_random : run_evolves Math_random.
Proof.
  intros st. split; try done. exists []. by rewrite app_nil_r.
Qed.

Lemma ev_for_of {A} (xs : list A) (body : A → M unit) :
  (∀ x, run_evolves (body x)) → run_evolves (for_of xs body).
Proof.
  intros Hb. induction xs as [|x xs IH]; [apply ev_ret|].
  apply ev_bind; [apply Hb | intros _; exact IH].
Qed.

Lemma ev_times {A} (n : nat) (f : M A) :
  run_evolves f → run_evolves (lodash_times n f).
Proof.
  intros Hf. induction n as [|n IH]; [apply ev_ret|].
  apply ev_bind; [exact Hf | intros x].
  apply ev_bind; [exact IH | intros xs; apply ev_ret].
Qed.
End Evolution.

(** ** Strings: [indexOf] finds exactly the occurrences *)

Lemma substring_here (pat post : string) :
  substring 0 (String.length pat) (pat +:+ post) = pat.
Proof.
  induction pat as [|c pat IH]; cbn [String.length].
  - by destruct post.
  - rewrite append_cons. cbn [substring]. by rewrite IH.
Qed.

Lemma substring_skip (pre s : string) (m : nat) :
  substring (String.length pre) m (pre +:+ s) = substring 0 m s.
Proof.
  induction pre as [|c pre IH]; [reflexivity|].
  rewrite append_cons. cbn [String.length substring]. exact IH.
Qed.

Lemma substring_zero_split (t s : string) :
  substring 0 (String.length t) s = t → ∃ post, s = t +:+ post.
Proof.
  revert s. induction t as [|c t IH]; intros s H.
  - by exists s.
  - destruct s as [|c' s]; cbn [String.length substring] in H; [discriminate|].
    injection H as -> H. destruct (IH _ H) as [post ->].
    exists post. by rewrite append_cons.
Qed.

Lemma substring_occurrence (n : nat) (s t : string) :
  substring n (String.length t) s = t → contains s t.
Proof.
  revert s. induction n as [|n IH]; intros s H.
  - destruct (substring_zero_split _ _ H) as [post ->]. by exists EmptyString, post.
  - destruct s as [|c s]; cbn [substring] in H.
    + subst t. by exists EmptyString, EmptyString.
    + destruct (IH _ H) as (pre & post & ->).
      exists (String c pre), post. by rewrite append_cons.
Qed.

Lemma occurrence_substring (s t : string) :
  contains s t → ∃ n, substring n (String.length t) s = t.
Proof.
  intros (pre & post & ->). exists (String.length pre).
  rewrite substring_skip. apply substring_here.
Qed.

(** [s.indexOf(pat) >= 0] says that [pat] occurs in [s]. *)
Lemma indexOf_contains (s pat : string) :
  pat ≠ EmptyString → (0 ≤ indexOf s pat)%Z ↔ contains s pat.
Proof.
  intros Hpat. unfold indexOf. destruct (index 0 pat s) as [n|] eqn:E.
  - split; [intros _ | lia].
    apply index_correct1 in E. by eapply substring_occurrence.
  - split; [lia|]. intros [n Hn]%occurrence_substring. exfalso.
    eapply (index_correct3 0 n); eauto. lia.
Qed.

(** ** Which events and which fields each function may touch *)

Lemma evolves_mono (allowed allowed' : event → Prop)
    (writable writable' : nat → string → Prop) st st' :
  (∀ ev, allowed ev → allowed' ev) →
  (∀ r k, writable r k → writable' r k) →
  evolves allowed writable st st' → evolves allowed' writable' st st'.
Proof.
  intros Ha Hw [[new [E F]] Fr D C]. split; try done.
  - exists new. split; [done|]. eapply Forall_impl; eauto.
  - intros r k Hk. apply Fr. intros H. apply Hk, Hw, H.
Qed.

Lemma run_evolves_mono {A} (allowed allowed' : event → Prop)
    (writable writable' : nat → string → Prop) (m : M A) :
  (∀ ev, allowed ev → allowed' ev) →
  (∀ r k, writable r k → writable' r k) →
  run_evolves allowed writable m → run_evolves allowed' writable' m.
Proof. intros Ha Hw H st. eapply evolves_mono; eauto. Qed.

Ltac evolve :=
  repeat match goal with
    | |- run_evolves _ _ (mbind _ _) => apply ev_bind; [|intros ?]
    | |- run_evolves _ _ (mret _) => apply ev_ret
    | |- run_evolves _ _ (throw _) => apply ev_throw
    | |- run_evolves _ _ (lift _) => apply ev_lift
    | |- run_evolves _ _ (get _ _) => apply ev_get
    | |- run_evolves _ _ get_config => apply ev_get_config
    | |- run_evolves _ _ Math_random => apply ev_Math_random
    | |- run_evolves _ _ (try_catch _ _) => apply ev_try_catch; [|intros ?]
    | |- run_evolves _ _ (lodash_times _ _) => apply ev_times
    | |- run_evolves _ _ (emit _) => apply ev_emit
    | |- run_evolves _ _ (ask _ _) => apply ev_ask
    | |- run_evolves _ _ (set _ _ _) => apply ev_set
    | |- run_evolves _ _ (new_Client _) => apply ev_new_Client; intros ?
    | |- run_evolves _ _ (if ?b then _ else _) => destruct b
    | |- run_evolves _ _ (match ?x with _ => _ end) => destruct x
    end.

Ltac session_side :=
  first
    [ left; reflexivity
    | right; eexists; eexists; reflexivity
    | split; [reflexivity | tauto] ].

Ltac unfold_calls :=
  unfold existsSync, readFile, writeFile, logger_info, logger_error, client_init,
    batchStart, batch, batchCall, random_hex_digit, config_position_latitude,
    config_position_longitude.

Lemma Index_loginFlow_evolves w account client :
  run_evolves (session_event client) (login_flag account)
    (Index.loginFlow w account client).
Proof. unfold Index.loginFlow. unfold_calls. evolve; session_side. Qed.

Lemma Part000_loginFlow_evolves w account client :
  run_evolves (session_event client) (login_flag account)
    (Part000.loginFlow w account client).
Proof. unfold Part000.loginFlow. unfold_calls. evolve; session_side. Qed.

(** ** The phases of [checkAccount] in index.js *)

#[local] Arguments Index.loginFlow : simpl never.
#[local] Arguments Part000.loginFlow : simpl never.

(** [checkAccount] is its two [try] blocks run one after the other on the
    client of the session, followed by the four log lines. *)
Lemma Index_checkAccount_phases w account st :
  Index.checkAccount w account st =
  match Index_login_phase w account (next_client st) (Index_session w account st) with
  | (Throw e, st1) => (Throw e, st1)
  | (Ok _, st1) =>
      match Index_store_phase w account (next_client st) st1 with
      | (Throw e, st2) => (Throw e, st2)
      | (Ok _, st2) =>
          (Ok tt, with_trace (trace st2 ++ Index_flag_lines (deref (heap st2) account)) st2)
      end
  end.
Proof.
  unfold Index.checkAccount.
  rewrite run_bind, run_get. cbv beta iota.
  rewrite run_bind. unfold logger_info at 1. rewrite run_emit. cbv beta iota.
  rewrite run_bind, run_hex_digits. cbv beta iota zeta.
  do 4 (rewrite run_bind, run_get; cbv beta iota).
  rewrite run_bind, run_get_config. cbv beta iota.
  rewrite run_bind. unfold new_Client at 1. cbv beta iota.
  cbn [trace heap next_ref next_client draws config with_trace with_draws].
  rewrite <- app_assoc. cbn [app].
  fold (Index_options w account st). fold (Index_session w account st).
  rewrite run_bind. fold (Index_login_phase w account (next_client st)).
  destruct (Index_login_phase _ _ _ _) as [[[]|e] st1]; [|reflexivity].
  rewrite run_bind. fold (Index_store_phase w account (next_client st)).
  destruct (Index_store_phase _ _ _ _) as [[[]|e] st2]; [|reflexivity].
  unfold logger_info.
  do 3 (rewrite run_bind, run_get; cbv beta iota; rewrite run_bind, run_emit;
        cbv beta iota; cbn [trace heap with_trace]).
  rewrite run_bind, run_get; cbv beta iota. rewrite run_emit.
  cbn [trace heap with_trace]. rewrite <- !app_assoc. reflexivity.
Qed.

(** Reading a property after an assignment. *)
Lemma prop_assign (h : gmap nat obj) (r r' : nat) (k k' : string) (v : value) :
  prop (deref (assign h r k v) r') k' =
  if decide (r = r' ∧ k = k') then v else prop (deref h r') k'.
Proof. unfold prop. rewrite deref_set_lookup. by case_decide. Qed.

Lemma prop_assign_eq (h : gmap nat obj) (r : nat) (k : string) (v : value) :
  prop (deref (assign h r k v) r) k = v.
Proof. rewrite prop_assign. by rewrite decide_True. Qed.

Lemma prop_assign_ne (h : gmap nat obj) (r r' : nat) (k k' : string) (v : value) :
  k ≠ k' → prop (deref (assign h r k v) r') k' = prop (deref h r') k'.
Proof. intros Hk. rewrite prop_assign. rewrite decide_False; [done | by intros [_ ?]]. Qed.

(** The first [try]: a login that returns leaves the state as it is; a
    login that throws is caught, and marks the account as banned exactly
    when the message has ['Status code 3'] in it. *)
Lemma Index_login_phase_run w account client st0 :
  Index_login_phase w account client st0 =
  match Index.loginFlow w account client st0 with
  | (Ok _, st1) => (Ok tt, st1)
  | (Throw e, st1) =>
      (Ok tt,
       if bool_decide (0 ≤ indexOf (message e) "Status code 3")%Z
       then with_heap (assign (heap st1) account "banned" (VBool true)) st1
       else st1)
  end.
Proof.
  unfold Index_login_phase, try_catch. rewrite run_bind.
  destruct (Index.loginFlow w account client st0) as [[res|e] st1]; [reflexivity|].
  by case_bool_decide.
Qed.

(** The second [try]: it always ends normally, with [store] and [iap]
    assigned according to the answer to the store request. *)
Lemma Index_store_phase_run w account client st1 :
  Index_store_phase w account client st1 =
  (Ok tt,
   match batchCall_answer w (store_history client st1) with
   | Ok response =>
       with_heap
         (assign (assign (heap st1) account "store" (VBool true))
            account "iap" (VBool (lodash_some (response_items response))))
         (with_trace (store_history client st1) st1)
   | Throw _ =>
       with_heap
         (assign (assign (heap st1) account "store" (VBool false))
            account "iap" (VBool false))
         (with_trace (store_history client st1) st1)
   end).
Proof.
  unfold Index_store_phase, try_catch, batchStart, batch, batchCall, store_history.
  rewrite run_bind, run_emit. cbv beta iota.
  rewrite run_bind, run_emit. cbv beta iota.
  rewrite run_bind, run_ask. cbn [trace with_trace].
  rewrite <- !app_assoc. cbn [app].
  destruct (batchCall_answer w _) as [response|e]; reflexivity.
Qed.

(** ** Frame: what [checkAccount] leaves alone *)

Lemma Index_checkAccount_evolves w account :
  run_evolves any_event (status_flag account) (Index.checkAccount w account).
Proof.
  unfold Index.checkAccount. unfold_calls. cbv zeta. evolve.
  all: try exact I.
  all: try (split; [reflexivity | tauto]).
  eapply run_evolves_mono; [| |apply Index_loginFlow_evolves].
  - by intros.
  - intros r k [-> Hk]. split; [reflexivity | tauto].
Qed.

Lemma Part000_checkAccount_evolves w account :
  run_evolves any_event (status_flag account) (Part000.checkAccount w account).
Proof.
  unfold Part000.checkAccount. unfold_calls. cbv zeta. evolve.
  all: try exact I.
  all: try (split; [reflexivity | tauto]).
  eapply run_evolves_mono; [| |apply Part000_loginFlow_evolves].
  - by intros.
  - intros r k [-> Hk]. split; [reflexivity | tauto].
Qed.

(** Closes [k ∉ [k1; ...; kn]] for distinct literals. *)
Ltac not_in_list :=
  let H := fresh "Hin" in
  intros H; repeat (apply elem_of_cons in H as [H|H]; [discriminate H|]);
  by apply elem_of_nil in H.

Lemma not_status_flag account r k :
  r ≠ account ∨ k ∉ ["warn"; "banned"; "store"; "iap"] → ¬ status_flag account r k.
Proof.
  intros [Hr|Hk] [-> Hflag]; [done|]. apply Hk.
  destruct Hflag as [-> | [-> | [-> | ->]]]; repeat constructor.
Qed.

Lemma not_login_flag account r k :
  r ≠ account ∨ k ∉ ["warn"; "banned"] → ¬ login_flag account r k.
Proof.
  intros [Hr|Hk] [-> Hflag]; [done|]. apply Hk.
  destruct Hflag as [-> | ->]; repeat constructor.
Qed.

(** C9 (index.js).  [checkAccount], and the [loginFlow] it runs, assign
    no property of any stored object other than [warn], [banned], [store]
    and [iap] of the account itself -- for [loginFlow] only [warn] and
    [banned].  In particular [type], [username] and [password] of the
    account are the same after the call as before, whether it returns or
    throws. *)
Theorem checkAccount_frame w account st :
  let st' := (Index.checkAccount w account st).2 in
  (∀ r k, r ≠ account ∨ k ∉ ["warn"; "banned"; "store"; "iap"] →
          deref (heap st') r !! k = deref (heap st) r !! k)
  ∧ deref (heap st') account !! "type" = deref (heap st) account !! "type"
  ∧ deref (heap st') account !! "username" = deref (heap st) account !! "username"
  ∧ deref (heap st') account !! "password" = deref (heap st) account !! "password"
  ∧ ∀ client st0,
      let st1 := (Index.loginFlow w account client st0).2 in
      ∀ r k, r ≠ account ∨ k ∉ ["warn"; "banned"] →
             deref (heap st1) r !! k = deref (heap st0) r !! k.
Proof.
  intros st'. subst st'.
  pose proof (Index_checkAccount_evolves w account st) as [_ Hframe _ _].
  assert (Hgen : ∀ r k, r ≠ account ∨ k ∉ ["warn"; "banned"; "store"; "iap"] →
            deref (heap (Index.checkAccount w account st).2) r !! k
            = deref (heap st) r !! k).
  { intros r k Hrk. by apply Hframe, not_status_flag. }
  split; [exact Hgen|].
  split; [apply Hgen; right; not_in_list|].
  split; [apply Hgen; right; not_in_list|].
  split; [apply Hgen; right; not_in_list|].
  intros client st0 st1 r k Hrk. subst st1.
  pose proof (Index_loginFlow_evolves w account client st0) as [_ Hf _ _].
  by apply Hf, not_login_flag.
Qed.

(** ** The report written by [saveToFile] *)

Lemma saveToFile_run w accounts filename st :
  let content := report (map (deref (heap st)) accounts) in
  let written := trace st ++ [EWriteFile filename content "utf8"] in
  Index.saveToFile w accounts filename st
  = (writeFile_answer w written, with_trace written st).
Proof.
  intros content written. unfold Index.saveToFile.
  rewrite run_bind, saveToFile_loop. cbv beta iota.
  unfold writeFile. rewrite run_ask. subst written content. unfold report.
  by rewrite map_map, append_assoc.
Qed.

Lemma Part000_saveToFile_run w accounts filename st :
  let content := report (map (deref (heap st)) accounts) in
  let written := trace st ++ [EWriteFile filename content "utf8"] in
  Part000.saveToFile w accounts filename st
  = (writeFile_answer w written, with_trace written st).
Proof.
  intros content written. unfold Part000.saveToFile.
  rewrite run_bind, saveToFile_loop. cbv beta iota.
  unfold writeFile. rewrite run_ask. subst written content. unfold report.
  by rewrite map_map, append_assoc.
Qed.

Lemma count_char_app c (a b : string) :
  count_char c (a +:+ b) = count_char c a + count_char c b.
Proof.
  induction a as [|ch a IH]; [reflexivity|].
  rewrite append_cons. cbn [count_char]. rewrite IH. lia.
Qed.

(** When no field of the accounts has a line feed in its text, the report
    has as many line feeds as it has accounts, and one more for the
    header: every account is on a line of its own. *)
Lemma report_line_feeds (os : list obj) :
  Forall (λ o, ∀ k, count_char "010"%char (toString (prop o k)) = 0) os →
  count_char "010"%char (report os) = S (length os).
Proof.
  intros Hos. unfold report. rewrite !count_char_app.
  change (count_char "010"%char "username,banned,warn,store,iap") with 0.
  change (count_char "010"%char LF) with 1. cbn [Nat.add]. f_equal.
  induction Hos as [|o os Ho _ IH]; [reflexivity|].
  cbn [map join_empty fold_right length]. rewrite count_char_app.
  fold (join_empty (map report_line os)). rewrite IH.
  unfold report_line. rewrite !count_char_app, !Ho.
  change (count_char "010"%char ",") with 0.
  change (count_char "010"%char LF) with 1. lia.
Qed.


(** C10.  The two versions of [saveToFile] are extensionally equal: on
    every list of accounts, file name and state each of them writes the
    same report to the same file, with the same outcome and final state. *)
Theorem saveToFile_versions_agree w accounts filename st :
  Index.saveToFile w accounts filename st = Part000.saveToFile w accounts filename st.
Proof.
  rewrite saveToFile_run.
  rewrite Part000_saveToFile_run.
  reflexivity.
Qed.

(** ** Reading the accounts *)

Lemma allocate_fields os st :
  trace (allocate os st) = trace st
  ∧ next_ref (allocate os st) = next_ref st + length os
  ∧ next_client (allocate os st) = next_client st
  ∧ draws (allocate os st) = draws st
  ∧ config (allocate os st) = config st.
Proof.
  revert st. induction os as [|o os IH]; intros st; cbn [allocate length].
  - by rewrite Nat.add_0_r.
  - destruct (IH (alloc o st).2) as (-> & -> & -> & -> & ->). cbn.
    repeat split; lia.
Qed.

Lemma allocate_lookup_old os st r :
  r < next_ref st → heap (allocate os st) !! r = heap st !! r.
Proof.
  revert st. induction os as [|o os IH]; intros st Hr; cbn [allocate]; [done|].
  rewrite IH by (cbn; lia). cbn. apply lookup_insert_ne. lia.
Qed.

Lemma allocate_lookup_new os st i o :
  os !! i = Some o → heap (allocate os st) !! (next_ref st + i) = Some o.
Proof.
  revert st i. induction os as [|o' os IH]; intros st i Hi; [done|].
  cbn [allocate]. destruct i as [|i].
  - injection Hi as ->. rewrite Nat.add_0_r.
    rewrite allocate_lookup_old by (cbn; lia). cbn. apply lookup_insert_eq.
  - replace (next_ref st + S i) with (next_ref (alloc o' st).2 + i) by (cbn; lia).
    by apply IH.
Qed.

Lemma alloc_all_run os st :
  alloc_all os st = (Ok (seq (next_ref st) (length os)), allocate os st).
Proof.
  revert st. induction os as [|o os IH]; intros st; [reflexivity|].
  cbn [alloc_all allocate length seq]. rewrite run_bind.
  unfold alloc at 1. cbv beta iota. rewrite run_bind, IH. reflexivity.
Qed.

(** The loop of the draft's [loadAccount] creates one record per line, in
    order, and collects the references in order. *)
Lemma Part000_loadAccount_loop delimiter lines accounts st :
  for_of_acc lines accounts (λ accounts line,
      let account := js_split line delimiter in
      r ← alloc (Part000.account_record account);
      mret (accounts ++ [r])) st
  = (Ok (accounts ++ seq (next_ref st) (length lines)),
     allocate (map (λ line, Part000.account_record (js_split line delimiter)) lines) st).
Proof.
  revert accounts st. induction lines as [|line lines IH]; intros accounts st.
  - cbn. by rewrite app_nil_r.
  - cbn [for_of_acc map allocate length seq]. rewrite run_bind. cbv zeta.
    rewrite run_bind. unfold alloc at 1. cbv beta iota.
    unfold mret at 1, M_ret at 1. cbv beta iota. rewrite IH. cbn [next_ref].
    by rewrite <- app_assoc.
Qed.

(** A record made by the draft has the three credential fields, whatever
    the cells of its line are. *)
Lemma account_record_dom (cells : list string) :
  dom (Part000.account_record cells) = {["type"; "username"; "password"]}.
Proof.
  unfold Part000.account_record. rewrite !dom_insert_L, dom_empty_L. set_solver.
Qed.

Lemma push_char_length c pieces :
  pieces ≠ [] → length (push_char c pieces) = length pieces.
Proof. by destruct pieces. Qed.

(** [split] yields one piece more than there are line feeds. *)
Lemma split_lines_length content :
  length (split_lines content) = S (count_char "010"%char content).
Proof.
  induction content as [|c rest IH]; [reflexivity|].
  cbn [split_lines count_char]. case_bool_decide as Hlf.
  - cbn [length]. by rewrite IH.
  - destruct (bool_decide (c = "013"%char) && String.prefix LF rest); [exact IH|].
    rewrite push_char_length; [exact IH|]. by destruct (split_lines rest).
Qed.

(** ** How many fields a record carries *)

Lemma status_fields_size : size status_fields = 4.
Proof. reflexivity. Qed.

(** A state that evolved by assigning status flags only holds the same
    records, each with its old fields and possibly some of the four flags. *)
Lemma evolves_fields allowed st st' r :
  evolves allowed any_status_flag st st' →
  let o := deref (heap st) r in
  let o' := deref (heap st') r in
  dom o ⊆ dom o' ∧ dom o' ⊆ dom o ∪ status_fields
  ∧ size o ≤ size o' ≤ size o + 4.
Proof.
  intros [_ Hframe Hdom _] o o'. subst o o'.
  assert (Hup : dom (deref (heap st') r) ⊆ dom (deref (heap st) r) ∪ status_fields).
  { intros k Hk. destruct (decide (k ∈ status_fields)) as [|Hflag];
      [by apply elem_of_union_r|].
    apply elem_of_union_l. apply elem_of_dom. rewrite <- Hframe; [by apply elem_of_dom|].
    intros Hs. apply Hflag. unfold status_fields.
    rewrite !elem_of_union, !elem_of_singleton. unfold any_status_flag in Hs. tauto. }
  split; [apply Hdom|]. split; [exact Hup|].
  rewrite <- !size_dom. split.
  - apply subseteq_size, Hdom.
  - etrans; [apply subseteq_size, Hup|].
    rewrite size_union_alt, <- status_fields_size.
    apply Nat.add_le_mono_l, subseteq_size.
    by intros k [Hk _]%elem_of_difference.
Qed.

(** Checking a list of accounts one after the other assigns status flags
    only, in either version. *)
Lemma Index_check_all_evolves w (accounts : list nat) :
  run_evolves any_event any_status_flag (for_of accounts (Index.checkAccount w)).
Proof.
  apply ev_for_of. intros account.
  eapply run_evolves_mono; [| |apply Index_checkAccount_evolves]; [done|].
  by intros r k [_ Hk].
Qed.

Lemma Part000_check_all_evolves w (accounts : list nat) :
  run_evolves any_event any_status_flag (for_of accounts (Part000.checkAccount w)).
Proof.
  apply ev_for_of. intros account.
  eapply run_evolves_mono; [| |apply Part000_checkAccount_evolves]; [done|].
  by intros r k [_ Hk].
Qed.

(** Whatever the draft's [loadAccount] returns, every record of the list
    has the three credential fields and no other. *)
Lemma Part000_loadAccount_ok w filename delimiter st accounts st' :
  Part000.loadAccount w filename delimiter st = (Ok accounts, st') →
  ∀ r, r ∈ accounts → dom (deref (heap st') r) = {["type"; "username"; "password"]}.
Proof.
  unfold Part000.loadAccount. cbv zeta.
  unfold existsSync. rewrite run_bind, run_ask.
  destruct (existsSync_answer w _); cbv beta iota; cbn [negb]; [|discriminate].
  unfold readFile. rewrite run_bind, run_ask.
  destruct (readFile_answer w _) as [content|e]; cbv beta iota; [|discriminate].
  rewrite Part000_loadAccount_loop. cbn [app next_ref with_trace].
  intros [= <- <-] r Hr%elem_of_seq.
  replace r with (next_ref st + (r - next_ref st)) by lia.
  set (i := r - next_ref st).
  destruct (lookup_lt_is_Some_2 (split_lines content) i) as [line Hline]; [lia|].
  unfold deref.
  match goal with
  | |- context [allocate ?os ?s] =>
      pose proof (allocate_lookup_new os s i
                    (Part000.account_record (js_split line (default "," delimiter))))
        as Hnew
  end.
  cbn [next_ref with_trace] in Hnew.
  rewrite Hnew by (rewrite list_lookup_fmap; by rewrite Hline).
  apply account_record_dom.
Qed.

(** C7, refuted as stated: a record that the draft's [loadAccount] has just
    read carries three fields, not five to eight. *)
Lemma five_to_eight_fields_fails : ¬ five_to_eight_fields.
Proof.
  intros Hclaim.
  destruct (Part000.loadAccount good_world "accounts.4.csv" None Part000.initial_state)
    as [[accounts|e] st'] eqn:Hload; [|by vm_compute in Hload].
  assert (Hin : 0 ∈ accounts).
  { vm_compute in Hload. injection Hload as <- _. repeat constructor. }
  pose proof (Hclaim _ _ _ _ _ _ Hload 0 Hin) as [Hlow _].
  rewrite <- size_dom, (Part000_loadAccount_ok _ _ _ _ _ _ Hload 0 Hin) in Hlow.
  vm_compute in Hlow. lia.
Qed.

(** C7, amended.  A record made by the draft's [loadAccount] has exactly
    the three fields [type], [username] and [password].  Checking accounts,
    in either version and whether the checks return or throw, removes no
    field of any record and adds none but [warn], [banned], [store] and
    [iap]; so a record read by the draft carries between three and seven
    fields at every point from being read to being written. *)
Theorem account_record_fields w (checked : list nat) st r :
  let o := deref (heap st) r in
  let grown := λ st' : state,
    let o' := deref (heap st') r in
    dom o ⊆ dom o' ∧ dom o' ⊆ dom o ∪ status_fields ∧ size o ≤ size o' ≤ size o + 4 in
  grown (for_of checked (Index.checkAccount w) st).2
  ∧ grown (for_of checked (Part000.checkAccount w) st).2
  ∧ ∀ filename delimiter st0 accounts,
      Part000.loadAccount w filename delimiter st0 = (Ok accounts, st) →
      r ∈ accounts →
      dom o = {["type"; "username"; "password"]}
      ∧ size o = 3
      ∧ 3 ≤ size (deref (heap (for_of checked (Part000.checkAccount w) st).2) r) ≤ 7.
Proof.
  intros o grown. subst grown. cbv beta.
  pose proof (evolves_fields _ _ _ r (Index_check_all_evolves w checked st)) as HI.
  pose proof (evolves_fields _ _ _ r (Part000_check_all_evolves w checked st)) as HP.
  cbv zeta in HI, HP. fold o in HI, HP.
  split; [exact HI|]. split; [exact HP|].
  intros filename delimiter st0 accounts Hload Hin.
  pose proof (Part000_loadAccount_ok _ _ _ _ _ _ Hload r Hin) as Hdom. fold o in Hdom.
  assert (Hsize : size o = 3) by (by rewrite <- size_dom, Hdom).
  split; [exact Hdom|]. split; [exact Hsize|].
  destruct HP as (_ & _ & Hlow & Hhigh). lia.
Qed.

(** ** The script a computation plays *)

Lemma plays_silent {A} (m : M A) :
  (∀ st, trace (m st).2 = trace st) → (∀ st, ∃ a, (m st).1 = Ok a) → plays [] m.
Proof.
  intros Htrace Hok st. exists []. rewrite Htrace, app_nil_r. split; [done|].
  destruct (Hok st) as [a ->]. done.
Qed.

Lemma plays_ret {A} (a : A) : plays [] (mret a).
Proof. apply plays_silent; intros st; [done | by exists a]. Qed.

Lemma plays_get r k : plays [] (get r k).
Proof. apply plays_silent; intros st; [done | by eexists]. Qed.

Lemma plays_set r k v : plays [] (set r k v).
Proof. apply plays_silent; intros st; [done | by eexists]. Qed.

Lemma plays_get_config : plays [] get_config.
Proof. apply plays_silent; intros st; [done | by eexists]. Qed.

Lemma plays_Math_random : plays [] Math_random.
Proof. apply plays_silent; intros st; [done | by eexists]. Qed.

Lemma plays_throw {A} (script : list string) (e : error) : plays script (@throw A e).
Proof. intros st. exists []. cbn. rewrite app_nil_r. split; [done | apply prefix_nil]. Qed.

Lemma plays_lift {A} (r : result A) : plays [] (lift r).
Proof. intros st. exists []. cbn. rewrite app_nil_r. split; [done | by destruct r]. Qed.

Lemma plays_emit ev : plays (call_names [ev]) (emit ev).
Proof. intros st. by exists [ev]. Qed.

Lemma plays_ask {A} ev (answer : list event → result A) :
  plays (call_names [ev]) (ask ev answer).
Proof. intros st. exists [ev]. cbn. split; [done | by destruct (answer _)]. Qed.

Lemma call_names_app t1 t2 : call_names (t1 ++ t2) = call_names t1 ++ call_names t2.
Proof. apply omap_app. Qed.

Lemma plays_bind {A B} (s1 s2 : list string) (m : M A) (f : A → M B) :
  plays s1 m → (∀ a, plays s2 (f a)) → plays (s1 ++ s2) (m ≫= f).
Proof.
  intros Hm Hf st. rewrite run_bind. destruct (Hm st) as (n1 & E1 & P1).
  destruct (m st) as [[a|e] st1]; cbn [fst snd] in *.
  - destruct (Hf a st1) as (n2 & E2 & P2). exists (n1 ++ n2). split.
    + by rewrite E2, E1, <- app_assoc.
    + rewrite call_names_app, P1. destruct (f a st1) as [[b|e] st2]; cbn [fst snd] in *.
      * by rewrite P2.
      * by apply prefix_app.
  - exists n1. split; [done|]. by apply prefix_app_r.
Qed.

Lemma plays_script_eq {A} (s s' : list string) (m : M A) : plays s m → s = s' → plays s' m.
Proof. by intros H <-. Qed.

Lemma plays_bind_silent {A B} (m : M A) (f : A → M B) :
  plays [] m → (∀ a, plays [] (f a)) → plays [] (m ≫= f).
Proof. intros Hm Hf. by apply (plays_bind [] []). Qed.

Lemma plays_emit_named ev name : call_name ev = Some name → plays [name] (emit ev).
Proof. intros H. eapply plays_script_eq; [apply plays_emit|]. cbn. by rewrite H. Qed.

Lemma plays_emit_silent ev : call_name ev = None → plays [] (emit ev).
Proof. intros H. eapply plays_script_eq; [apply plays_emit|]. cbn. by rewrite H. Qed.

Lemma plays_ask_named {A} ev (answer : list event → result A) name :
  call_name ev = Some name → plays [name] (ask ev answer).
Proof. intros H. eapply plays_script_eq; [apply plays_ask|]. cbn. by rewrite H. Qed.

Ltac play :=
  repeat match goal with
    | |- plays [] (mbind _ _) => apply plays_bind_silent; [|intros ?]
    | |- plays _ (mbind _ _) => eapply plays_bind; [|intros ?]
    | |- plays _ (mret _) => apply plays_ret
    | |- plays _ (throw _) => apply plays_throw
    | |- plays _ (lift _) => apply plays_lift
    | |- plays _ (get _ _) => apply plays_get
    | |- plays _ (set _ _ _) => apply plays_set
    | |- plays _ get_config => apply plays_get_config
    | |- plays _ Math_random => apply plays_Math_random
    | |- plays _ (emit _) =>
        first [ eapply plays_emit_named; cbn; reflexivity
              | apply plays_emit_silent; reflexivity ]
    | |- plays _ (ask _ _) => eapply plays_ask_named; cbn; reflexivity
    | |- plays _ (if ?b then _ else _) => destruct b
    | |- plays _ (match ?x with _ => _ end) => destruct x
    end.

(** Both versions of [loginFlow] play the same fixed script. *)
Lemma Index_loginFlow_plays w account client :
  plays login_script (Index.loginFlow w account client).
Proof.
  eapply plays_script_eq.
  - unfold Index.loginFlow. unfold_calls. play.
  - reflexivity.
Qed.

Lemma Part000_loginFlow_plays w account client :
  plays login_script (Part000.loginFlow w account client).
Proof.
  eapply plays_script_eq.
  - unfold Part000.loginFlow. unfold_calls. play.
  - reflexivity.
Qed.

(** ** The run of [loginFlow] that returns *)

Lemma run_ret {A} (a : A) st : @mret M _ A a st = (Ok a, st).
Proof. reflexivity. Qed.

Lemma run_throw {A} (e : error) st : @throw A e st = (Throw e, st).
Proof. reflexivity. Qed.

Lemma run_lift {A} (r : result A) st : lift r st = (r, st).
Proof. reflexivity. Qed.

Lemma run_config_position_latitude st :
  config_position_latitude st = (Part000_latitude st, st).
Proof.
  unfold config_position_latitude, Part000_latitude.
  rewrite run_bind, run_get_config. cbv beta iota.
  by destruct (config_position (config st)).
Qed.

Lemma run_config_position_longitude st :
  config_position_longitude st = (Part000_longitude st, st).
Proof.
  unfold config_position_longitude, Part000_longitude.
  rewrite run_bind, run_get_config. cbv beta iota.
  by destruct (config_position (config st)).
Qed.

Lemma run_Index_latitude account st :
  (if truthy (prop (deref (heap st) account) "latitude")
   then @mret M _ _ (prop (deref (heap st) account) "latitude")
   else config_position_latitude) st
  = (Index_latitude account st, st).
Proof.
  unfold Index_latitude. cbv zeta.
  destruct (truthy _); [reflexivity|]. apply run_config_position_latitude.
Qed.

Lemma run_Index_longitude account st :
  (if truthy (prop (deref (heap st) account) "longitude")
   then @mret M _ _ (prop (deref (heap st) account) "longitude")
   else config_position_longitude) st
  = (Index_longitude account st, st).
Proof.
  unfold Index_longitude. cbv zeta.
  destruct (truthy _); [reflexivity|]. apply run_config_position_longitude.
Qed.

Ltac unfold_calls_in H :=
  unfold existsSync, readFile, writeFile, logger_info, logger_error, client_init,
    batchStart, batch, batchCall, random_hex_digit in H.

(** One step of a run recorded in hypothesis [H]. *)
Ltac tidy H :=
  cbv beta iota in H;
  cbn [trace heap next_ref next_client draws config
       with_trace with_heap with_draws with_config] in H;
  rewrite <- ?app_assoc in H; cbn [app] in H.

Ltac step_get H := rewrite run_bind, run_get in H; tidy H.
Ltac step_set H := rewrite run_bind, run_set in H; tidy H.
Ltac step_emit H := rewrite run_bind, run_emit in H; tidy H.
Ltac step_config H := rewrite run_bind, run_get_config in H; tidy H.
Ltac step_ask H a Ha :=
  rewrite run_bind, run_ask in H; tidy H;
  match type of H with
  | context [match ?answer with Ok _ => _ | Throw _ => _ end] =>
      destruct answer as [a|?] eqn:Ha; [|discriminate H]
  end; tidy H.
Ltac step_lift H a Ha :=
  rewrite run_bind, run_lift in H; tidy H;
  match type of H with
  | context [match ?r with Ok _ => _ | Throw _ => _ end] =>
      destruct r as [a|?] eqn:Ha; [|discriminate H]
  end; tidy H.

(** What is read as [warn] and [banned] of the answer are its flags. *)
Lemma player_flags_response (player : batch_result) :
  player_flags player (response_warn player) (response_banned player).
Proof. by destruct player as [[]|]. Qed.

Lemma player_flags_unique (player : batch_result) (warn banned : value) :
  player_flags player warn banned →
  warn = response_warn player ∧ banned = response_banned player.
Proof. by destruct player as [[]|]. Qed.

(** What [_.find] returns is the first message of the type it looks for. *)
Lemma lodash_find_first (answers : batch_result) (t : RequestType) (m : response) :
  lodash_find answers t = Some m → first_answer t answers m.
Proof.
  destruct answers as [r|rs]; cbn [lodash_find]; [discriminate|].
  induction rs as [|r rs IH]; cbn [find]; [discriminate|].
  case_bool_decide as Hr.
  - intros [= ->]. exists [], rs. by repeat split.
  - intros Hfind. destruct (IH Hfind) as (before & after & [= ->] & Hm & Hbefore).
    exists (r :: before), after. split; [reflexivity|]. split; [exact Hm|].
    by constructor.
Qed.

(** The timestamp that is read is the one the inventory message carries. *)
Lemma inventory_timestamp_Ok (found : option response) (ts : value) :
  inventory_timestamp found = Ok ts → found = Some (GetInventoryResponse (Some ts)).
Proof.
  destruct found as [[| [new_timestamp_ms|] | | |]|]; cbn [inventory_timestamp];
    intros [=]; by subst.
Qed.

(** The hash that is read is the one the settings message carries;
    a message of another shape has no [hash]. *)
Lemma settings_hash_Ok (answers : batch_result) (hash : value) :
  settings_hash (lodash_find answers DOWNLOAD_SETTINGS) = Ok hash →
  first_answer DOWNLOAD_SETTINGS answers (DownloadSettingsResponse hash)
  ∨ first_answer DOWNLOAD_SETTINGS answers (OtherResponse DOWNLOAD_SETTINGS)
    ∧ hash = VUndefined.
Proof.
  destruct (lodash_find answers DOWNLOAD_SETTINGS) as [m|] eqn:Hfind; [|discriminate].
  apply lodash_find_first in Hfind.
  pose proof Hfind as (_ & _ & _ & Hm & _).
  destruct m as [| | h | |t]; cbn [settings_hash _requestType] in *; try discriminate.
  - intros [= ->]. by left.
  - injection Hm as ->. intros [= <-]. by right.
Qed.

Lemma Index_loginFlow_returns w account client st0 res st1 :
  Index.loginFlow w account client st0 = (Ok res, st1) →
  login_returns w account client 0 100
    (Index_latitude account st0) (Index_longitude account st0) (λ _ _, [])
    st0 res st1.
Proof.
  intros H. unfold login_returns. unfold Index.loginFlow in H. unfold_calls_in H.
  step_get H.
  rewrite run_bind, run_Index_latitude in H.
  destruct (Index_latitude account st0) as [lat|?] eqn:Hlat; [|discriminate H]. tidy H.
  step_get H.
  rewrite run_bind, run_Index_longitude in H.
  destruct (Index_longitude account st0) as [lon|?] eqn:Hlon; [|discriminate H]. tidy H.
  rewrite run_bind in H. unfold Math_random at 1 in H. tidy H.
  step_emit H.
  step_ask H u Hinit. destruct u.
  step_emit H. step_ask H r2 H2.
  step_emit H. step_config H. step_emit H. step_ask H player H3.
  step_set H. step_set H.
  step_emit H. step_config H. do 6 step_emit H. step_ask H answers H4.
  cbv zeta in H.
  step_lift H level Hlevel. step_lift H ts Hts. step_lift H hash Hhash.
  do 8 step_emit H. step_ask H r5 H5.
  do 8 step_emit H. step_ask H r6 H6.
  rewrite run_ret in H. injection H as <- <-. cbn [inventory settings].
  apply inventory_timestamp_Ok in Hts. rewrite Hts in Hlevel.
  apply lodash_find_first in Hts. apply settings_hash_Ok in Hhash.
  exists lat, lon, player, (response_warn player), (response_banned player), answers, level.
  cbv zeta.
  unfold empty_batch, player_batch, config_batch, profile_batch, rewards_batch.
  rewrite <- !app_assoc. cbn [app trace heap config].
  repeat first [ split; [eassumption || (eexists; eassumption) || reflexivity
                         || apply player_flags_response |] ].
  reflexivity.
Qed.



(** ** A login that throws early *)

Lemma batch_calls_app t1 t2 : batch_calls (t1 ++ t2) = batch_calls t1 + batch_calls t2.
Proof. unfold batch_calls. by rewrite List.filter_app, length_app. Qed.

Lemma evolves_batch_calls allowed writable st st' :
  evolves allowed writable st st' → batch_calls (trace st) ≤ batch_calls (trace st').
Proof. intros [(new & -> & _) _ _ _]. rewrite batch_calls_app. lia. Qed.

(** If [loginFlow] throws before it has made its third batch call, the
    account is as it was: [warn] and [banned] are assigned only once the
    [getPlayer] batch has been answered, and the third batch call is made
    whenever it has. *)
Lemma Index_loginFlow_early_throw w account client st0 e st1 :
  Index.loginFlow w account client st0 = (Throw e, st1) →
  batch_calls (trace st1) < batch_calls (trace st0) + 3 →
  heap st1 = heap st0.
Proof.
  intros H Hcalls. unfold Index.loginFlow in H. unfold_calls_in H.
  step_get H.
  rewrite run_bind, run_Index_latitude in H.
  destruct (Index_latitude account st0) as [lat|?]; tidy H; [|by injection H as <- <-].
  step_get H.
  rewrite run_bind, run_Index_longitude in H.
  destruct (Index_longitude account st0) as [lon|?]; tidy H; [|by injection H as <- <-].
  rewrite run_bind in H. unfold Math_random at 1 in H. tidy H.
  step_emit H.
  rewrite run_bind, run_ask in H; tidy H.
  destruct (init_answer w _) as [[]|?]; tidy H; [|by injection H as <- <-].
  step_emit H.
  rewrite run_bind, run_ask in H; tidy H.
  destruct (batchCall_answer w _) as [r2|?]; tidy H; [|by injection H as <- <-].
  step_emit H. step_config H. step_emit H.
  rewrite run_bind, run_ask in H; tidy H.
  destruct (batchCall_answer w _) as [player|?]; tidy H; [|by injection H as <- <-].
  step_set H. step_set H.
  step_emit H. step_config H. do 6 step_emit H.
  exfalso.
  rewrite run_bind, run_ask in H; tidy H.
  destruct (batchCall_answer w _) as [answers|?]; tidy H.
  - match type of H with
    | ?rest ?stx = _ =>
        assert (Hev : run_evolves any_event (λ _ _, True) rest) by (evolve; exact I);
        specialize (Hev stx); rewrite H in Hev; cbn [snd] in Hev;
        apply evolves_batch_calls in Hev;
        cbn [trace with_trace with_heap] in Hev
    end.
    rewrite !batch_calls_app in Hev. cbn in Hev. lia.
  - injection H as <- <-. cbn [trace with_trace with_heap] in Hcalls.
    rewrite !batch_calls_app in Hcalls. cbn in Hcalls. lia.
Qed.

(** ** A login error that is not a ban *)

(** C8, refuted as stated: when the third batch call of the login times
    out, the account already has the [warn] and [banned] of the player
    answer, and [checkAccount] leaves them there. *)
Lemma login_error_leaves_flags_undefined_fails : ¬ login_error_leaves_flags_undefined.
Proof.
  intros Hclaim.
  destruct (Index.loginFlow timeout_world 0 (next_client bob_state)
              (Index_session timeout_world 0 bob_state)) as [[res|e] st1] eqn:Hlogin;
    [by vm_compute in Hlogin|].
  assert (He : message e = "Request timed out")
    by (vm_compute in Hlogin; by injection Hlogin as <- _).
  destruct (Hclaim timeout_world 0 bob_state e st1) as (st' & Hrun & Hwarn & _);
    [reflexivity | reflexivity | exact Hlogin | |].
  - rewrite He. intros Hc%indexOf_contains; [|discriminate]. by vm_compute in Hc.
  - assert (Hc : prop (deref (heap (Index.checkAccount timeout_world 0 bob_state).2) 0) "warn"
                 = VBool false) by (vm_compute; reflexivity).
    rewrite Hrun in Hc. cbn [snd] in Hc. congruence.
Qed.

(** C8, amended.  On an account that has no [warn] and [banned] yet, if
    [loginFlow] throws an error that does not mention ['Status code 3']
    before it has made its third batch call -- at the latest on the
    [getPlayer] batch call --, then [checkAccount] returns normally without
    having set [warn] or [banned]: both are still undefined, and the line
    [saveToFile] writes for the account reads [undefined] in the [banned]
    and [warn] columns. *)
Theorem checkAccount_early_login_error w account st e st1 :
  deref (heap st) account !! "warn" = None →
  deref (heap st) account !! "banned" = None →
  Index.loginFlow w account (next_client st) (Index_session w account st) = (Throw e, st1) →
  batch_calls (trace st1) < batch_calls (trace st) + 3 →
  ¬ contains (message e) "Status code 3" →
  ∃ st', Index.checkAccount w account st = (Ok tt, st')
    ∧ prop (deref (heap st') account) "warn" = VUndefined
    ∧ prop (deref (heap st') account) "banned" = VUndefined
    ∧ ∀ filename,
        let o := deref (heap st') account in
        let content :=
          "username,banned,warn,store,iap" +:+ LF +:+
          toString (prop o "username") +:+ ",undefined,undefined," +:+
          toString (prop o "store") +:+ "," +:+ toString (prop o "iap") +:+ LF in
        trace (Index.saveToFile w [account] filename st').2
        = trace st' ++ [EWriteFile filename content "utf8"].
Proof.
  intros Hwarn Hbanned Hlogin Hcalls Hother.
  assert (Hheap : heap st1 = heap st).
  { apply (Index_loginFlow_early_throw _ _ _ _ _ _ Hlogin).
    cbn [trace Index_session]. rewrite batch_calls_app. cbn. lia. }
  assert (Hidx : bool_decide (0 ≤ indexOf (message e) "Status code 3")%Z = false).
  { apply bool_decide_eq_false. intros Hc. by apply Hother, indexOf_contains. }
  rewrite Index_checkAccount_phases, Index_login_phase_run, Hlogin, Hidx.
  rewrite Index_store_phase_run.
  set (st3 := match batchCall_answer w _ with Ok _ => _ | Throw _ => _ end).
  assert (Hw : prop (deref (heap st3) account) "warn" = VUndefined).
  { subst st3. destruct (batchCall_answer w _); cbn [heap with_heap with_trace];
      rewrite !prop_assign_ne, Hheap by done; unfold prop; by rewrite Hwarn. }
  assert (Hb : prop (deref (heap st3) account) "banned" = VUndefined).
  { subst st3. destruct (batchCall_answer w _); cbn [heap with_heap with_trace];
      rewrite !prop_assign_ne, Hheap by done; unfold prop; by rewrite Hbanned. }
  eexists. split; [reflexivity|]. cbn [heap with_trace].
  split; [exact Hw|]. split; [exact Hb|].
  intros filename. cbv zeta. rewrite saveToFile_run. cbn [snd trace with_trace heap map].
  unfold report, report_line. cbn [map join_empty fold_right]. rewrite Hw, Hb.
  rewrite append_empty_r. reflexivity.
Qed.

(** ** The trace of one check *)

Lemma Index_login_phase_evolves w account client :
  run_evolves (session_event client) (status_flag account)
    (Index_login_phase w account client).
Proof.
  unfold Index_login_phase. evolve; try session_side.
  eapply run_evolves_mono; [| |apply Index_loginFlow_evolves]; [done|].
  intros r k [-> Hk]. split; [reflexivity | tauto].
Qed.

Lemma Index_store_phase_evolves w account client :
  run_evolves (session_event client) (status_flag account)
    (Index_store_phase w account client).
Proof. unfold Index_store_phase. unfold_calls. evolve; session_side. Qed.

Lemma Forall_session_flag_lines client o :
  Forall (session_event client) (Index_flag_lines o).
Proof.
  unfold Index_flag_lines.
  repeat (apply Forall_cons; split; [right; by eexists _, _|]). constructor.
Qed.

(** Whatever happens, a check in index.js returns, and its events form a
    segment for the account's user name. *)
Lemma Index_checkAccount_segment w account st :
  ∃ segment st',
    Index.checkAccount w account st = (Ok tt, st')
    ∧ trace st' = trace st ++ segment
    ∧ check_segment session_event (prop (deref (heap st) account) "username") segment.
Proof.
  rewrite Index_checkAccount_phases, Index_login_phase_run.
  pose proof (Index_loginFlow_evolves w account (next_client st) (Index_session w account st))
    as [(n1 & E1 & F1) _ _ _].
  destruct (Index.loginFlow w account _ _) as [[res|e] st1]; cbn [snd] in E1.
  - rewrite Index_store_phase_run.
    set (st2 := match batchCall_answer w _ with Ok _ => _ | Throw _ => _ end).
    assert (E2 : trace st2 = store_history (next_client st) st1)
      by (subst st2; by destruct (batchCall_answer w _)).
    eexists _, _. split; [reflexivity|]. cbn [trace with_trace].
    rewrite E2. unfold store_history. rewrite E1. cbn [trace Index_session].
    rewrite <- !app_assoc. cbn [app]. split; [reflexivity|].
    eexists _, _, _. split; [reflexivity|]. split; [reflexivity|].
    apply Forall_app. split; [exact F1|].
    repeat (apply Forall_cons; split; [by left|]).
    apply Forall_session_flag_lines.
  - rewrite Index_store_phase_run.
    set (st1' := if bool_decide _ then _ else st1).
    assert (E1' : trace st1' = trace st1) by (subst st1'; by case_bool_decide).
    set (st2 := match batchCall_answer w _ with Ok _ => _ | Throw _ => _ end).
    assert (E2 : trace st2 = store_history (next_client st) st1')
      by (subst st2; by destruct (batchCall_answer w _)).
    eexists _, _. split; [reflexivity|]. cbn [trace with_trace].
    rewrite E2. unfold store_history. rewrite E1', E1. cbn [trace Index_session].
    rewrite <- !app_assoc. cbn [app]. split; [reflexivity|].
    eexists _, _, _. split; [reflexivity|]. split; [reflexivity|].
    apply Forall_app. split; [exact F1|].
    repeat (apply Forall_cons; split; [by left|]).
    apply Forall_session_flag_lines.
Qed.

(** ** The phases of [checkAccount] in the draft *)

(** The draft calls [loginFlow] outside any [try]: an error of the login
    ends the check, and nothing after it is run. *)
Lemma Part000_checkAccount_phases w account st :
  Part000.checkAccount w account st =
  match Part000.loginFlow w account (next_client st) (Part000_session w account st) with
  | (Throw e, st1) => (Throw e, st1)
  | (Ok _, st1) =>
      match Part000_store_phase w account (next_client st) st1 with
      | (Throw e, st2) => (Throw e, st2)
      | (Ok _, st2) =>
          (Ok tt, with_trace (trace st2 ++ [Part000_store_line (deref (heap st2) account)]) st2)
      end
  end.
Proof.
  unfold Part000.checkAccount.
  rewrite run_bind, run_get. cbv beta iota.
  rewrite run_bind. unfold logger_info at 1. rewrite run_emit. cbv beta iota.
  rewrite run_bind, run_hex_digits. cbv beta iota zeta.
  do 3 (rewrite run_bind, run_get; cbv beta iota).
  rewrite run_bind, run_get_config. cbv beta iota.
  rewrite run_bind. unfold new_Client at 1. cbv beta iota.
  cbn [trace heap next_ref next_client draws config with_trace with_draws].
  rewrite <- app_assoc. cbn [app].
  fold (Part000_options w account st). fold (Part000_session w account st).
  rewrite run_bind.
  destruct (Part000.loginFlow _ _ _ _) as [[res|e] st1]; [|reflexivity].
  rewrite run_bind. fold (Part000_store_phase w account (next_client st)).
  destruct (Part000_store_phase _ _ _ _) as [[[]|e] st2]; [|reflexivity].
  unfold logger_info. rewrite run_bind, run_get; cbv beta iota. by rewrite run_emit.
Qed.

(** In the draft the flags also depend on the dump: an error of
    [fs.writeFile] is caught like an error of the store request. *)
Lemma Part000_store_phase_run w account client st1 :
  Part000_store_phase w account client st1 =
  (Ok tt,
   match batchCall_answer w (store_history client st1) with
   | Ok response =>
       match writeFile_answer w (dump_history w client st1 response) with
       | Ok _ =>
           with_heap
             (assign (assign (heap st1) account "store" (VBool true))
                account "iap" (VBool (lodash_some (response_items response))))
             (with_trace (dump_history w client st1 response) st1)
       | Throw _ =>
           with_heap
             (assign (assign (heap st1) account "store" (VBool false))
                account "iap" (VBool false))
             (with_trace (dump_history w client st1 response) st1)
       end
   | Throw _ =>
       with_heap
         (assign (assign (heap st1) account "store" (VBool false))
            account "iap" (VBool false))
         (with_trace (store_history client st1) st1)
   end).
Proof.
  unfold Part000_store_phase, try_catch, batchStart, batch, batchCall, writeFile,
    dump_history, store_history.
  rewrite run_bind, run_emit. cbv beta iota.
  rewrite run_bind, run_emit. cbv beta iota.
  rewrite run_bind, run_ask. cbn [trace with_trace].
  rewrite <- !app_assoc. cbn [app].
  destruct (batchCall_answer w _) as [response|e]; [|reflexivity].
  rewrite run_bind, run_ask. cbn [trace with_trace].
  rewrite <- !app_assoc. cbn [app].
  destruct (writeFile_answer w _) as [[]|e]; reflexivity.
Qed.

Lemma Part000_store_phase_evolves w account client :
  run_evolves (draft_event client) (status_flag account)
    (Part000_store_phase w account client).
Proof.
  unfold Part000_store_phase. unfold_calls. evolve.
  all: try (split; [reflexivity | tauto]).
  all: try (left; left; reflexivity).
  right. by eexists.
Qed.

(** Whether it returns or throws, a check of the draft leaves a segment
    for the account's user name. *)
Lemma Part000_checkAccount_segment w account st :
  ∃ segment,
    trace (Part000.checkAccount w account st).2 = trace st ++ segment
    ∧ check_segment draft_event (prop (deref (heap st) account) "username") segment.
Proof.
  rewrite Part000_checkAccount_phases.
  pose proof (Part000_loginFlow_evolves w account (next_client st) (Part000_session w account st))
    as [(n1 & E1 & F1) _ _ _].
  assert (F1' : Forall (draft_event (next_client st)) n1)
    by (eapply Forall_impl; [exact F1 | by left]).
  destruct (Part000.loginFlow w account _ _) as [[res|e] st1]; cbn [snd] in E1.
  - pose proof (Part000_store_phase_evolves w account (next_client st) st1)
      as [(n2 & E2 & F2) _ _ _].
    rewrite Part000_store_phase_run in E2 |- *. cbn [snd] in E2 |- *.
    cbn [trace with_trace]. rewrite E2, E1. cbn [trace Part000_session].
    rewrite <- !app_assoc. cbn [app].
    eexists. split; [reflexivity|].
    eexists _, _, _. split; [reflexivity|]. split; [reflexivity|].
    apply Forall_app. split; [exact F1'|]. apply Forall_app. split; [exact F2|].
    apply Forall_cons. split; [left; right; by eexists _, _ | constructor].
  - cbn [snd]. rewrite E1. cbn [trace Part000_session].
    rewrite <- !app_assoc. cbn [app].
    eexists. split; [reflexivity|].
    eexists _, _, _. split; [reflexivity|]. split; [reflexivity|]. exact F1'.
Qed.

(** ** The pipeline of [Main] *)

Lemma check_segment_not_output allowed username segment :
  (∀ client ev, allowed client ev → ¬ output_write ev) →
  check_segment allowed username segment → Forall (λ ev, ¬ output_write ev) segment.
Proof.
  intros Hallowed (client & options & rest & -> & _ & Hrest).
  apply Forall_cons. split; [by intros (? & ? & ?)|].
  apply Forall_cons. split; [by intros (? & ? & ?)|].
  eapply Forall_impl; [exact Hrest | apply Hallowed].
Qed.

Lemma session_event_not_output client ev : session_event client ev → ¬ output_write ev.
Proof.
  intros [Hc | (level & msg & ->)] (content & encoding & Hev); [|discriminate].
  by subst ev.
Qed.

Lemma draft_event_not_output client ev : draft_event client ev → ¬ output_write ev.
Proof.
  intros [Hs | (content & ->)]; [by eapply session_event_not_output|].
  by intros (? & ? & [=]).
Qed.

Section Checks.
Variable allowed : nat → event → Prop.
Variable check : nat → M unit.
Hypothesis check_leaves_segment : ∀ account st,
  ∃ segment,
    trace (check account st).2 = trace st ++ segment
    ∧ check_segment allowed (prop (deref (heap st) account) "username") segment.
Hypothesis check_keeps_username : ∀ account st r,
  prop (deref (heap (check account st).2) r) "username"
  = prop (deref (heap st) r) "username".

(** Checking the accounts of a list leaves one segment per account
    checked, in the order of the list; all of them when every check
    returns. *)
Lemma check_all_segments (accounts : list nat) (st : state) :
  ∃ segments,
    trace (for_of accounts check st).2 = trace st ++ concat segments
    ∧ Forall2 (λ account segment,
                 check_segment allowed (prop (deref (heap st) account) "username") segment)
              (take (length segments) accounts) segments
    ∧ (∀ st', for_of accounts check st = (Ok tt, st') → length segments = length accounts)
    ∧ ∀ r, prop (deref (heap (for_of accounts check st).2) r) "username"
           = prop (deref (heap st) r) "username".
Proof.
  revert st. induction accounts as [|account accounts IH]; intros st.
  - exists []. cbn. rewrite app_nil_r. by repeat split.
  - cbn [for_of]. rewrite run_bind.
    destruct (check_leaves_segment account st) as (segment & Etrace & Hsegment).
    pose proof (check_keeps_username account st) as Hname.
    destruct (check account st) as [[[]|e] st1]; cbn [snd] in *.
    + destruct (IH st1) as (segments & Etrace' & Hsegments & Hlen & Hname').
      exists (segment :: segments). cbn [concat length take].
      split; [by rewrite Etrace', Etrace, <- app_assoc|].
      split; [|split].
      * constructor; [exact Hsegment|].
        eapply Forall2_impl; [exact Hsegments|]. intros a s. cbn. by rewrite Hname.
      * intros st' Hrun. by rewrite (Hlen st' Hrun).
      * intros r. by rewrite Hname', Hname.
    + exists [segment]. cbn [concat length take]. rewrite app_nil_r.
      split; [exact Etrace|]. split; [|split].
      * by repeat constructor.
      * discriminate.
      * exact Hname.
Qed.
End Checks.

Lemma Index_check_keeps_username w account st r :
  prop (deref (heap (Index.checkAccount w account st).2) r) "username"
  = prop (deref (heap st) r) "username".
Proof.
  pose proof (Index_checkAccount_evolves w account st) as [_ Hframe _ _].
  unfold prop. rewrite Hframe; [done|]. apply not_status_flag. right. not_in_list.
Qed.

Lemma Part000_check_keeps_username w account st r :
  prop (deref (heap (Part000.checkAccount w account st).2) r) "username"
  = prop (deref (heap st) r) "username".
Proof.
  pose proof (Part000_checkAccount_evolves w account st) as [_ Hframe _ _].
  unfold prop. rewrite Hframe; [done|]. apply not_status_flag. right. not_in_list.
Qed.

(** ** Where the two versions differ *)


(** In the draft an error of the login is not caught: [checkAccount]
    throws it on, and the store request is never made. *)
Lemma Part000_checkAccount_login_error w account st e st1 :
  Part000.loginFlow w account (next_client st) (Part000_session w account st)
  = (Throw e, st1) →
  Part000.checkAccount w account st = (Throw e, st1).
Proof. intros H. by rewrite Part000_checkAccount_phases, H. Qed.

(** In the draft a failed dump of the store answer clears the flags even
    though the store request was answered. *)
Lemma Part000_store_dump_error w account client st1 response e :
  batchCall_answer w (store_history client st1) = Ok response →
  writeFile_answer w (dump_history w client st1 response) = Throw e →
  let st2 := (Part000_store_phase w account client st1).2 in
  prop (deref (heap st2) account) "store" = VBool false
  ∧ prop (deref (heap st2) account) "iap" = VBool false.
Proof.
  intros Hcall Hdump st2. subst st2.
  rewrite Part000_store_phase_run, Hcall, Hdump. cbn [snd heap with_heap with_trace].
  by rewrite prop_assign_ne, !prop_assign_eq.
Qed.

(** * Further properties *)

(** ** Loading the configuration *)

Ltac config_failure :=
  cbn [fst snd heap config trace with_trace]; rewrite <- ?app_assoc; cbn [app];
  split; [reflexivity|]; split; [reflexivity|].

Lemma Index_loadConfig_outcome w st :
  loads_config w Index_config_events st (Index.loadConfig w st).
Proof.
  unfold loads_config. cbv zeta.
  unfold Index.loadConfig, existsSync, readFile.
  rewrite run_bind, run_ask.
  destruct (existsSync_answer w _) eqn:Hfound; cbv beta iota; cbn [negb].
  2:{ rewrite run_throw. config_failure. by left. }
  rewrite run_bind, run_ask. cbn [trace with_trace]. rewrite <- app_assoc. cbn [app].
  destruct (readFile_answer w _) as [content|e] eqn:Hread; cbv beta iota.
  2:{ config_failure. right. eauto. }
  rewrite run_bind, run_lift.
  destruct (JSON_parse w content) as [parsed|e] eqn:Hparse; cbv beta iota.
  2:{ config_failure. right. split; [done|]. split; [done|]. right. by exists content. }
  run_prims. split; [reflexivity|]. exists content, parsed.
  rewrite <- ?app_assoc. cbn [app]. by repeat split.
Qed.

Lemma Part000_loadConfig_outcome w st :
  loads_config w Part000_config_events st (Part000.loadConfig w st).
Proof.
  unfold loads_config. cbv zeta.
  unfold Part000.loadConfig, existsSync, readFile.
  rewrite run_bind, run_ask.
  destruct (existsSync_answer w _) eqn:Hfound; cbv beta iota; cbn [negb].
  2:{ rewrite run_throw. config_failure. by left. }
  rewrite run_bind, run_ask. cbn [trace with_trace]. rewrite <- app_assoc. cbn [app].
  destruct (readFile_answer w _) as [content|e] eqn:Hread; cbv beta iota.
  2:{ config_failure. right. eauto. }
  rewrite run_bind, run_lift.
  destruct (JSON_parse w content) as [parsed|e] eqn:Hparse; cbv beta iota.
  2:{ config_failure. right. split; [done|]. split; [done|]. right. by exists content. }
  run_prims. split; [reflexivity|]. exists content, parsed.
  rewrite <- ?app_assoc. cbn [app]. by repeat split.
Qed.

(** X1 (index.js and the draft).  [loadConfig] does all or nothing.  A run
    that returns has found and read [config.json], parsed it, made the
    parsed keys win over the configuration it had, and set up the logger
    with the level of the merged configuration.  A run that throws has
    left the configuration as it was and has not touched the logger; it
    throws the missing-file error after the existence test alone, or else
    the error of the read or of the parser.  No stored object is touched
    either way. *)
Theorem loadConfig_all_or_nothing w st :
  loads_config w Index_config_events st (Index.loadConfig w st)
  ∧ loads_config w Part000_config_events st (Part000.loadConfig w st).
Proof.
  split; [apply Index_loadConfig_outcome | apply Part000_loadConfig_outcome].
Qed.

(** X2 (index.js and the draft).  Without a [config.json] the whole run
    is the existence test and one line of the log at level [error] that
    asks for the file: nothing is read, no client is created, no report is
    written, and the run itself ends normally. *)
Theorem run_without_config w st :
  existsSync_answer w (trace st ++ [EExistsSync "config.json"]) = false →
  let st' := with_trace (trace st ++ [EExistsSync "config.json";
                                      ELog "error" "Please create a config.json config file."])
               st in
  Index.run w st = (Ok tt, st') ∧ Part000.run w st = (Ok tt, st').
Proof.
  intros Hmissing st'. subst st'. split.
  - unfold Index.run, try_catch, Index.Main. rewrite !run_bind.
    unfold Index.loadConfig, existsSync. rewrite run_bind, run_ask, Hmissing.
    cbv beta iota. cbn [negb]. rewrite run_throw. cbv beta iota.
    unfold logger_error. rewrite run_emit. cbn [trace with_trace message].
    by rewrite <- app_assoc.
  - unfold Part000.run, try_catch, Part000.Main. rewrite !run_bind.
    unfold Part000.loadConfig, existsSync. rewrite run_bind, run_ask, Hmissing.
    cbv beta iota. cbn [negb]. rewrite run_throw. cbv beta iota.
    unfold logger_error. rewrite run_emit. cbn [trace with_trace message].
    by rewrite <- app_assoc.
Qed.

(** ** Loading the accounts *)

Lemma allocate_outcome os st :
  (∀ r, r < next_ref st → heap (allocate os st) !! r = heap st !! r)
  ∧ (∀ i o, os !! i = Some o → heap (allocate os st) !! (next_ref st + i) = Some o).
Proof.
  split; [intros r; apply allocate_lookup_old | intros i o; apply allocate_lookup_new].
Qed.

Ltac account_failure :=
  cbn [fst snd heap config trace next_ref with_trace];
  split; [done|]; split; [done|]; split; [done|]; split; [done|].

Lemma Index_loadAccount_outcome w filename st :
  loads_accounts w filename
    (trace st ++ [ELog "info" ("Import accounts from " +:+ filename); EExistsSync filename])
    (Error ("Input file does not exist: " +:+ filename))
    (λ content, csvImport w content (delimiter (config st)))
    st (Index.loadAccount w filename st).
Proof.
  unfold loads_accounts. cbv zeta.
  unfold Index.loadAccount, logger_info, existsSync, readFile.
  rewrite run_bind, run_emit. cbv beta iota.
  rewrite run_bind, run_ask. cbn [trace with_trace]. rewrite <- ?app_assoc. cbn [app].
  destruct (existsSync_answer w _) eqn:Hfound; cbv beta iota; cbn [negb].
  2:{ rewrite run_throw. account_failure. by left. }
  rewrite run_bind, run_ask. cbn [trace with_trace]. rewrite <- ?app_assoc. cbn [app].
  destruct (readFile_answer w _) as [content|e] eqn:Hread; cbv beta iota.
  2:{ account_failure. right. eauto. }
  rewrite run_bind, run_get_config. cbv beta iota. cbn [config with_trace].
  rewrite run_bind, run_lift.
  destruct (csvImport w content _) as [records|e] eqn:Hcsv; cbv beta iota.
  2:{ account_failure. right. split; [done|]. split; [done|]. right. by exists content. }
  rewrite alloc_all_run. cbn [fst snd].
  match goal with
  | |- context [allocate ?os ?s] =>
      destruct (allocate_fields os s) as (Htrace & Hnext & _ & _ & Hconfig);
      destruct (allocate_outcome os s) as [Hold Hnew]
  end.
  cbn [trace heap next_ref config with_trace] in *.
  split; [exact Hconfig|]. split; [exact Hold|].
  exists content, records. by repeat split.
Qed.

Lemma Part000_loadAccount_outcome w filename delimiter st :
  loads_accounts w filename
    (trace st ++ [EExistsSync filename])
    (Error "accounts.csv does not exist.")
    (λ content, Ok (map (λ line, Part000.account_record (js_split line (default "," delimiter)))
                        (split_lines content)))
    st (Part000.loadAccount w filename delimiter st).
Proof.
  unfold loads_accounts. cbv zeta.
  unfold Part000.loadAccount, existsSync, readFile. cbv zeta.
  rewrite run_bind, run_ask.
  destruct (existsSync_answer w _) eqn:Hfound; cbv beta iota; cbn [negb].
  2:{ rewrite run_throw. account_failure. by left. }
  rewrite run_bind, run_ask. cbn [trace with_trace]. rewrite <- ?app_assoc. cbn [app].
  destruct (readFile_answer w _) as [content|e] eqn:Hread; cbv beta iota.
  2:{ account_failure. right. eauto. }
  rewrite Part000_loadAccount_loop. cbn [fst snd app].
  match goal with
  | |- context [allocate ?os ?s] =>
      destruct (allocate_fields os s) as (Htrace & Hnext & _ & _ & Hconfig);
      destruct (allocate_outcome os s) as [Hold Hnew]
  end.
  cbn [trace heap next_ref config with_trace] in *.
  split; [exact Hconfig|]. split; [exact Hold|].
  eexists content, _. rewrite length_map in *.
  split; [done|]. split; [done|]. split; [reflexivity|]. by repeat split.
Qed.

(** X3 (index.js and the draft).  [loadAccount] does all or nothing.  A
    run that returns has found and read the file and created, in order,
    one new object per record -- the records of the CSV parser for the
    configured delimiter in index.js, one record per line in the draft.  A
    run that throws has created no object: the file is missing (index.js
    names the file it looked for, the draft always says [accounts.csv],
    whatever file it was asked to read), the read failed, or, in index.js,
    the parser threw.  The objects that existed are left alone. *)
Theorem loadAccount_all_or_nothing w filename (separator : option string) st :
  loads_accounts w filename
    (trace st ++ [ELog "info" ("Import accounts from " +:+ filename); EExistsSync filename])
    (Error ("Input file does not exist: " +:+ filename))
    (λ content, csvImport w content (delimiter (config st)))
    st (Index.loadAccount w filename st)
  ∧ loads_accounts w filename
      (trace st ++ [EExistsSync filename])
      (Error "accounts.csv does not exist.")
      (λ content, Ok (map (λ line, Part000.account_record (js_split line (default "," separator)))
                          (split_lines content)))
      st (Part000.loadAccount w filename separator st).
Proof.
  split; [apply Index_loadAccount_outcome | apply Part000_loadAccount_outcome].
Qed.

Lemma map_deref_seq (h : gmap nat obj) (n : nat) (records : list obj) :
  (∀ i o, records !! i = Some o → h !! (n + i) = Some o) →
  map (deref h) (seq n (length records)) = records.
Proof.
  revert n. induction records as [|o records IH]; intros n Hnew; [reflexivity|].
  cbn [length seq map]. f_equal.
  - unfold deref. rewrite <- (Nat.add_0_r n). by rewrite (Hnew 0 o).
  - apply IH. intros i o' Hi. replace (S n + i) with (n + S i) by lia. by apply Hnew.
Qed.

(** X4 (index.js).  In a run that starts with the built-in configuration,
    the accounts that [loadAccount] returns after [loadConfig] are the
    records the CSV parser makes of the text read from the input file,
    with the delimiter named in the text read from [config.json] as
    [JSON.parse] reads it -- with a comma when it names none --, unchanged
    and in order. *)
Theorem loaded_delimiter_separates w st s1 filename accounts s2 :
  config st = Index.default_config →
  Index.loadConfig w st = (Ok tt, s1) →
  Index.loadAccount w filename s1 = (Ok accounts, s2) →
  ∃ text parsed content records,
    readFile_answer w (trace st ++ [EExistsSync "config.json"; EReadFile "config.json" "utf8"])
    = Ok text
    ∧ JSON_parse w text = Ok parsed
    ∧ config s1 = defaultsDeep parsed Index.default_config
    ∧ readFile_answer w (trace s1 ++ Index_load_events filename) = Ok content
    ∧ csvImport w content (default (VStr ",") (json_delimiter parsed)) = Ok records
    ∧ map (deref (heap s2)) accounts = records.
Proof.
  intros Hdefault Hconfig Hload.
  pose proof (Index_loadConfig_outcome w st) as Hc. unfold loads_config in Hc.
  rewrite Hconfig in Hc. cbn [fst snd] in Hc.
  destruct Hc as (_ & text & parsed & _ & Htext & Hparsed & Hcfg & _).
  pose proof (Index_loadAccount_outcome w filename s1) as Ha. unfold loads_accounts in Ha.
  rewrite Hload in Ha. cbn [fst snd] in Ha.
  destruct Ha as (_ & _ & content & records & _ & Hread & Hcsv & _ & -> & _ & Hnew).
  exists text, parsed, content, records. rewrite Hdefault in Hcfg.
  rewrite <- !app_assoc in Htext, Hread. cbn [app] in Htext, Hread.
  split; [exact Htext|]. split; [exact Hparsed|]. split; [exact Hcfg|].
  split; [exact Hread|]. split; [by rewrite Hcfg in Hcsv|].
  by apply map_deref_seq.
Qed.

(** ** Lines and cells of the input file *)

Lemma join_with_cons sep piece rest :
  rest ≠ [] → join_with sep (piece :: rest) = piece +:+ sep +:+ join_with sep rest.
Proof. by destruct rest. Qed.

Lemma join_with_push_char sep c pieces :
  pieces ≠ [] → join_with sep (push_char c pieces) = String c (join_with sep pieces).
Proof.
  intros Hne. destruct pieces as [|piece rest]; [done|]. cbn [push_char].
  destruct rest as [|piece' rest]; [reflexivity|].
  rewrite !join_with_cons by done. by rewrite append_cons.
Qed.

Lemma push_char_not_nil c pieces : push_char c pieces ≠ [].
Proof. by destruct pieces. Qed.

Lemma count_char_cons_zero x c rest :
  count_char x (String c rest) = 0 → c ≠ x ∧ count_char x rest = 0.
Proof. cbn [count_char]. case_bool_decide; [lia | by split; [|lia]]. Qed.

Lemma length_append (a b : string) :
  String.length (a +:+ b) = String.length a + String.length b.
Proof.
  induction a as [|c a IH]; [reflexivity|].
  rewrite append_cons. cbn [String.length]. by rewrite IH.
Qed.

Lemma split_lines_LF rest : split_lines (String "010" rest) = EmptyString :: split_lines rest.
Proof. reflexivity. Qed.

Lemma split_lines_other c rest :
  c ≠ "010"%char → c ≠ "013"%char →
  split_lines (String c rest) = push_char c (split_lines rest).
Proof. intros Hlf Hcr. cbn [split_lines]. by rewrite !bool_decide_false by done. Qed.

Lemma split_lines_CR_LF rest :
  split_lines (String "013" (String "010" rest)) = split_lines (String "010" rest).
Proof. by destruct rest. Qed.

Lemma split_lines_not_nil content : split_lines content ≠ [].
Proof.
  pose proof (split_lines_length content) as H. intros E. by rewrite E in H.
Qed.

(** Without carriage returns, the line feeds are all that [split] takes
    away. *)
Lemma split_lines_join_LF (content : string) :
  count_char "013"%char content = 0 →
  join_with LF (split_lines content) = content.
Proof.
  induction content as [|c rest IH]; [reflexivity|].
  intros [Hc Hcr]%count_char_cons_zero.
  destruct (decide (c = "010"%char)) as [->|Hlf].
  - rewrite split_lines_LF, join_with_cons by apply split_lines_not_nil.
    by rewrite IH.
  - rewrite split_lines_other by done.
    rewrite join_with_push_char by apply split_lines_not_nil.
    by rewrite IH.
Qed.

Lemma split_lines_line (a : string) :
  count_char "010"%char a = 0 → count_char "013"%char a = 0 → split_lines a = [a].
Proof.
  induction a as [|c a IH]; [reflexivity|].
  intros [Hc Hlf]%count_char_cons_zero [Hc' Hcr]%count_char_cons_zero.
  rewrite split_lines_other by done. by rewrite IH.
Qed.

Lemma split_lines_append_LF (a b : string) :
  count_char "010"%char a = 0 → count_char "013"%char a = 0 →
  split_lines (a +:+ LF +:+ b) = a :: split_lines b.
Proof.
  induction a as [|c a IH]; [reflexivity|].
  intros [Hc Hlf]%count_char_cons_zero [Hc' Hcr]%count_char_cons_zero.
  rewrite append_cons, split_lines_other by done. by rewrite IH.
Qed.

Lemma split_lines_join_lines (lines : list string) :
  lines ≠ [] →
  Forall (λ line, count_char "010"%char line = 0 ∧ count_char "013"%char line = 0) lines →
  split_lines (join_with LF lines) = lines.
Proof.
  intros Hne Hlines. induction Hlines as [|line lines [Hlf Hcr] Hlines IH]; [done|].
  destruct lines as [|line' lines].
  - by apply split_lines_line.
  - rewrite join_with_cons by done. rewrite split_lines_append_LF by done.
    by rewrite IH.
Qed.

Lemma split_lines_CRLF (a b : string) :
  count_char "013"%char a = 0 →
  split_lines (a +:+ CR +:+ LF +:+ b) = split_lines (a +:+ LF +:+ b).
Proof.
  induction a as [|c a IH]; [intros _; apply split_lines_CR_LF|].
  intros [Hc Hcr]%count_char_cons_zero. rewrite !append_cons.
  destruct (decide (c = "010"%char)) as [->|Hlf].
  - by rewrite !split_lines_LF, IH.
  - by rewrite !split_lines_other, IH.
Qed.

(** X5 (the draft, [content.split(/\r?\n/)]).  Splitting into lines and
    joining with line feeds are inverse to each other: a content without
    carriage returns is the join of its lines, and lines without line
    terminators are the lines of their join.  A line that ends in a
    carriage return and a line feed reads as the same line ending in a
    line feed alone. *)
Theorem split_lines_round_trip (content a b : string) (lines : list string) :
  (count_char "013" content = 0 → join_with LF (split_lines content) = content)
  ∧ (lines ≠ [] →
     Forall (λ line, count_char "010" line = 0 ∧ count_char "013" line = 0) lines →
     split_lines (join_with LF lines) = lines)
  ∧ (count_char "013" a = 0 →
     split_lines (a +:+ CR +:+ LF +:+ b) = split_lines (a +:+ LF +:+ b)).
Proof.
  split; [apply split_lines_join_LF|].
  split; [apply split_lines_join_lines | apply split_lines_CRLF].
Qed.

Lemma prefix_empty s : String.prefix EmptyString s = true.
Proof. by destruct s. Qed.

Lemma prefix_split d s : String.prefix d s = true → ∃ s', s = d +:+ s'.
Proof.
  revert s. induction d as [|c d IH]; intros s H.
  - by exists s.
  - destruct s as [|c' s]; [done|]. cbn [String.prefix] in H.
    destruct (ascii_dec c c') as [->|]; [|done].
    destruct (IH s H) as [s' ->]. by exists s'.
Qed.

(** Skipping the rest of a separator occurrence. *)
Lemma split_on_skip d pre s :
  split_on d (pre +:+ s) (String.length pre) = split_on d s 0.
Proof.
  induction pre as [|c pre IH]; [reflexivity|].
  rewrite append_cons. cbn [String.length split_on]. exact IH.
Qed.

Lemma split_on_not_nil d s k : split_on d s k ≠ [].
Proof.
  revert k. induction s as [|c s IH]; intros k; [done|].
  cbn [split_on]. destruct k as [|k]; [|apply IH].
  destruct (String.prefix d (String c s)); [done | apply push_char_not_nil].
Qed.

Lemma split_on_join d n s :
  d ≠ EmptyString → String.length s ≤ n → join_with d (split_on d s 0) = s.
Proof.
  intros Hd. revert s. induction n as [|n IH]; intros s Hn.
  - destruct s; [reflexivity | cbn in Hn; lia].
  - destruct s as [|c s]; [reflexivity|].
    cbn [split_on]. destruct (String.prefix d (String c s)) eqn:Hp.
    + apply prefix_split in Hp as [s' Hs'].
      destruct d as [|c' d]; [done|]. rewrite append_cons in Hs'.
      injection Hs' as -> ->.
      replace (String.length (String c' d) - 1) with (String.length d)
        by (cbn [String.length]; lia).
      rewrite split_on_skip.
      rewrite join_with_cons by apply split_on_not_nil.
      rewrite IH; [reflexivity|].
      cbn [String.length] in Hn. rewrite length_append in Hn. lia.
    + rewrite join_with_push_char by apply split_on_not_nil.
      rewrite IH; [reflexivity|]. cbn [String.length] in Hn. lia.
Qed.

Lemma join_with_letters s :
  join_with EmptyString (map (λ c, String c EmptyString) (list_ascii_of_string s)) = s.
Proof.
  induction s as [|c s IH]; [reflexivity|].
  cbn [list_ascii_of_string map]. destruct s as [|c' s]; [reflexivity|].
  rewrite join_with_cons by done. by rewrite IH.
Qed.

(** The cells of a line, joined by the separator, give the line back. *)
Lemma js_split_join (s d : string) : join_with d (js_split s d) = s.
Proof.
  unfold js_split. case_bool_decide as Hd.
  - subst d. apply join_with_letters.
  - by apply (split_on_join d (String.length s)).
Qed.

Lemma js_split_nil (s d : string) : js_split s d = [] ↔ s = EmptyString ∧ d = EmptyString.
Proof.
  unfold js_split. case_bool_decide as Hd.
  - destruct s; cbn; split; try done. by intros [? _].
  - split; [intros H; by apply split_on_not_nil in H | by intros [_ ?]].
Qed.

(** A separator of one character: one cell more than there are
    separators. *)
Lemma split_on_char_length c s :
  length (split_on (String c EmptyString) s 0) = S (count_char c s).
Proof.
  induction s as [|c' s IH]; [reflexivity|].
  cbn [split_on String.prefix count_char String.length Nat.sub].
  destruct (ascii_dec c c') as [->|Hne].
  - rewrite prefix_empty, bool_decide_true by done. cbn [length]. by rewrite IH.
  - rewrite bool_decide_false by done.
    rewrite push_char_length by apply split_on_not_nil. by rewrite IH.
Qed.

Lemma split_on_char_cell c (a b : string) :
  count_char c a = 0 →
  split_on (String c EmptyString) (a +:+ String c b) 0
  = a :: split_on (String c EmptyString) b 0.
Proof.
  induction a as [|c' a IH].
  - intros _. rewrite append_empty_l. cbn [split_on String.prefix String.length Nat.sub].
    destruct (ascii_dec c c); [|done]. by rewrite prefix_empty.
  - intros [Hc Ha]%count_char_cons_zero. rewrite append_cons.
    cbn [split_on String.prefix]. destruct (ascii_dec c c') as [->|_]; [done|].
    by rewrite IH.
Qed.

Lemma split_on_char_last c (a : string) :
  count_char c a = 0 → split_on (String c EmptyString) a 0 = [a].
Proof.
  induction a as [|c' a IH]; [reflexivity|].
  intros [Hc Ha]%count_char_cons_zero.
  cbn [split_on String.prefix]. destruct (ascii_dec c c') as [->|_]; [done|].
  by rewrite IH.
Qed.

Lemma js_split_comma_length (s : string) :
  length (js_split s ",") = S (count_char "," s).
Proof. unfold js_split. rewrite bool_decide_false by done. apply split_on_char_length. Qed.

Lemma js_split_row (cells : list string) :
  cells ≠ [] → Forall (λ s, count_char "," s = 0) cells →
  js_split (join_with "," cells) "," = cells.
Proof.
  intros Hne Hcells. unfold js_split. rewrite bool_decide_false by done.
  induction Hcells as [|a cells Ha Hcells IH]; [done|].
  destruct cells as [|b cells].
  - by apply split_on_char_last.
  - rewrite join_with_cons by done.
    change ("," +:+ ?x) with (String "," x).
    rewrite split_on_char_cell by done. by rewrite IH.
Qed.

(** X6 (the draft, [line.split(delimiter)]).  Splitting a line into cells
    loses nothing: the cells joined by the separator give the line back,
    whatever the separator.  Only the empty line split on the empty
    separator has no cell at all.  Cells without a comma are the cells of
    their join by commas. *)
Theorem js_split_round_trip (s d : string) (cells : list string) :
  join_with d (js_split s d) = s
  ∧ (js_split s d = [] ↔ s = EmptyString ∧ d = EmptyString)
  ∧ (cells ≠ [] → Forall (λ cell, count_char "," cell = 0) cells →
     js_split (join_with "," cells) "," = cells).
Proof.
  split; [apply js_split_join|]. split; [apply js_split_nil | apply js_split_row].
Qed.

(** ** The accounts of a file *)

Lemma last_push_char c (pieces : list string) :
  2 ≤ length pieces → last (push_char c pieces) = last pieces.
Proof.
  destruct pieces as [|piece [|piece' rest]]; cbn [length]; try lia. done.
Qed.

(** After a final line feed comes a last, empty line. *)
Lemma split_lines_trailing (body : string) :
  last (split_lines (body +:+ LF)) = Some EmptyString.
Proof.
  induction body as [|c body IH]; [reflexivity|].
  rewrite append_cons.
  assert (Hlen : 2 ≤ length (split_lines (body +:+ LF))).
  { rewrite split_lines_length, count_char_app.
    change (count_char "010"%char LF) with 1. lia. }
  cbn [split_lines]. case_bool_decide.
  - destruct (split_lines (body +:+ LF)) as [|p ps] eqn:E; [cbn in Hlen; lia|].
    exact IH.
  - destruct (bool_decide (c = "013"%char) && String.prefix LF (body +:+ LF)); [exact IH|].
    by rewrite last_push_char.
Qed.

(** The run of the draft's [loadAccount] on a file that exists and can be
    read. *)
Lemma Part000_loadAccount_reads w filename delimiter st content :
  existsSync_answer w (trace st ++ [EExistsSync filename]) = true →
  readFile_answer w (trace st ++ [EExistsSync filename; EReadFile filename "utf8"])
    = Ok content →
  let records := map (λ line, Part000.account_record (js_split line (default "," delimiter)))
                     (split_lines content) in
  ∃ st',
    Part000.loadAccount w filename delimiter st
    = (Ok (seq (next_ref st) (length records)), st')
    ∧ map (deref (heap st')) (seq (next_ref st) (length records)) = records.
Proof.
  intros Hfound Hread records.
  pose proof (Part000_loadAccount_outcome w filename delimiter st) as Hout.
  unfold loads_accounts in Hout. cbv zeta in Hout.
  rewrite <- app_assoc in Hout. cbn [app] in Hout.
  destruct (Part000.loadAccount w filename delimiter st) as [[accounts|e] st'];
    cbn [fst snd] in Hout.
  - destruct Hout as (_ & _ & content' & records' & _ & Hread' & [= <-] & _ & -> & _ & Hnew).
    rewrite Hread in Hread'. injection Hread' as <-.
    exists st'. split; [reflexivity|]. by apply map_deref_seq.
  - destruct Hout as (_ & _ & _ & _ & [(Hf & _) | (_ & _ & [Hr | (c & _ & [=])])]).
    + by rewrite Hfound in Hf.
    + by rewrite Hread in Hr.
Qed.

(** X7 (the draft).  A file that ends with a line feed gives one account
    more than it has lines of credentials: the last record comes from the
    empty line after the final line feed, and has the empty string as
    [type] and no [username] and no [password]. *)
Theorem loadAccount_trailing_line w filename (separator : option string) st body :
  existsSync_answer w (trace st ++ [EExistsSync filename]) = true →
  readFile_answer w (trace st ++ [EExistsSync filename; EReadFile filename "utf8"])
    = Ok (body +:+ LF) →
  default "," separator ≠ EmptyString →
  ∃ accounts st' r,
    Part000.loadAccount w filename separator st = (Ok accounts, st')
    ∧ length accounts = 2 + count_char "010"%char body
    ∧ last accounts = Some r
    ∧ prop (deref (heap st') r) "type" = VStr EmptyString
    ∧ prop (deref (heap st') r) "username" = VUndefined
    ∧ prop (deref (heap st') r) "password" = VUndefined.
Proof.
  intros Hfound Hread Hd.
  destruct (Part000_loadAccount_reads w filename separator st _ Hfound Hread)
    as (st' & Hrun & Hrecords).
  cbv zeta in Hrun, Hrecords. rewrite length_map in Hrun, Hrecords.
  assert (Hlen : length (split_lines (body +:+ LF)) = 2 + count_char "010"%char body).
  { rewrite split_lines_length, count_char_app.
    change (count_char "010"%char LF) with 1. lia. }
  pose proof (split_lines_trailing body) as Hlast.
  assert (Hrecord : last (map (deref (heap st'))
                            (seq (next_ref st) (length (split_lines (body +:+ LF)))))
                    = Some (Part000.account_record [EmptyString])).
  { rewrite Hrecords, last_lookup, length_map, list_lookup_fmap.
    rewrite <- last_lookup, Hlast. cbn [fmap option_fmap option_map].
    unfold js_split. by rewrite bool_decide_false. }
  rewrite last_lookup, length_map, list_lookup_fmap in Hrecord.
  rewrite <- last_lookup in Hrecord.
  destruct (last (seq _ _)) as [r|] eqn:Hr; [|discriminate Hrecord].
  injection Hrecord as Hrecord.
  exists (seq (next_ref st) (length (split_lines (body +:+ LF)))), st', r.
  split; [exact Hrun|]. split; [by rewrite length_seq|]. split; [exact Hr|].
  rewrite Hrecord. by repeat split.
Qed.

Lemma credentials_record d (line : string) :
  length (js_split line d) = 3 →
  credentials d (Part000.account_record (js_split line d)) = line.
Proof.
  intros Hcells. rewrite <- (js_split_join line d) at 2.
  destruct (js_split line d) as [|a [|b [|c [|? ?]]]]; try discriminate Hcells.
  reflexivity.
Qed.

(** X8 (the draft).  The input file is recovered from the records: when
    the content has no carriage return and every line has exactly three
    cells, writing [type], [username] and [password] of each account
    joined by the separator, one account per line, gives the content
    back. *)
Theorem loadAccount_round_trip w filename (separator : option string) st content :
  let d := default "," separator in
  existsSync_answer w (trace st ++ [EExistsSync filename]) = true →
  readFile_answer w (trace st ++ [EExistsSync filename; EReadFile filename "utf8"])
    = Ok content →
  count_char "013"%char content = 0 →
  Forall (λ line, length (js_split line d) = 3) (split_lines content) →
  ∃ accounts st',
    Part000.loadAccount w filename separator st = (Ok accounts, st')
    ∧ join_with LF (map (λ r, credentials d (deref (heap st') r)) accounts) = content.
Proof.
  intros d Hfound Hread Hcr Hcells. subst d.
  destruct (Part000_loadAccount_reads w filename separator st _ Hfound Hread)
    as (st' & Hrun & Hrecords).
  cbv zeta in Hrun, Hrecords.
  eexists _, st'. split; [exact Hrun|].
  rewrite <- (map_map (deref (heap st')) (credentials (default "," separator))).
  rewrite Hrecords, map_map.
  rewrite <- (split_lines_join_LF content Hcr) at 2. f_equal.
  clear Hrun Hrecords Hread Hcr.
  induction Hcells as [|line lines Hline _ IH]; [reflexivity|].
  cbn [map]. by rewrite credentials_record, IH.
Qed.

(** ** The position of a login *)

Lemma evolves_trace_from {A} (m : M A) (st : state) :
  run_evolves any_event (λ _ _, True) m → ∃ rest, trace (m st).2 = trace st ++ rest.
Proof. intros H. destruct (H st) as [(rest & E & _) _ _ _]. by exists rest. Qed.

Lemma Index_loginFlow_starts w account client st lat lon :
  Index_latitude account st = Ok lat →
  Index_longitude account st = Ok lon →
  ∃ rest, trace (Index.loginFlow w account client st).2
          = trace st ++ login_start client lat lon 0 100 st ++ rest.
Proof.
  intros Hlat Hlon. unfold Index.loginFlow. unfold_calls.
  rewrite run_bind, run_get. cbv beta iota.
  rewrite run_bind, run_Index_latitude, Hlat. cbv beta iota.
  rewrite run_bind, run_get. cbv beta iota.
  rewrite run_bind, run_Index_longitude, Hlon. cbv beta iota.
  rewrite run_bind. unfold Math_random at 1. cbv beta iota.
  rewrite run_bind, run_emit. cbv beta iota.
  rewrite run_bind, run_ask. cbn [trace with_trace with_draws].
  rewrite <- app_assoc. cbn [app]. unfold login_start.
  destruct (init_answer w _) as [[]|e]; cbv beta iota.
  - match goal with
    | |- context [trace (?rest ?stx).2] =>
        destruct (evolves_trace_from rest stx) as [new E]; [evolve; exact I|]
    end.
    rewrite E. cbn [trace with_trace with_draws]. exists new.
    by rewrite <- app_assoc.
  - exists []. cbn [snd trace with_trace with_draws]. reflexivity.
Qed.

Lemma Part000_loginFlow_starts w account client st lat lon :
  Part000_latitude st = Ok lat →
  Part000_longitude st = Ok lon →
  ∃ rest, trace (Part000.loginFlow w account client st).2
          = trace st ++ login_start client lat lon (-10) 20 st ++ rest.
Proof.
  intros Hlat Hlon. unfold Part000.loginFlow. unfold_calls.
  rewrite run_bind, run_config_position_latitude, Hlat. cbv beta iota.
  rewrite run_bind, run_config_position_longitude, Hlon. cbv beta iota.
  rewrite run_bind. unfold Math_random at 1. cbv beta iota.
  rewrite run_bind, run_emit. cbv beta iota.
  rewrite run_bind, run_ask. cbn [trace with_trace with_draws].
  rewrite <- app_assoc. cbn [app]. unfold login_start.
  destruct (init_answer w _) as [[]|e]; cbv beta iota.
  - match goal with
    | |- context [trace (?rest ?stx).2] =>
        destruct (evolves_trace_from rest stx) as [new E]; [evolve; exact I|]
    end.
    rewrite E. cbn [trace with_trace with_draws]. exists new.
    by rewrite <- app_assoc.
  - exists []. cbn [snd trace with_trace with_draws]. reflexivity.
Qed.

(** X9 (index.js and the draft).  Where the position of a login comes
    from.  In index.js an account that brings its own latitude and
    longitude is placed there, whatever the configuration says, and an
    account that brings neither is placed at the configured position; the
    draft always uses the configured position.  The altitude is a random
    float between 0 and 100 in index.js, between -10 and 20 in the draft,
    and [init(false)] is the next call. *)
Theorem loginFlow_position w account client st :
  let o := deref (heap st) account in
  (truthy (prop o "latitude") = true → truthy (prop o "longitude") = true →
   ∃ rest, trace (Index.loginFlow w account client st).2
           = trace st ++ login_start client (prop o "latitude") (prop o "longitude") 0 100 st
             ++ rest)
  ∧ (∀ p, config_position (config st) = Some p →
       (truthy (prop o "latitude") = false → truthy (prop o "longitude") = false →
        ∃ rest, trace (Index.loginFlow w account client st).2
                = trace st ++ login_start client (latitude p) (longitude p) 0 100 st ++ rest)
       ∧ ∃ rest, trace (Part000.loginFlow w account client st).2
                 = trace st ++ login_start client (latitude p) (longitude p) (-10) 20 st
                   ++ rest).
Proof.
  intros o. subst o. split.
  - intros Hlat Hlon. apply Index_loginFlow_starts.
    + unfold Index_latitude. cbv zeta. by rewrite Hlat.
    + unfold Index_longitude. cbv zeta. by rewrite Hlon.
  - intros p Hp. split.
    + intros Hlat Hlon. apply Index_loginFlow_starts.
      * unfold Index_latitude. cbv zeta. by rewrite Hlat, Hp.
      * unfold Index_longitude. cbv zeta. by rewrite Hlon, Hp.
    + apply Part000_loginFlow_starts.
      * unfold Part000_latitude. by rewrite Hp.
      * unfold Part000_longitude. by rewrite Hp.
Qed.

(** X10 (index.js).  A download-config answer without the inventory
    message, or without the settings message, makes the login throw as
    soon as the answer is read: the player-profile and the
    [levelUpRewards] batches are never sent, while [warn] and [banned] of
    the account already hold what the [getPlayer] batch answered. *)
Theorem loginFlow_incomplete_answer w account client st0 lat lon player answers :
  let t1 := trace st0 ++ login_start client lat lon 0 100 st0 in
  let t2 := t1 ++ empty_batch client in
  let t3 := t2 ++ player_batch client (config st0) in
  let t4 := t3 ++ config_batch client (config st0) in
  Index_latitude account st0 = Ok lat →
  Index_longitude account st0 = Ok lon →
  init_answer w t1 = Ok tt →
  (∃ r, batchCall_answer w t2 = Ok r) →
  batchCall_answer w t3 = Ok player →
  batchCall_answer w t4 = Ok answers →
  incomplete answers →
  ∃ e st1,
    Index.loginFlow w account client st0 = (Throw e, st1)
    ∧ trace st1 = t4
    ∧ heap st1 = assign (assign (heap st0) account "warn" (response_warn player))
                   account "banned" (response_banned player).
Proof.
  intros t1 t2 t3 t4 Hlat Hlon Hinit [r2 H2] H3 H4 Hinc. subst t1 t2 t3 t4.
  unfold login_start, empty_batch, player_batch, config_batch in *.
  rewrite <- ?app_assoc in *. cbn [app] in *.
  unfold Index.loginFlow. unfold_calls.
  rewrite run_bind, run_get. cbv beta iota.
  rewrite run_bind, run_Index_latitude, Hlat. cbv beta iota.
  rewrite run_bind, run_get. cbv beta iota.
  rewrite run_bind, run_Index_longitude, Hlon. cbv beta iota.
  rewrite run_bind. unfold Math_random at 1. cbv beta iota.
  rewrite run_bind, run_emit. cbv beta iota.
  rewrite run_bind, run_ask. cbn [trace with_trace with_draws].
  rewrite <- ?app_assoc. cbn [app]. rewrite Hinit. cbv beta iota.
  rewrite run_bind, run_emit. cbv beta iota.
  rewrite run_bind, run_ask. cbn [trace with_trace with_draws].
  rewrite <- ?app_assoc. cbn [app]. rewrite H2. cbv beta iota.
  rewrite run_bind, run_emit. cbv beta iota.
  rewrite run_bind, run_get_config. cbv beta iota.
  rewrite run_bind, run_emit. cbv beta iota.
  rewrite run_bind, run_ask. cbn [trace config with_trace with_draws].
  rewrite <- ?app_assoc. cbn [app]. rewrite H3. cbv beta iota.
  rewrite run_bind, run_set. cbv beta iota.
  rewrite run_bind, run_set. cbv beta iota.
  rewrite run_bind, run_emit. cbv beta iota.
  rewrite run_bind, run_get_config. cbv beta iota.
  do 6 (rewrite run_bind, run_emit; cbv beta iota).
  rewrite run_bind, run_ask. cbn [trace heap config with_trace with_heap with_draws].
  rewrite <- ?app_assoc. cbn [app]. rewrite H4. cbv beta iota zeta.
  rewrite run_bind, run_lift.
  destruct (splitInventory_player_level w _) as [level|e]; cbv beta iota;
    [|by eexists _, _].
  rewrite run_bind, run_lift.
  destruct (inventory_timestamp _) as [ts|e] eqn:Hts; cbv beta iota; [|by eexists _, _].
  rewrite run_bind, run_lift.
  destruct (settings_hash _) as [hash|e] eqn:Hhash; cbv beta iota; [|by eexists _, _].
  exfalso. destruct Hinc as [Hnone | Hnone]; rewrite Hnone in *; discriminate.
Qed.

Lemma Part000_loginFlow_no_position w account client st :
  config_position (config st) = None →
  Part000.loginFlow w account client st = (Throw no_position, st).
Proof.
  intros Hnone. unfold Part000.loginFlow.
  rewrite run_bind, run_config_position_latitude. unfold Part000_latitude.
  by rewrite Hnone.
Qed.

Lemma Index_loginFlow_no_position w account client st :
  config_position (config st) = None →
  truthy (prop (deref (heap st) account) "latitude") = false →
  Index.loginFlow w account client st = (Throw no_position, st).
Proof.
  intros Hnone Hlat. unfold Index.loginFlow.
  rewrite run_bind, run_get. cbv beta iota.
  rewrite run_bind, run_Index_latitude. unfold Index_latitude. cbv zeta.
  by rewrite Hlat, Hnone.
Qed.

(** ** One check, event by event *)

Lemma flags_decided_assign (h : gmap nat obj) (account : nat) (store iap : bool) :
  (iap = true → store = true) →
  flags_decided
    (deref (assign (assign h account "store" (VBool store)) account "iap" (VBool iap)) account).
Proof.
  intros H. exists store, iap.
  by rewrite prop_assign_ne, !prop_assign_eq.
Qed.

Lemma Index_store_phase_outcome w account client st1 :
  ∃ (store iap : bool) st2,
    Index_store_phase w account client st1 = (Ok tt, st2)
    ∧ trace st2 = store_history client st1
    ∧ heap st2 = assign (assign (heap st1) account "store" (VBool store))
                   account "iap" (VBool iap)
    ∧ (iap = true → store = true).
Proof.
  rewrite Index_store_phase_run.
  destruct (batchCall_answer w _) as [response|e].
  - exists true, (lodash_some (response_items response)). eexists. by repeat split.
  - exists false, false. eexists. by repeat split.
Qed.

Lemma Part000_store_phase_outcome w account client st1 :
  ∃ (store iap : bool) st2,
    Part000_store_phase w account client st1 = (Ok tt, st2)
    ∧ heap st2 = assign (assign (heap st1) account "store" (VBool store))
                   account "iap" (VBool iap)
    ∧ (iap = true → store = true).
Proof.
  rewrite Part000_store_phase_run.
  destruct (batchCall_answer w _) as [response|e].
  - destruct (writeFile_answer w _) as [[]|e].
    + exists true, (lodash_some (response_items response)). eexists. by repeat split.
    + exists false, false. eexists. by repeat split.
  - exists false, false. eexists. by repeat split.
Qed.

Lemma Part000_store_phase_trace w account client st1 :
  trace (Part000_store_phase w account client st1).2
  = trace st1 ++ store_request client
    ++ store_dump w (batchCall_answer w (store_history client st1)).
Proof.
  rewrite Part000_store_phase_run. cbn [snd]. unfold store_dump, dump_history, store_history.
  destruct (batchCall_answer w _) as [response|e].
  - destruct (writeFile_answer w _) as [[]|e]; cbn [trace with_heap with_trace];
      by rewrite <- app_assoc.
  - cbn [trace with_heap with_trace]. by rewrite app_nil_r.
Qed.

(** Batch calls are counted by the name of the method. *)
Lemma batch_calls_names (t : list event) :
  batch_calls t = length (List.filter is_batchCall_name (call_names t)).
Proof.
  unfold batch_calls, call_names. induction t as [|ev t IH]; [reflexivity|].
  destruct ev as [| | | | | | | | | | |c r|]; cbn [omap list_omap call_name List.filter is_batch_call];
    try exact IH.
  - destruct r; cbn; exact IH.
  - cbn. by rewrite IH.
Qed.

Lemma batch_calls_prefix (t : list event) (script : list string) :
  call_names t `prefix_of` script →
  batch_calls t ≤ length (List.filter is_batchCall_name script).
Proof.
  intros [k ->]. rewrite batch_calls_names, List.filter_app, length_app. lia.
Qed.

Lemma login_script_batch_calls :
  length (List.filter is_batchCall_name login_script) = 5.
Proof. vm_compute. reflexivity. Qed.

Lemma batch_calls_store_request client : batch_calls (store_request client) = 1.
Proof. reflexivity. Qed.

(** A login adds calls on its client and log lines that form a first part
    of the script. *)
Lemma loginFlow_outcome {A} (m : M A) client account st0 :
  run_evolves (session_event client) (login_flag account) m →
  plays login_script m →
  ∃ new,
    trace (m st0).2 = trace st0 ++ new
    ∧ Forall (session_event client) new
    ∧ call_names new `prefix_of` login_script.
Proof.
  intros Hev Hplays.
  destruct (Hev st0) as [(new & E & F) _ _ _].
  destruct (Hplays st0) as (new' & E' & P).
  assert (new' = new) as -> by (rewrite E in E'; by apply app_inv_head in E').
  exists new. split; [exact E|]. split; [exact F|].
  destruct (m st0).1; [by rewrite P | exact P].
Qed.

Lemma Index_session_trace w account st :
  trace (Index_session w account st) = trace st ++ opening account (Index_options w account st) st.
Proof. reflexivity. Qed.

Lemma Part000_session_trace w account st :
  trace (Part000_session w account st)
  = trace st ++ opening account (Part000_options w account st) st.
Proof. reflexivity. Qed.

(** The run of one check in index.js. *)
Lemma Index_checkAccount_outcome w account st :
  ∃ login st',
    Index.checkAccount w account st = (Ok tt, st')
    ∧ trace st' = trace (Index_session w account st) ++ login
                  ++ store_request (next_client st)
                  ++ Index_flag_lines (deref (heap st') account)
    ∧ Forall (session_event (next_client st)) login
    ∧ call_names login `prefix_of` login_script
    ∧ config st' = config st
    ∧ flags_decided (deref (heap st') account)
    ∧ ∀ r k, r ≠ account → prop (deref (heap st') r) k = prop (deref (heap st) r) k.
Proof.
  pose proof (Index_checkAccount_evolves w account st) as [_ Hframe _ Hconfig].
  revert Hframe Hconfig.
  rewrite Index_checkAccount_phases, Index_login_phase_run.
  destruct (loginFlow_outcome (Index.loginFlow w account (next_client st)) (next_client st)
              account (Index_session w account st) (Index_loginFlow_evolves _ _ _)
              (Index_loginFlow_plays _ _ _)) as (login & E1 & F1 & P1).
  destruct (Index.loginFlow w account _ _) as [[res|e] st1]; cbn [snd] in E1.
  - destruct (Index_store_phase_outcome w account (next_client st) st1)
      as (store & iap & st2 & -> & E2 & H2 & Himp).
    cbn [snd heap config with_trace]. intros Hframe Hconfig.
    exists login. eexists. split; [reflexivity|]. cbn [trace heap config with_trace].
    split; [|split; [exact F1|split; [exact P1|split; [exact Hconfig|split]]]].
    + rewrite E2. unfold store_history, store_request. rewrite E1, <- !app_assoc. reflexivity.
    + rewrite H2. by apply flags_decided_assign.
    + intros r k Hr. unfold prop. rewrite Hframe; [done|]. by intros [? _].
  - set (st1' := if bool_decide _ then _ else st1).
    assert (E1' : trace st1' = trace st1) by (subst st1'; by case_bool_decide).
    destruct (Index_store_phase_outcome w account (next_client st) st1')
      as (store & iap & st2 & -> & E2 & H2 & Himp).
    cbn [snd heap config with_trace]. intros Hframe Hconfig.
    exists login. eexists. split; [reflexivity|]. cbn [trace heap config with_trace].
    split; [|split; [exact F1|split; [exact P1|split; [exact Hconfig|split]]]].
    + rewrite E2. unfold store_history, store_request. rewrite E1', E1, <- !app_assoc.
      reflexivity.
    + rewrite H2. by apply flags_decided_assign.
    + intros r k Hr. unfold prop. rewrite Hframe; [done|]. by intros [? _].
Qed.

(** The run of one check in the draft. *)
Lemma Part000_checkAccount_outcome w account st :
  let run := Part000.checkAccount w account st in
  let client := next_client st in
  ∃ login,
    Forall (session_event client) login
    ∧ call_names login `prefix_of` login_script
    ∧ config run.2 = config st
    ∧ (∀ r k, r ≠ account → prop (deref (heap run.2) r) k = prop (deref (heap st) r) k)
    ∧ match Part000.loginFlow w account client (Part000_session w account st) with
      | (Throw e, st1) =>
          run = (Throw e, st1)
          ∧ trace st1 = trace (Part000_session w account st) ++ login
          ∧ ∀ k, k ≠ "warn" → k ≠ "banned" →
                 deref (heap st1) account !! k = deref (heap st) account !! k
      | (Ok _, st1) =>
          run.1 = Ok tt
          ∧ trace st1 = trace (Part000_session w account st) ++ login
          ∧ call_names login = login_script
          ∧ flags_decided (deref (heap run.2) account)
          ∧ trace run.2 = trace (Part000_session w account st) ++ login
              ++ store_request client
              ++ store_dump w (batchCall_answer w (store_history client st1))
              ++ [Part000_store_line (deref (heap run.2) account)]
      end.
Proof.
  intros run client. subst run client.
  pose proof (Part000_checkAccount_evolves w account st) as [_ Hframe _ Hconfig].
  revert Hframe Hconfig.
  rewrite Part000_checkAccount_phases.
  pose proof (Part000_loginFlow_evolves w account (next_client st) (Part000_session w account st))
    as [(login & E1 & F1) Hframe1 _ _].
  destruct (Part000_loginFlow_plays w account (next_client st) (Part000_session w account st))
    as (login' & E1' & P1).
  assert (login' = login) as -> by (rewrite E1 in E1'; by apply app_inv_head in E1').
  destruct (Part000.loginFlow w account _ _) as [[res|e] st1]; cbn [fst snd] in *.
  - pose proof (Part000_store_phase_trace w account (next_client st) st1) as E2.
    destruct (Part000_store_phase_outcome w account (next_client st) st1)
      as (store & iap & st2 & Hrun & H2 & Himp).
    rewrite Hrun in E2 |- *. cbn [fst snd heap config trace with_trace] in *.
    intros Hframe Hconfig. exists login.
    split; [exact F1|]. split; [by rewrite P1|]. split; [exact Hconfig|].
    split; [intros r k Hr; unfold prop; rewrite Hframe; [done | by intros [? _]]|].
    split; [reflexivity|]. split; [exact E1|]. split; [exact P1|].
    split; [rewrite H2; by apply flags_decided_assign|].
    rewrite E2, E1, <- !app_assoc. reflexivity.
  - intros Hframe Hconfig. exists login.
    split; [exact F1|]. split; [exact P1|]. split; [exact Hconfig|].
    split; [intros r k Hr; unfold prop; rewrite Hframe; [done | by intros [? _]]|].
    split; [reflexivity|]. split; [exact E1|].
    intros k Hw Hb. rewrite Hframe1; [reflexivity|]. intros [_ [?|?]]; done.
Qed.

(** X11 (index.js and the draft).  A login without a position.  When the
    configuration has no [position], the draft's [loginFlow] throws a
    [TypeError] before it has made any call, and the draft's
    [checkAccount] throws it on right after creating the client.  In
    index.js the same happens to the login of an account without a
    latitude of its own, but [checkAccount] catches the error: it makes
    the store request on the client that was never initialised, assigns
    [store] and [iap] and nothing else, and returns. *)
Theorem loginFlow_without_position w account st :
  config_position (config st) = None →
  ((∀ client, Part000.loginFlow w account client st = (Throw no_position, st))
   ∧ Part000.checkAccount w account st = (Throw no_position, Part000_session w account st))
  ∧ (truthy (prop (deref (heap st) account) "latitude") = false →
     (∀ client, Index.loginFlow w account client st = (Throw no_position, st))
     ∧ ∃ st',
         Index.checkAccount w account st = (Ok tt, st')
         ∧ trace st' = trace st ++ opening account (Index_options w account st) st
                       ++ store_request (next_client st)
                       ++ Index_flag_lines (deref (heap st') account)
         ∧ ∀ r k, k ≠ "store" → k ≠ "iap" →
                  deref (heap st') r !! k = deref (heap st) r !! k).
Proof.
  intros Hnone. split; [split|].
  - intros client. by apply Part000_loginFlow_no_position.
  - rewrite Part000_checkAccount_phases.
    by rewrite (Part000_loginFlow_no_position w account (next_client st)
                  (Part000_session w account st) Hnone).
  - intros Hlat. split; [intros client; by apply Index_loginFlow_no_position|].
    rewrite Index_checkAccount_phases, Index_login_phase_run.
    rewrite (Index_loginFlow_no_position w account (next_client st)
               (Index_session w account st) Hnone Hlat).
    replace (bool_decide (0 ≤ indexOf (message no_position) "Status code 3")%Z) with false
      by (vm_compute; reflexivity).
    destruct (Index_store_phase_outcome w account (next_client st) (Index_session w account st))
      as (store & iap & st2 & -> & E2 & H2 & _).
    eexists. split; [reflexivity|]. cbn [trace heap with_trace].
    split.
    + rewrite E2. unfold store_history. rewrite Index_session_trace.
      unfold store_request. by rewrite <- !app_assoc.
    + intros r k Hstore Hiap. rewrite H2. cbn [heap Index_session].
      rewrite !deref_set_lookup, !decide_False; [done | by intros [_ ?] | by intros [_ ?]].
Qed.

Lemma get_in_range (s : string) (i : nat) :
  i < String.length s → ∃ c, String.get i s = Some c ∧ c ∈ list_ascii_of_string s.
Proof.
  revert i. induction s as [|c s IH]; intros i Hi; [cbn in Hi; lia|].
  destruct i as [|i].
  - exists c. split; [reflexivity | by left].
  - destruct (IH i) as (c' & Hget & Hin); [cbn in Hi; lia|].
    exists c'. split; [exact Hget | by right].
Qed.

(** Characters picked from a string at positions in range, joined. *)
Lemma join_chars (s : string) (positions : list nat) :
  Forall (λ i, i < String.length s) positions →
  let joined := join_empty (map (char_at s) positions) in
  String.length joined = length positions
  ∧ Forall (λ c, c ∈ list_ascii_of_string s) (list_ascii_of_string joined).
Proof.
  cbv zeta. induction 1 as [|i positions Hi _ [IHn IHc]]; [by split|].
  cbn [map join_empty fold_right length]. fold (join_empty (map (char_at s) positions)).
  unfold char_at at 1 3. destruct (get_in_range s i Hi) as (c & -> & Hc).
  rewrite append_cons, append_empty_l. cbn [String.length list_ascii_of_string].
  split; [by rewrite IHn | by constructor].
Qed.

(** X12 (index.js and the draft).  The device id of a client.  When the
    random generator stays in its range, the id that [checkAccount] draws
    has 32 characters, all of them hexadecimal digits.  The draft always
    gives it to the client; index.js gives the account's own [deviceId]
    instead when the account has one.  The creation of that client is the
    second event of the check, right after the line that announces the
    account. *)
Theorem checkAccount_deviceId w account st :
  (∀ draw, floor_random_times w draw 16 < 16) →
  let o := deref (heap st) account in
  let id := drawn_deviceId w st in
  String.length id = 32
  ∧ Forall (λ c, c ∈ list_ascii_of_string "0123456789abcdef") (list_ascii_of_string id)
  ∧ opt_deviceId (Index_options w account st)
    = (if truthy (prop o "deviceId") then prop o "deviceId" else VStr id)
  ∧ opt_deviceId (Part000_options w account st) = VStr id
  ∧ (∃ rest, trace (Index.checkAccount w account st).2
             = trace st ++ opening account (Index_options w account st) st ++ rest)
  ∧ (∃ rest, trace (Part000.checkAccount w account st).2
             = trace st ++ opening account (Part000_options w account st) st ++ rest).
Proof.
  intros Hfloor o id. subst o id.
  pose proof (join_chars "0123456789abcdef"
                (map (λ i, floor_random_times w (i + draws st) 16) (seq 0 32))) as Hid.
  cbv zeta in Hid. rewrite map_map, length_map, length_seq in Hid.
  destruct Hid as [Hlen Hhex].
  { apply List.Forall_forall. intros i (j & <- & _)%in_map_iff. apply Hfloor. }
  split; [exact Hlen|]. split; [exact Hhex|].
  split; [reflexivity|]. split; [reflexivity|]. split.
  - destruct (Index_checkAccount_outcome w account st) as (login & st' & -> & E & _).
    cbn [snd]. rewrite E, Index_session_trace. eexists. by rewrite <- app_assoc.
  - pose proof (Part000_checkAccount_outcome w account st) as Hout.
    cbv zeta in Hout. destruct Hout as (login & _ & _ & _ & _ & Hrun).
    destruct (Part000.loginFlow w account _ _) as [[res|e] st1].
    + destruct Hrun as (_ & _ & _ & _ & E). rewrite E, Part000_session_trace.
      eexists. by rewrite <- !app_assoc.
    + destruct Hrun as (-> & E & _). cbn [snd]. rewrite E, Part000_session_trace.
      eexists. by rewrite <- !app_assoc.
Qed.

(** X13 (index.js and the draft).  The run of one check, event by event.
    In index.js a check always returns; it announces the account, creates
    the client, makes a first part of the login script -- all of it when
    the login goes through --, then the store request, then logs its four
    lines: between one and six batch calls in all.  In the draft a check
    that returns has made the whole login script, the store request, the
    dump of its answer if there was one, and logged its line; a check that
    throws has stopped inside the login, with at most five batch calls. *)
Theorem checkAccount_run w account st :
  let client := next_client st in
  (∃ login st',
     Index.checkAccount w account st = (Ok tt, st')
     ∧ trace st' = trace st ++ opening account (Index_options w account st) st
                   ++ login ++ store_request client
                   ++ Index_flag_lines (deref (heap st') account)
     ∧ call_names login `prefix_of` login_script
     ∧ 1 ≤ batch_calls (login ++ store_request client) ≤ 6)
  ∧ (∃ login,
       let run := Part000.checkAccount w account st in
       let before := trace st ++ opening account (Part000_options w account st) st ++ login in
       call_names login `prefix_of` login_script
       ∧ batch_calls login ≤ 5
       ∧ match run.1 with
         | Ok _ =>
             call_names login = login_script
             ∧ trace run.2 = before ++ store_request client
                 ++ store_dump w (batchCall_answer w (before ++ store_request client))
                 ++ [Part000_store_line (deref (heap run.2) account)]
         | Throw _ => trace run.2 = before
         end).
Proof.
  intros client. subst client. split.
  - destruct (Index_checkAccount_outcome w account st)
      as (login & st' & Hrun & Htrace & _ & Hscript & _).
    exists login, st'. split; [exact Hrun|].
    split; [by rewrite Htrace, Index_session_trace, <- !app_assoc|].
    split; [exact Hscript|].
    rewrite batch_calls_app, batch_calls_store_request.
    apply batch_calls_prefix in Hscript. rewrite login_script_batch_calls in Hscript. lia.
  - pose proof (Part000_checkAccount_outcome w account st) as Hout.
    cbv zeta in Hout. destruct Hout as (login & _ & Hscript & _ & _ & Hrun).
    exists login. cbv zeta. split; [exact Hscript|].
    split; [apply batch_calls_prefix in Hscript; by rewrite login_script_batch_calls in Hscript|].
    destruct (Part000.loginFlow w account _ _) as [[res|e] st1] eqn:Hlogin.
    + destruct Hrun as (-> & Hst1 & Hall & _ & Htrace). split; [exact Hall|].
      rewrite Htrace. unfold store_history.
      rewrite Hst1, Part000_session_trace, <- !app_assoc. reflexivity.
    + destruct Hrun as (-> & Htrace & _). cbn [fst snd].
      by rewrite Htrace, Part000_session_trace, <- app_assoc.
Qed.

(** X14 (index.js and the draft).  After a check in index.js, and after
    a check of the draft that returns, [store] and [iap] of the account
    are both booleans, and [iap] is never [true] without [store]: the two
    columns of the report never read [undefined].  A check of the draft
    that throws leaves both fields as they were. *)
Theorem checkAccount_decides_store w account st :
  (∃ st', Index.checkAccount w account st = (Ok tt, st')
          ∧ flags_decided (deref (heap st') account))
  ∧ match Part000.checkAccount w account st with
    | (Ok _, st') => flags_decided (deref (heap st') account)
    | (Throw _, st') =>
        deref (heap st') account !! "store" = deref (heap st) account !! "store"
        ∧ deref (heap st') account !! "iap" = deref (heap st) account !! "iap"
    end.
Proof.
  split.
  - destruct (Index_checkAccount_outcome w account st)
      as (login & st' & Hrun & _ & _ & _ & _ & Hflags & _).
    exists st'. split; [exact Hrun | exact Hflags].
  - pose proof (Part000_checkAccount_outcome w account st) as Hout.
    cbv zeta in Hout. destruct Hout as (login & _ & _ & _ & _ & Hrun).
    destruct (Part000.loginFlow w account _ _) as [[res|e] st1].
    + destruct Hrun as (Hok & _ & _ & Hflags & _).
      destruct (Part000.checkAccount w account st) as [[[]|e] st']; [exact Hflags | discriminate Hok].
    + destruct Hrun as (-> & _ & Hkeep). split; by apply Hkeep.
Qed.

(** X15 (index.js).  The row of an account whose login went through: its
    user name as it was read, the [banned] and [warn] of the answer to the
    [getPlayer] batch, and the two store flags, which are booleans. *)
Theorem checkAccount_row_after_login w account st res st1 :
  Index.loginFlow w account (next_client st) (Index_session w account st) = (Ok res, st1) →
  ∃ lat lon player (store iap : bool) st',
    batchCall_answer w
      (trace (Index_session w account st)
       ++ login_start (next_client st) lat lon 0 100 (Index_session w account st)
       ++ empty_batch (next_client st)
       ++ player_batch (next_client st) (config st)) = Ok player
    ∧ Index.checkAccount w account st = (Ok tt, st')
    ∧ report_line (deref (heap st') account)
      = toString (prop (deref (heap st) account) "username") +:+ ","
        +:+ toString (response_banned player) +:+ ","
        +:+ toString (response_warn player) +:+ ","
        +:+ toString (VBool store) +:+ "," +:+ toString (VBool iap) +:+ LF.
Proof.
  intros Hlogin.
  destruct (Index_loginFlow_returns _ _ _ _ _ _ Hlogin)
    as (lat & lon & player & warn & banned & answers & level & Hret).
  cbv zeta in Hret.
  destruct Hret as (_ & _ & _ & _ & Hplayer & Hflags & _ & _ & _ & _ & _ & _ & _ & Hheap & _).
  apply player_flags_unique in Hflags as [-> ->].
  rewrite Index_checkAccount_phases, Index_login_phase_run, Hlogin.
  destruct (Index_store_phase_outcome w account (next_client st) st1)
    as (store & iap & st2 & -> & _ & H2 & _).
  exists lat, lon, player, store, iap. eexists.
  split; [|split; [reflexivity|]].
  - unfold login_start. rewrite <- Hplayer. cbn [config Index_session].
    by rewrite <- !app_assoc.
  - cbn [heap with_trace]. unfold report_line. rewrite H2, Hheap.
    cbn [heap Index_session].
    repeat first [rewrite prop_assign_eq | rewrite prop_assign_ne by done].
    reflexivity.
Qed.

(** X16 (the draft).  A login that throws ends the checks: the error
    leaves [checkAccount] and the loop of [Main] as it is, so the accounts
    after this one are never checked.  By then the draft has announced the
    account, created its client and made a first part of the login script
    and nothing else, and has assigned at most [warn] and [banned] of this
    account. *)
Theorem Part000_login_error_stops_checks w account (later : list nat) st e st1 :
  Part000.loginFlow w account (next_client st) (Part000_session w account st) = (Throw e, st1) →
  for_of (account :: later) (Part000.checkAccount w) st = (Throw e, st1)
  ∧ (∃ login,
       trace st1 = trace st ++ opening account (Part000_options w account st) st ++ login
       ∧ Forall (session_event (next_client st)) login
       ∧ call_names login `prefix_of` login_script)
  ∧ ∀ r k, r ≠ account ∨ k ∉ ["warn"; "banned"] →
           deref (heap st1) r !! k = deref (heap st) r !! k.
Proof.
  intros Hlogin.
  pose proof (Part000_checkAccount_outcome w account st) as Hout.
  cbv zeta in Hout. destruct Hout as (login & F & P & _ & _ & Hrun).
  rewrite Hlogin in Hrun. destruct Hrun as (Hcheck & E & _).
  split; [|split].
  - cbn [for_of]. by rewrite run_bind, Hcheck.
  - exists login. split; [by rewrite E, Part000_session_trace, <- app_assoc|]. by split.
  - intros r k Hrk.
    pose proof (Part000_loginFlow_evolves w account (next_client st)
                  (Part000_session w account st)) as [_ Hframe _ _].
    rewrite Hlogin in Hframe. by apply Hframe, not_login_flag.
Qed.


(** ** The clients of a run *)

Lemma clients_app t1 t2 : clients (t1 ++ t2) = clients t1 + clients t2.
Proof. unfold clients. by rewrite List.filter_app, length_app. Qed.

Lemma session_events_clients cfg client (t : list event) :
  Forall (session_event client) t → clients t = 0 ∧ Forall (configured_client cfg) t.
Proof.
  induction 1 as [|ev t Hev _ [IHn IHc]]; [by split|].
  assert (Hnot : ∀ c o, ev ≠ ENewClient c o).
  { intros c o ->. destruct Hev as [Hc | (level & msg & Hlog)]; discriminate. }
  split.
  - unfold clients in *. cbn [List.filter].
    destruct ev; try exact IHn. by destruct (Hnot client0 options).
  - constructor; [|exact IHc]. intros c o ->. by destruct (Hnot c o).
Qed.

Lemma store_dump_clients cfg w answer :
  clients (store_dump w answer) = 0 ∧ Forall (configured_client cfg) (store_dump w answer).
Proof.
  destruct answer as [response|e]; cbn [store_dump]; (split; [reflexivity|]).
  - constructor; [by intros c o [=] | constructor].
  - constructor.
Qed.

Lemma opening_clients_Index w account st :
  clients (opening account (Index_options w account st) st) = 1
  ∧ Forall (configured_client (config st)) (opening account (Index_options w account st) st).
Proof.
  split; [reflexivity|]. unfold opening.
  constructor; [by intros c o [=]|]. constructor; [|constructor].
  intros c o [= <- <-]. by repeat split.
Qed.

Lemma opening_clients_Part000 w account st :
  clients (opening account (Part000_options w account st) st) = 1
  ∧ Forall (configured_client (config st)) (opening account (Part000_options w account st) st).
Proof.
  split; [reflexivity|]. unfold opening.
  constructor; [by intros c o [=]|]. constructor; [|constructor].
  intros c o [= <- <-]. by repeat split.
Qed.

(** Checking a list of accounts in index.js: every check returns. *)
Lemma Index_check_all_outcome w (accounts : list nat) st :
  ∃ new st',
    for_of accounts (Index.checkAccount w) st = (Ok tt, st')
    ∧ trace st' = trace st ++ new
    ∧ config st' = config st
    ∧ clients new = length accounts
    ∧ Forall (configured_client (config st)) new
    ∧ (∀ r, r ∈ accounts → flags_decided (deref (heap st') r))
    ∧ (∀ r, flags_decided (deref (heap st) r) → flags_decided (deref (heap st') r)).
Proof.
  revert st. induction accounts as [|account accounts IH]; intros st.
  - exists [], st. cbn [for_of]. rewrite run_ret, app_nil_r.
    split; [reflexivity|]. split; [reflexivity|]. split; [reflexivity|].
    split; [reflexivity|]. split; [constructor|]. split; [|tauto].
    intros r Hr. by apply elem_of_nil in Hr.
  - cbn [for_of]. rewrite run_bind.
    destruct (Index_checkAccount_outcome w account st)
      as (login & st1 & -> & E1 & F1 & _ & C1 & D1 & K1).
    destruct (IH st1) as (new & st' & Hrun & E & C & N & F & D & K).
    assert (Hkeep : ∀ r, flags_decided (deref (heap st) r) → flags_decided (deref (heap st1) r)).
    { intros r Hr. destruct (decide (r = account)) as [->|Hne]; [exact D1|].
      destruct Hr as (store & iap & Hs & Hi & Himp). exists store, iap.
      by rewrite !K1. }
    destruct (opening_clients_Index w account st) as [No Fo].
    destruct (session_events_clients (config st) _ _ F1) as [Nl Fl].
    destruct (session_events_clients (config st) (next_client st) (store_request (next_client st)))
      as [Ns Fs]; [repeat (constructor; [by left|]); constructor|].
    destruct (session_events_clients (config st) (next_client st)
                (Index_flag_lines (deref (heap st1) account)))
      as [Nf Ff]; [apply Forall_session_flag_lines|].
    rewrite Index_session_trace in E1.
    eexists _, st'. split; [exact Hrun|].
    split; [by rewrite E, E1, <- !app_assoc|].
    split; [by rewrite C|].
    split; [rewrite !clients_app, No, Nl, Ns, Nf, N; cbn [length]; lia|].
    split; [rewrite !Forall_app; rewrite C1 in F; tauto|].
    split; [|by auto].
    intros r [->|Hr]%elem_of_cons; [by apply K | by apply D].
Qed.

(** Checking a list of accounts in the draft: the first check that throws
    ends the loop. *)
Lemma Part000_check_all_outcome w (accounts : list nat) st :
  ∃ new,
    trace (for_of accounts (Part000.checkAccount w) st).2 = trace st ++ new
    ∧ clients new ≤ length accounts
    ∧ ((∃ st', for_of accounts (Part000.checkAccount w) st = (Ok tt, st')) →
       clients new = length accounts)
    ∧ Forall (configured_client (config st)) new.
Proof.
  revert st. induction accounts as [|account accounts IH]; intros st.
  - exists []. cbn [for_of]. rewrite run_ret, app_nil_r. cbn [snd length].
    split; [reflexivity|]. split; [reflexivity|]. split; [reflexivity | constructor].
  - cbn [for_of]. rewrite run_bind.
    pose proof (Part000_checkAccount_outcome w account st) as Hout.
    cbv zeta in Hout. destruct Hout as (login & F1 & _ & C1 & _ & Hrun).
    destruct (opening_clients_Part000 w account st) as [No Fo].
    destruct (session_events_clients (config st) _ _ F1) as [Nl Fl].
    destruct (Part000.loginFlow w account _ _) as [[res|e] st1].
    + destruct Hrun as (Hok & _ & _ & _ & E1).
      destruct (Part000.checkAccount w account st) as [[[]|e] st2]; [|discriminate Hok].
      cbn [fst snd] in *.
      destruct (IH st2) as (new & E & Hle & Hall & F).
      destruct (session_events_clients (config st) (next_client st)
                  (store_request (next_client st)))
        as [Ns Fs]; [repeat (constructor; [by left|]); constructor|].
      destruct (store_dump_clients (config st) w
                  (batchCall_answer w (store_history (next_client st) st1))) as [Nd Fd].
      destruct (session_events_clients (config st) (next_client st)
                  [Part000_store_line (deref (heap st2) account)])
        as [Nf Ff]; [constructor; [right; by eexists _, _ | constructor]|].
      rewrite Part000_session_trace in E1.
      eexists. split; [by rewrite E, E1, <- !app_assoc|].
      rewrite !clients_app, No, Nl, Ns, Nd, Nf. cbn [length].
      split; [lia|]. split; [intros H; rewrite (Hall H); lia|].
      rewrite !Forall_app. rewrite C1 in F. tauto.
    + destruct Hrun as (-> & E1 & _). cbn [fst snd].
      rewrite Part000_session_trace in E1.
      eexists. split; [by rewrite E1, <- !app_assoc|].
      rewrite !clients_app, No, Nl. cbn [length].
      split; [lia|]. split; [by intros [st' [=]]|].
      rewrite Forall_app. tauto.
Qed.

(** X18 (index.js and the draft).  The clients of a run.  Checking a list
    of accounts creates one client per account checked -- in index.js one
    per account of the list, in the draft as many as the list has when
    every check returns and never more --, and every one of them is
    created with the API version, the hashing key and the proxy of the one
    configuration the checks started with, with the hashing server on, the
    request type included in the responses, and a single try. *)
Theorem clients_share_config w (accounts : list nat) st :
  (∃ new,
     trace (for_of accounts (Index.checkAccount w) st).2 = trace st ++ new
     ∧ clients new = length accounts
     ∧ Forall (configured_client (config st)) new)
  ∧ (∃ new,
       trace (for_of accounts (Part000.checkAccount w) st).2 = trace st ++ new
       ∧ clients new ≤ length accounts
       ∧ ((∃ st', for_of accounts (Part000.checkAccount w) st = (Ok tt, st')) →
          clients new = length accounts)
       ∧ Forall (configured_client (config st)) new).
Proof.
  split.
  - destruct (Index_check_all_outcome w accounts st) as (new & st' & -> & E & _ & N & F & _).
    exists new. split; [exact E|]. split; [exact N | exact F].
  - apply Part000_check_all_outcome.
Qed.

(** ** A whole run *)

Lemma Index_input_file w :
  (∀ arg, process_argv w !! 2 = Some arg → arg ≠ EmptyString → Index.input w = arg)
  ∧ (process_argv w !! 2 = Some EmptyString → Index.input w = "accounts.csv")
  ∧ (length (process_argv w) ≤ 2 → Index.input w = "accounts.csv").
Proof.
  unfold Index.input. split; [|split].
  - intros arg -> Harg. by rewrite bool_decide_false.
  - by intros ->.
  - intros Hlen. by rewrite lookup_ge_None_2.
Qed.

(** X19 (index.js and the draft).  Which file the accounts are read from.
    Once the configuration is loaded, index.js announces in the log the
    file it imports and tests that it exists: the file named by the first
    argument of the command line, or [accounts.csv] when there is no such
    argument or it is empty.  The draft tests [accounts.4.csv], whatever
    the command line says, and announces nothing. *)
Theorem Main_input_file w st s1 :
  (Index.loadConfig w st = (Ok tt, s1) →
   ∃ filename rest,
     trace (Index.Main w st).2
     = trace s1 ++ [ELog "info" ("Import accounts from " +:+ filename); EExistsSync filename]
       ++ rest
     ∧ (∀ arg, process_argv w !! 2 = Some arg → arg ≠ EmptyString → filename = arg)
     ∧ (process_argv w !! 2 = Some EmptyString → filename = "accounts.csv")
     ∧ (length (process_argv w) ≤ 2 → filename = "accounts.csv"))
  ∧ (Part000.loadConfig w st = (Ok tt, s1) →
     ∃ rest, trace (Part000.Main w st).2
             = trace s1 ++ [EExistsSync "accounts.4.csv"] ++ rest).
Proof.
  split.
  - intros Hconfig. exists (Index.input w).
    assert (Htrace : ∃ rest, trace (Index.Main w st).2
              = trace s1 ++ [ELog "info" ("Import accounts from " +:+ Index.input w);
                             EExistsSync (Index.input w)] ++ rest).
    { unfold Index.Main. rewrite run_bind, Hconfig. cbv beta iota. rewrite run_bind.
      pose proof (Index_loadAccount_outcome w (Index.input w) s1) as Hload.
      unfold loads_accounts in Hload. cbv zeta in Hload.
      destruct (Index.loadAccount w (Index.input w) s1) as [[accounts|e] s2];
        cbn [fst snd] in Hload.
      - destruct Hload as (_ & _ & content & records & _ & _ & _ & E & _).
        rewrite run_bind.
        destruct (Index_check_all_outcome w accounts s2) as (new & s3 & -> & E3 & _).
        rewrite saveToFile_run. cbn [snd trace with_trace].
        rewrite E3, E, <- !app_assoc. cbn [app]. by eexists.
      - destruct Hload as (_ & _ & _ & _ & [(_ & _ & E) | (_ & E & _)]); cbn [snd];
          rewrite E, <- ?app_assoc; cbn [app].
        + by exists [].
        + by eexists. }
    destruct Htrace as [rest Htrace]. exists rest. split; [exact Htrace|].
    apply Index_input_file.
  - intros Hconfig. unfold Part000.Main. rewrite run_bind, Hconfig. cbv beta iota.
    rewrite run_bind.
    pose proof (Part000_loadAccount_outcome w "accounts.4.csv" None s1) as Hload.
    unfold loads_accounts in Hload. cbv zeta in Hload.
    destruct (Part000.loadAccount w "accounts.4.csv" None s1) as [[accounts|e] s2];
      cbn [fst snd] in Hload.
    + destruct Hload as (_ & _ & content & records & _ & _ & _ & E & _).
      rewrite run_bind.
      destruct (Part000_check_all_outcome w accounts s2) as (new & E3 & _).
      destruct (for_of accounts (Part000.checkAccount w) s2) as [[[]|e] s3]; cbn [snd] in *.
      * rewrite Part000_saveToFile_run. cbn [snd trace with_trace].
        rewrite E3, E, <- !app_assoc. cbn [app]. by eexists.
      * rewrite E3, E, <- !app_assoc. cbn [app]. by eexists.
    + destruct Hload as (_ & _ & _ & _ & [(_ & _ & E) | (_ & E & _)]); cbn [snd];
        rewrite E, <- ?app_assoc; cbn [app].
      * by exists [].
      * by eexists.
Qed.

(** X20 (index.js).  No account can stop a run of index.js.  Once the
    configuration and the accounts are loaded, every account of the list
    is checked, every check returns, every account ends up with its store
    flags decided, and the report is written: [Main] ends as the write of
    [output.csv] ends. *)
Theorem Main_checks_every_account w st s1 accounts s2 :
  Index.loadConfig w st = (Ok tt, s1) →
  Index.loadAccount w (Index.input w) s1 = (Ok accounts, s2) →
  ∃ s3,
    for_of accounts (Index.checkAccount w) s2 = (Ok tt, s3)
    ∧ (∀ r, r ∈ accounts → flags_decided (deref (heap s3) r))
    ∧ let written := trace s3 ++ [EWriteFile "output.csv" (report (map (deref (heap s3)) accounts))
                                    "utf8"] in
      Index.Main w st = (writeFile_answer w written, with_trace written s3).
Proof.
  intros Hconfig Hload.
  destruct (Index_check_all_outcome w accounts s2) as (new & s3 & Hrun & _ & _ & _ & _ & D & _).
  exists s3. split; [exact Hrun|]. split; [exact D|]. cbv zeta.
  unfold Index.Main. rewrite run_bind, Hconfig. cbv beta iota.
  rewrite run_bind, Hload. cbv beta iota.
  rewrite run_bind, Hrun. cbv beta iota.
  apply saveToFile_run.
Qed.

Lemma finishes_run w (main : M unit) st :
  (∀ s, main st = (Ok tt, s) →
        writeFile_answer w (trace s) = Ok tt
        ∧ ∃ content, last (trace s) = Some (EWriteFile "output.csv" content "utf8")) →
  finishes w (main st) (try_catch (main;; logger_info "Done") logger_error st).
Proof.
  intros Hmain. unfold finishes, try_catch. rewrite run_bind.
  destruct (main st) as [[[]|e] s] eqn:Hrun; cbn [fst snd].
  - unfold logger_info. rewrite run_emit. cbn [fst snd heap trace with_trace].
    destruct (Hmain s eq_refl) as [Hw Hlast]. by repeat split.
  - unfold logger_error. rewrite run_emit. cbn [fst snd heap trace with_trace].
    by repeat split.
Qed.

Lemma Index_Main_returns w st s :
  Index.Main w st = (Ok tt, s) →
  writeFile_answer w (trace s) = Ok tt
  ∧ ∃ content, last (trace s) = Some (EWriteFile "output.csv" content "utf8").
Proof.
  unfold Index.Main. rewrite run_bind.
  destruct (Index.loadConfig w st) as [[[]|e] s1]; [|discriminate].
  rewrite run_bind.
  destruct (Index.loadAccount w (Index.input w) s1) as [[accounts|e] s2]; [|discriminate].
  rewrite run_bind.
  destruct (for_of accounts (Index.checkAccount w) s2) as [[[]|e] s3]; [|discriminate].
  rewrite saveToFile_run. intros [= Hw <-]. cbn [trace with_trace].
  split; [exact Hw|]. eexists. apply last_snoc.
Qed.

Lemma Part000_Main_returns w st s :
  Part000.Main w st = (Ok tt, s) →
  writeFile_answer w (trace s) = Ok tt
  ∧ ∃ content, last (trace s) = Some (EWriteFile "output.csv" content "utf8").
Proof.
  unfold Part000.Main. rewrite run_bind.
  destruct (Part000.loadConfig w st) as [[[]|e] s1]; [|discriminate].
  rewrite run_bind.
  destruct (Part000.loadAccount w "accounts.4.csv" None s1) as [[accounts|e] s2]; [|discriminate].
  rewrite run_bind.
  destruct (for_of accounts (Part000.checkAccount w) s2) as [[[]|e] s3]; [|discriminate].
  rewrite Part000_saveToFile_run. intros [= Hw <-]. cbn [trace with_trace].
  split; [exact Hw|]. eexists. apply last_snoc.
Qed.

(** X21 (index.js and the draft).  How a run ends.  The script as a whole
    never throws: whatever [Main] throws is caught and its message logged
    at level [error], as the last event.  [Done] is logged only when
    [Main] returned, and then right after the write of [output.csv], which
    succeeded.  Logging changes no stored object. *)
Theorem run_ends w st :
  finishes w (Index.Main w st) (Index.run w st)
  ∧ finishes w (Part000.Main w st) (Part000.run w st).
Proof.
  split.
  - apply finishes_run, Index_Main_returns.
  - apply finishes_run, Part000_Main_returns.
Qed.

(** ** Reading the report back *)

Lemma report_line_row (o : obj) :
  report_line o = join_with "," (report_cells o) +:+ LF.
Proof.
  unfold report_line, report_cells. cbn [join_with]. by rewrite !append_assoc.
Qed.

Lemma count_char_join c sep (parts : list string) :
  parts ≠ [] →
  count_char c (join_with sep parts)
  = list_sum (map (count_char c) parts) + (length parts - 1) * count_char c sep.
Proof.
  induction parts as [|part parts IH]; [done|]. intros _.
  destruct parts as [|part' parts].
  - cbn [join_with map list_sum length fold_right]. lia.
  - rewrite join_with_cons by done. rewrite !count_char_app, IH by done.
    cbn [map list_sum length fold_right]. lia.
Qed.

Lemma join_empty_cons (part : string) (parts : list string) :
  join_empty (part :: parts) = part +:+ join_empty parts.
Proof. reflexivity. Qed.

Lemma split_lines_rows (rows : list string) :
  Forall (λ row, count_char "010" row = 0 ∧ count_char "013" row = 0) rows →
  split_lines (join_empty (map (λ row, row +:+ LF) rows)) = rows ++ [EmptyString].
Proof.
  induction 1 as [|row rows [Hlf Hcr] _ IH]; [reflexivity|].
  cbn [map app]. rewrite join_empty_cons, append_assoc.
  rewrite split_lines_append_LF by done. by rewrite IH.
Qed.

Lemma plain_row (cells : list string) :
  cells ≠ [] → Forall plain cells →
  count_char "010" (join_with "," cells) = 0 ∧ count_char "013" (join_with "," cells) = 0.
Proof.
  intros Hne Hcells. rewrite !count_char_join by done.
  change (count_char "010" ",") with 0. change (count_char "013" ",") with 0.
  rewrite !Nat.mul_0_r, !Nat.add_0_r. clear Hne.
  induction Hcells as [|cell cells (_ & Hlf & Hcr) _ [IH1 IH2]]; [by split|].
  cbn [map list_sum fold_right]. fold (list_sum (map (count_char "010") cells)).
  fold (list_sum (map (count_char "013") cells)). lia.
Qed.

(** X22 (index.js and the draft).  The report is written without any
    quoting.  Splitting a row on commas gives five cells plus one for
    every comma inside a field, so a comma in a field shifts the columns.
    When no field holds a comma, a line feed or a carriage return, the
    report reads back exactly: split into lines and cells it gives the
    header, then the five fields of every account in order, then the empty
    line after the last line feed. *)
Theorem report_round_trip (os : list obj) :
  (∀ o, length (js_split (join_with "," (report_cells o)) ",")
        = 5 + list_sum (map (count_char ",") (report_cells o)))
  ∧ (Forall (λ o, Forall plain (report_cells o)) os →
     map (λ line, js_split line ",") (split_lines (report os))
     = ["username"; "banned"; "warn"; "store"; "iap"] :: map report_cells os
       ++ [[EmptyString]]).
Proof.
  split.
  - intros o. rewrite js_split_comma_length, count_char_join by done.
    change (count_char "," ",") with 1. cbn [report_cells length]. lia.
  - intros Hos. unfold report.
    rewrite split_lines_append_LF by reflexivity.
    replace (map report_line os)
      with (map (λ row, row +:+ LF) (map (λ o, join_with "," (report_cells o)) os))
      by (rewrite map_map; apply map_ext; intros o; by rewrite report_line_row).
    rewrite split_lines_rows.
    2:{ apply Forall_map. eapply Forall_impl; [exact Hos|].
        intros o Ho. by apply plain_row. }
    cbn [map]. f_equal. rewrite map_app, map_map. cbn [map]. f_equal.
    induction Hos as [|o os Ho _ IH]; [reflexivity|].
    cbn [map]. rewrite IH. f_equal. apply js_split_row; [done|].
    eapply Forall_impl; [exact Ho|]. by intros s (Hc & _).
Qed.

(** * The two versions side by side *)

(** ** A login that throws *)

(** The login script has no store request in it. *)
Lemma login_script_no_store (names : list string) :
  names `prefix_of` login_script → "batchAddPlatformRequest" ∉ names.
Proof.
  intros [rest Hscript] Hin.
  assert (Hin' : "batchAddPlatformRequest" ∈ login_script)
    by (rewrite Hscript; apply elem_of_app; by left).
  clear -Hin'. revert Hin'. unfold login_script. not_in_list.
Qed.

(** C3, refuted as stated: the draft calls [loginFlow] outside any [try],
    so the refusal of a banned account ends the check with the error. *)
Lemma login_error_is_recovered_fails : ¬ login_error_is_recovered.
Proof.
  intros [_ Hclaim].
  destruct (Part000.loginFlow banned_world 0 (next_client bob_state)
              (Part000_session banned_world 0 bob_state))
    as [[res|e] st1] eqn:Hlogin; [by vm_compute in Hlogin|].
  destruct (Hclaim _ _ _ _ _ Hlogin) as (st' & rest & Hrun & _).
  rewrite (Part000_checkAccount_login_error _ _ _ _ _ Hlogin) in Hrun. discriminate Hrun.
Qed.

(** C3, amended (index.js and the draft).  In index.js, when [loginFlow]
    throws inside [checkAccount], the error is caught by the single test
    on its message: if the message contains ['Status code 3'] the account
    gets [banned = true], otherwise the state is left exactly as
    [loginFlow] left it.  In both cases [checkAccount] goes on with the
    store request, which assigns nothing but [store] and [iap], and
    returns normally.  In the draft there is no recovery at all: the error
    leaves [checkAccount] as it left [loginFlow], whatever its message,
    and by then the client has been asked a first part of the login script
    and nothing else, so the store request is never made. *)
Theorem checkAccount_login_recovery w account st e st1 :
  (Index.loginFlow w account (next_client st) (Index_session w account st) = (Throw e, st1) →
   ∃ st2 st' rest,
     Index_login_phase w account (next_client st) (Index_session w account st) = (Ok tt, st2)
     ∧ (contains (message e) "Status code 3" →
        st2 = with_heap (assign (heap st1) account "banned" (VBool true)) st1
        ∧ prop (deref (heap st') account) "banned" = VBool true)
     ∧ (¬ contains (message e) "Status code 3" → st2 = st1)
     ∧ Index.checkAccount w account st = (Ok tt, st')
     ∧ trace st' = store_history (next_client st) st2 ++ rest
     ∧ ∀ r k, k ≠ "store" → k ≠ "iap" →
              deref (heap st') r !! k = deref (heap st2) r !! k)
  ∧ (Part000.loginFlow w account (next_client st) (Part000_session w account st)
     = (Throw e, st1) →
     Part000.checkAccount w account st = (Throw e, st1)
     ∧ ∃ login,
         trace st1 = trace (Part000_session w account st) ++ login
         ∧ call_names login `prefix_of` login_script
         ∧ "batchAddPlatformRequest" ∉ call_names login).
Proof.
  split.
  - intros Hlogin.
    assert (Hpat : "Status code 3" ≠ EmptyString) by discriminate.
    pose proof (indexOf_contains (message e) _ Hpat) as Hidx.
    rewrite Index_checkAccount_phases, Index_login_phase_run, Hlogin.
    rewrite Index_store_phase_run.
    set (st2 := if bool_decide _ then _ else st1).
    set (st3 := match batchCall_answer w _ with Ok _ => _ | Throw _ => _ end).
    assert (Htrace : trace st3 = store_history (next_client st) st2)
      by (subst st3; by destruct (batchCall_answer w _)).
    assert (Hheap : ∀ r k, k ≠ "store" → k ≠ "iap" →
                           deref (heap st3) r !! k = deref (heap st2) r !! k).
    { intros r k Hstore Hiap. subst st3.
      destruct (batchCall_answer w _); cbn [heap with_heap with_trace];
        rewrite !deref_set_lookup, !decide_False; try done; by intros [_ ?]. }
    exists st2, (with_trace (trace st3 ++ Index_flag_lines (deref (heap st3) account)) st3),
      (Index_flag_lines (deref (heap st3) account)).
    split; [reflexivity|].
    split; [|split; [|split; [reflexivity|split; [|exact Hheap]]]].
    + intros Hc. apply Hidx in Hc. cbn [heap with_trace]. unfold prop.
      rewrite Hheap by done. subst st2. rewrite bool_decide_true by done.
      split; [reflexivity|]. cbn [heap with_heap]. apply prop_assign_eq.
    + intros Hc. subst st2. rewrite bool_decide_false; [done|]. intros H. by apply Hc, Hidx.
    + cbn [trace with_trace]. by rewrite Htrace.
  - intros Hlogin.
    split; [by apply Part000_checkAccount_login_error|].
    destruct (Part000_loginFlow_plays w account (next_client st) (Part000_session w account st))
      as (login & E & P).
    rewrite Hlogin in E, P. cbn [fst snd] in E, P.
    exists login. split; [exact E|]. split; [exact P|]. by apply login_script_no_store.
Qed.

(** ** The store flags *)

Lemma lodash_some_items (items : list StoreItem) :
  lodash_some (Some items) = true ↔ ∃ item, item ∈ items ∧ truthy (is_iap item) = true.
Proof.
  cbn [lodash_some]. rewrite existsb_exists. split.
  - intros (item & Hin & Ht). exists item. by rewrite list_elem_of_In.
  - intros (item & Hin & Ht). exists item. by rewrite <- list_elem_of_In.
Qed.

(** The two assignments of the store phase give the flags of the answer. *)
Lemma store_flags_assign (h : gmap nat obj) (account : nat) (response : batch_result) :
  store_flags (Ok response)
    (deref (assign (assign h account "store" (VBool true))
              account "iap" (VBool (lodash_some (response_items response)))) account).
Proof.
  unfold store_flags.
  destruct response as [[| | |items|]|rs]; cbn [response_items lodash_some].
  all: try (split; [by rewrite prop_assign_ne, prop_assign_eq | by rewrite prop_assign_eq]).
  split; [by rewrite prop_assign_ne, prop_assign_eq|].
  eexists. split; [by rewrite prop_assign_eq | apply lodash_some_items].
Qed.

Lemma store_flags_clear (h : gmap nat obj) (account : nat) (e : error) :
  store_flags (Throw e)
    (deref (assign (assign h account "store" (VBool false)) account "iap" (VBool false))
       account).
Proof.
  unfold store_flags. by rewrite prop_assign_ne, !prop_assign_eq.
Qed.

(** C6, refuted as stated: in the draft an answered store request is not
    enough.  On a full disk the dump of the answer to [store.json] fails,
    and the account ends with [store = false] although the request was
    answered. *)
Lemma store_answer_decides_flags_fails : ¬ store_answer_decides_flags.
Proof.
  intros [_ Hclaim].
  destruct (Part000.loginFlow full_disk_world 0 (next_client bob_state)
              (Part000_session full_disk_world 0 bob_state))
    as [[res|e] st1] eqn:Hlogin; [|by vm_compute in Hlogin].
  destruct (Hclaim _ _ _ _ _ Hlogin) as (st' & Hrun & Hflags).
  assert (Hstore : prop (deref (heap (Part000.checkAccount full_disk_world 0 bob_state).2) 0)
                     "store" = VBool false) by (vm_compute; reflexivity).
  rewrite Hrun in Hstore. cbn [snd] in Hstore.
  assert (Hanswer : ∃ items, batchCall_answer full_disk_world
                      (store_history (next_client bob_state) st1)
                    = Ok (Single (GetStoreItemsResponse items))).
  { vm_compute in Hlogin. injection Hlogin as _ <-. eexists. vm_compute. reflexivity. }
  destruct Hanswer as [items Hanswer]. rewrite Hanswer in Hflags.
  destruct Hflags as [Htrue _]. rewrite Hstore in Htrue. discriminate.
Qed.

(** C6, amended (index.js and the draft).  In index.js [checkAccount]
    always returns, and the [store] and [iap] fields it leaves are decided
    by the answer to the [GET_STORE_ITEMS] batch call alone: if the call
    is answered, [store] is [true] and [iap] is [true] exactly when some
    item of the answer has a truthy [is_iap] ([false] when the answer has
    no items at all); if the call throws, both are [false].  In the draft
    the same holds of a check whose login returned only as long as the
    dump of the answer to [store.json] succeeds: if that write throws,
    both fields are [false] although the call was answered. *)
Theorem checkAccount_store_flags w account st :
  let client := next_client st in
  (let st1 := (Index_login_phase w account client (Index_session w account st)).2 in
   ∃ st', Index.checkAccount w account st = (Ok tt, st')
     ∧ store_flags (batchCall_answer w (store_history client st1)) (deref (heap st') account))
  ∧ (∀ res st1,
       Part000.loginFlow w account client (Part000_session w account st) = (Ok res, st1) →
       ∃ st', Part000.checkAccount w account st = (Ok tt, st')
         ∧ match batchCall_answer w (store_history client st1) with
           | Ok response =>
               match writeFile_answer w (dump_history w client st1 response) with
               | Ok _ => store_flags (Ok response) (deref (heap st') account)
               | Throw _ =>
                   prop (deref (heap st') account) "store" = VBool false
                   ∧ prop (deref (heap st') account) "iap" = VBool false
               end
           | Throw _ =>
               prop (deref (heap st') account) "store" = VBool false
               ∧ prop (deref (heap st') account) "iap" = VBool false
           end).
Proof.
  intros client. subst client. split.
  - cbv zeta. rewrite Index_checkAccount_phases.
    destruct (Index_login_phase w account _ _) as [[[]|e] st1] eqn:Hphase.
    2:{ rewrite Index_login_phase_run in Hphase.
        by destruct (Index.loginFlow w account _ _) as [[res|e'] s]. }
    cbn [snd]. rewrite Index_store_phase_run.
    eexists. split; [reflexivity|].
    destruct (batchCall_answer w _) as [response|e]; cbn [heap with_heap with_trace].
    + apply store_flags_assign.
    + apply store_flags_clear.
  - intros res st1 Hlogin.
    rewrite Part000_checkAccount_phases, Hlogin, Part000_store_phase_run.
    eexists. split; [reflexivity|].
    destruct (batchCall_answer w _) as [response|e]; cbn [heap with_heap with_trace].
    + destruct (writeFile_answer w _) as [[]|e]; cbn [heap with_heap with_trace].
      * apply store_flags_assign.
      * apply (store_flags_clear _ _ e).
    + apply (store_flags_clear _ _ e).
Qed.

(** ** The records of the input file *)










(** ** The pipeline of [Main] *)

Section Pipeline.
Variable w : world.
Variable config_events : string → list event.
Variable load_events : list event.
Variable allowed : nat → event → Prop.
Variable loadConfig : M unit.
Variable loadAccount : M (list nat).
Variable check : nat → M unit.

Hypothesis loadConfig_returns : ∀ st s1,
  loadConfig st = (Ok tt, s1) → trace s1 = trace st ++ config_events (loglevel (config s1)).
Hypothesis loadAccount_returns : ∀ st accounts s2,
  loadAccount st = (Ok accounts, s2) → trace s2 = trace st ++ load_events.
Hypothesis check_leaves_segment : ∀ account st,
  ∃ segment,
    trace (check account st).2 = trace st ++ segment
    ∧ check_segment allowed (prop (deref (heap st) account) "username") segment.
Hypothesis check_keeps_username : ∀ account st r,
  prop (deref (heap (check account st).2) r) "username"
  = prop (deref (heap st) r) "username".

(** The four steps in a row run the pipeline. *)
Lemma pipeline_runs (st : state) :
  runs_pipeline w config_events load_events allowed loadConfig loadAccount check st
    ((loadConfig;;
      accounts ← loadAccount;
      for_of accounts check;;
      Index.saveToFile w accounts "output.csv") st).
Proof.
  unfold runs_pipeline. rewrite run_bind.
  destruct (loadConfig st) as [[[]|e] s1] eqn:Hconfig; [|reflexivity].
  pose proof (loadConfig_returns _ _ Hconfig) as E0. split; [exact E0|].
  rewrite run_bind.
  destruct (loadAccount s1) as [[accounts|e] s2] eqn:Hload; [|reflexivity].
  pose proof (loadAccount_returns _ _ _ Hload) as E1. split; [exact E1|].
  rewrite run_bind.
  destruct (check_all_segments allowed check check_leaves_segment check_keeps_username
              accounts s2) as (segments & E2 & F2 & Hlen & Hname).
  destruct (for_of accounts check s2) as [[[]|e] s3]; cbn [fst snd] in *.
  - rewrite saveToFile_run.
    exists (config_events (loglevel (config s1)) ++ load_events ++ concat segments
            ++ [EWriteFile "output.csv" (report (map (deref (heap s3)) accounts)) "utf8"]).
    split.
    + exists segments. split; [reflexivity|].
      rewrite firstn_all2 in F2 by (by rewrite (Hlen s3)).
      eapply Forall2_impl; [exact F2|]. intros a s. cbn. by rewrite Hname.
    + by rewrite E2, E1, E0, <- !app_assoc.
  - split; [reflexivity|]. by exists segments.
Qed.
End Pipeline.

Lemma Index_loadConfig_returns w st s1 :
  Index.loadConfig w st = (Ok tt, s1) →
  trace s1 = trace st ++ Index_config_events (loglevel (config s1)).
Proof.
  intros Hrun. pose proof (Index_loadConfig_outcome w st) as H. unfold loads_config in H.
  rewrite Hrun in H. cbn [fst snd] in H.
  destruct H as (_ & content & parsed & _ & _ & _ & Hconfig & Htrace).
  by rewrite Htrace, Hconfig.
Qed.

Lemma Part000_loadConfig_returns w st s1 :
  Part000.loadConfig w st = (Ok tt, s1) →
  trace s1 = trace st ++ Part000_config_events (loglevel (config s1)).
Proof.
  intros Hrun. pose proof (Part000_loadConfig_outcome w st) as H. unfold loads_config in H.
  rewrite Hrun in H. cbn [fst snd] in H.
  destruct H as (_ & content & parsed & _ & _ & _ & Hconfig & Htrace).
  by rewrite Htrace, Hconfig.
Qed.

Lemma Index_loadAccount_returns w filename st accounts s2 :
  Index.loadAccount w filename st = (Ok accounts, s2) →
  trace s2 = trace st ++ Index_load_events filename.
Proof.
  intros Hrun. pose proof (Index_loadAccount_outcome w filename st) as H.
  unfold loads_accounts in H. rewrite Hrun in H. cbn [fst snd] in H.
  destruct H as (_ & _ & content & records & _ & _ & _ & Htrace & _).
  rewrite Htrace. unfold Index_load_events. by rewrite <- app_assoc.
Qed.

Lemma Part000_loadAccount_returns w filename delimiter st accounts s2 :
  Part000.loadAccount w filename delimiter st = (Ok accounts, s2) →
  trace s2 = trace st ++ Part000_load_events filename.
Proof.
  intros Hrun. pose proof (Part000_loadAccount_outcome w filename delimiter st) as H.
  unfold loads_accounts in H. rewrite Hrun in H. cbn [fst snd] in H.
  destruct H as (_ & _ & content & records & _ & _ & _ & Htrace & _).
  rewrite Htrace. unfold Part000_load_events. by rewrite <- app_assoc.
Qed.

(** C5 (index.js and the draft).  [Main] runs its four steps in a fixed
    order, each one only when the step before it has returned.  An error
    of [loadConfig] ends the run before anything is read; once it has
    returned, the events of loading the configuration are on the trace,
    and an error of [loadAccount] ends the run before any account is
    checked.  Once both have returned, the accounts are checked in the
    order of the list that [loadAccount] returned, each in a segment of
    its own that opens a client for the account and holds nothing but
    calls on that client and log lines (in the draft, also the dump of the
    store answer).  When every check has returned, the trace of the run is
    that of the whole pipeline -- configuration, input, one segment per
    account, and the write of [output.csv] with the report of the accounts
    as the checks left them as the last event -- and [Main] ends as that
    write ends.  In index.js every check returns.  In the draft a check
    may throw: the run then ends with its error after the segments of a
    first part of the list, without a report.  No segment holds a write of
    [output.csv]. *)
Theorem Main_pipeline w st :
  runs_pipeline w Index_config_events (Index_load_events (Index.input w)) session_event
    (Index.loadConfig w) (Index.loadAccount w (Index.input w)) (Index.checkAccount w)
    st (Index.Main w st)
  ∧ runs_pipeline w Part000_config_events (Part000_load_events "accounts.4.csv") draft_event
      (Part000.loadConfig w) (Part000.loadAccount w "accounts.4.csv" None)
      (Part000.checkAccount w)
      st (Part000.Main w st)
  ∧ (∀ accounts s2, ∃ s3, for_of accounts (Index.checkAccount w) s2 = (Ok tt, s3))
  ∧ (∀ client ev, session_event client ev ∨ draft_event client ev → ¬ output_write ev).
Proof.
  split; [|split; [|split]].
  - unfold Index.Main.
    apply (pipeline_runs w Index_config_events (Index_load_events (Index.input w))
             session_event (Index.loadConfig w) (Index.loadAccount w (Index.input w))
             (Index.checkAccount w)).
    + apply Index_loadConfig_returns.
    + apply Index_loadAccount_returns.
    + intros account st0.
      destruct (Index_checkAccount_segment w account st0) as (segment & st' & -> & E & P).
      by exists segment.
    + apply Index_check_keeps_username.
  - unfold Part000.Main.
    apply (pipeline_runs w Part000_config_events (Part000_load_events "accounts.4.csv")
             draft_event (Part000.loadConfig w) (Part000.loadAccount w "accounts.4.csv" None)
             (Part000.checkAccount w)).
    + apply Part000_loadConfig_returns.
    + apply Part000_loadAccount_returns.
    + apply Part000_checkAccount_segment.
    + apply Part000_check_keeps_username.
  - intros accounts s2.
    destruct (Index_check_all_outcome w accounts s2) as (new & s3 & Hrun & _).
    by exists s3.
  - intros client ev [H | H];
      [by eapply session_event_not_output | by eapply draft_event_not_output].
Qed.

(** ** The embedding at work on small inputs *)

Example split_lines_sample :
  split_lines ("a,b" +:+ CR +:+ LF +:+ "c" +:+ CR +:+ "d" +:+ LF)
  = ["a,b"; "c" +:+ CR +:+ "d"; EmptyString].
Proof. reflexivity. Qed.

Example js_split_sample :
  js_split "ptc,bob,,secret," "," = ["ptc"; "bob"; EmptyString; "secret"; EmptyString]
  ∧ js_split "a--b-c--" "--" = ["a"; "b-c"; EmptyString]
  ∧ js_split "abc" EmptyString = ["a"; "b"; "c"]
  ∧ js_split EmptyString "," = [EmptyString].
Proof. by repeat split. Qed.

Example indexOf_sample :
  indexOf "Status code 3 received from RPC" "Status code 3" = 0%Z
  ∧ indexOf "connect ETIMEDOUT" "Status code 3" = (-1)%Z.
Proof. by split. Qed.

(** A whole run of index.js on one account whose login goes through. *)
Example Main_good_world :
  let run := Index.run good_world Index.initial_state in
  run.1 = Ok tt
  ∧ prop (deref (heap run.2) 0) "banned" = VBool false
  ∧ prop (deref (heap run.2) 0) "iap" = VBool true
  ∧ EWriteFile "output.csv"
      ("username,banned,warn,store,iap" +:+ LF +:+ "bob,false,false,true,true" +:+ LF)
      "utf8" ∈ trace run.2.
Proof.
  cbv zeta. split; [by vm_compute|]. split; [by vm_compute|]. split; [by vm_compute|].
  apply list_elem_of_In. vm_compute. tauto.
Qed.

(** A run of index.js on a banned account: the login error is caught and
    the report says so. *)
Example Main_banned_world :
  let run := Index.run banned_world Index.initial_state in
  run.1 = Ok tt
  ∧ EWriteFile "output.csv"
      ("username,banned,warn,store,iap" +:+ LF +:+ "bob,true,undefined,false,false" +:+ LF)
      "utf8" ∈ trace run.2.
Proof.
  cbv zeta. split; [by vm_compute|].
  apply list_elem_of_In. vm_compute. tauto.
Qed.

(** The same banned account stops the draft: the error ends [Main], which
    logs it and writes no report. *)
Example draft_banned_world :
  let run := Part000.run banned_world Part000.initial_state in
  run.1 = Ok tt
  ∧ last (trace run.2) = Some (ELog "error" "Status code 3 received from RPC")
  ∧ Forall (λ ev, call_name ev ≠ Some "batchAddPlatformRequest") (trace run.2).
Proof.
  cbv zeta. split; [by vm_compute|]. split; [by vm_compute|].
  vm_compute. repeat (apply Forall_cons; split; [discriminate|]). constructor.
Qed.

(** ** The theorems at work on the scripted worlds *)

(** C3 on a banned account and on a server that cannot be reached, and the
    banned account in the draft. *)
Lemma checkAccount_login_recovery_witness :
  let refused := Error "Status code 3 received from RPC" in
  let unreachable := Error "connect ETIMEDOUT" in
  (∃ st1 st',
     Index.loginFlow banned_world 0 (next_client bob_state) (Index_session banned_world 0 bob_state)
     = (Throw refused, st1)
     ∧ Index.checkAccount banned_world 0 bob_state = (Ok tt, st')
     ∧ prop (deref (heap st1) 0) "banned" = VUndefined
     ∧ prop (deref (heap st') 0) "banned" = VBool true
     ∧ ∃ rest, trace st' = store_history (next_client bob_state) st1 ++ rest)
  ∧ (∃ st1 st',
       Index.loginFlow offline_world 0 (next_client bob_state)
         (Index_session offline_world 0 bob_state)
       = (Throw unreachable, st1)
       ∧ Index.checkAccount offline_world 0 bob_state = (Ok tt, st')
       ∧ prop (deref (heap st') 0) "banned" = VUndefined
       ∧ ∃ rest, trace st' = store_history (next_client bob_state) st1 ++ rest)
  ∧ (∃ st1 login,
       Part000.loginFlow banned_world 0 (next_client bob_state)
         (Part000_session banned_world 0 bob_state)
       = (Throw refused, st1)
       ∧ Part000.checkAccount banned_world 0 bob_state = (Throw refused, st1)
       ∧ trace st1 = trace (Part000_session banned_world 0 bob_state) ++ login
       ∧ "batchAddPlatformRequest" ∉ call_names login).
Proof.
  intros refused unreachable. split; [|split].
  - destruct (Index.loginFlow banned_world 0 (next_client bob_state)
                (Index_session banned_world 0 bob_state)) as [[res|e] st1] eqn:Hlogin;
      [by vm_compute in Hlogin|].
    assert (He : e = refused) by (vm_compute in Hlogin; by injection Hlogin).
    subst e.
    assert (Hbanned : prop (deref (heap st1) 0) "banned" = VUndefined)
      by (vm_compute in Hlogin; injection Hlogin as <-; reflexivity).
    destruct (proj1 (checkAccount_login_recovery banned_world 0 bob_state refused st1) Hlogin)
      as (st2 & st' & rest & _ & Hmark & _ & Hrun & Htrace & _).
    assert (Hc : contains (message refused) "Status code 3")
      by (by exists EmptyString, " received from RPC").
    destruct (Hmark Hc) as [-> Hflag].
    exists st1, st'. split; [reflexivity|]. split; [exact Hrun|].
    split; [exact Hbanned|]. split; [exact Hflag|]. by exists rest.
  - destruct (Index.loginFlow offline_world 0 (next_client bob_state)
                (Index_session offline_world 0 bob_state)) as [[res|e] st1] eqn:Hlogin;
      [by vm_compute in Hlogin|].
    assert (He : e = unreachable) by (vm_compute in Hlogin; by injection Hlogin).
    subst e.
    assert (Hbanned : prop (deref (heap st1) 0) "banned" = VUndefined)
      by (vm_compute in Hlogin; injection Hlogin as <-; reflexivity).
    destruct (proj1 (checkAccount_login_recovery offline_world 0 bob_state unreachable st1)
                Hlogin)
      as (st2 & st' & rest & _ & _ & Hkeep & Hrun & Htrace & Hframe).
    assert (Hc : ¬ contains (message unreachable) "Status code 3").
    { intros Hc%indexOf_contains; [|discriminate]. vm_compute in Hc. by apply Hc. }
    rewrite (Hkeep Hc) in Htrace, Hframe.
    exists st1, st'. split; [reflexivity|]. split; [exact Hrun|].
    split; [|by exists rest].
    unfold prop. rewrite Hframe by discriminate. exact Hbanned.
  - destruct (Part000.loginFlow banned_world 0 (next_client bob_state)
                (Part000_session banned_world 0 bob_state)) as [[res|e] st1] eqn:Hlogin;
      [by vm_compute in Hlogin|].
    assert (He : e = refused) by (vm_compute in Hlogin; by injection Hlogin).
    subst e.
    destruct (proj2 (checkAccount_login_recovery banned_world 0 bob_state refused st1) Hlogin)
      as (Hrun & login & Htrace & _ & Hnone).
    exists st1, login. split; [reflexivity|]. split; [exact Hrun|]. by split.
Defined.



(** C7 on the first record of the same file, before and after the checks. *)
Lemma account_record_fields_witness :
  Part000.loadAccount good_world "accounts.4.csv" None Part000.initial_state
  = (Ok [0; 1], loaded_state)
  ∧ 0 ∈ [0; 1]
  ∧ dom (deref (heap loaded_state) 0) = {["type"; "username"; "password"]}
  ∧ size (deref (heap loaded_state) 0) = 3
  ∧ 3 ≤ size (deref (heap (for_of [0; 1] (Part000.checkAccount good_world) loaded_state).2) 0)
    ≤ 7.
Proof.
  assert (H : Part000.loadAccount good_world "accounts.4.csv" None Part000.initial_state
              = (Ok [0; 1], loaded_state)) by (vm_compute; reflexivity).
  assert (Hin : 0 ∈ [0; 1]) by repeat constructor.
  split; [exact H|]. split; [exact Hin|].
  destruct (account_record_fields good_world [0; 1] loaded_state 0) as (_ & _ & Hread).
  exact (Hread _ _ _ _ H Hin).
Defined.

(** C8 on an account whose login fails before any batch call. *)
Lemma checkAccount_early_login_error_witness :
  let e := Error "connect ETIMEDOUT" in
  let st1 := (bob_login offline_world).2 in
  deref (heap bob_state) 0 !! "warn" = None
  ∧ deref (heap bob_state) 0 !! "banned" = None
  ∧ Index.loginFlow offline_world 0 (next_client bob_state)
      (Index_session offline_world 0 bob_state) = (Throw e, st1)
  ∧ batch_calls (trace st1) < batch_calls (trace bob_state) + 3
  ∧ ¬ contains (message e) "Status code 3"
  ∧ ∃ st', Index.checkAccount offline_world 0 bob_state = (Ok tt, st')
      ∧ prop (deref (heap st') 0) "warn" = VUndefined
      ∧ prop (deref (heap st') 0) "banned" = VUndefined
      ∧ ∀ filename,
          let o := deref (heap st') 0 in
          let content :=
            "username,banned,warn,store,iap" +:+ LF +:+
            toString (prop o "username") +:+ ",undefined,undefined," +:+
            toString (prop o "store") +:+ "," +:+ toString (prop o "iap") +:+ LF in
          trace (Index.saveToFile offline_world [0] filename st').2
          = trace st' ++ [EWriteFile filename content "utf8"].
Proof.
  intros e st1.
  assert (Hw : deref (heap bob_state) 0 !! "warn" = None) by reflexivity.
  assert (Hb : deref (heap bob_state) 0 !! "banned" = None) by reflexivity.
  assert (H : Index.loginFlow offline_world 0 (next_client bob_state)
                (Index_session offline_world 0 bob_state) = (Throw e, st1))
    by (vm_compute; reflexivity).
  assert (Hcalls : batch_calls (trace st1) < batch_calls (trace bob_state) + 3)
    by (vm_compute; lia).
  assert (Hother : ¬ contains (message e) "Status code 3").
  { intros Hc%indexOf_contains; [|discriminate]. vm_compute in Hc. by apply Hc. }
  repeat (split; [assumption|]).
  exact (checkAccount_early_login_error offline_world 0 bob_state e st1 Hw Hb H Hcalls Hother).
Defined.

(** C9 on the user name of an account whose login goes through. *)
Lemma checkAccount_frame_witness :
  (0 ≠ 0 ∨ "username" ∉ ["warn"; "banned"; "store"; "iap"])
  ∧ deref (heap (Index.checkAccount good_world 0 bob_state).2) 0 !! "username"
    = deref (heap bob_state) 0 !! "username".
Proof.
  assert (H : 0 ≠ 0 ∨ "username" ∉ ["warn"; "banned"; "store"; "iap"])
    by (right; not_in_list).
  split; [exact H|].
  destruct (checkAccount_frame good_world 0 bob_state) as (Hframe & _).
  exact (Hframe 0 "username" H).
Defined.

(** C5 on a run of index.js that writes its report, and on a run of the
    draft that the first account stops. *)
Lemma Main_pipeline_witness :
  (∃ segment st',
     Index.Main good_world Index.initial_state = (Ok tt, st')
     ∧ trace st'
       = Index_config_events "debug" ++ Index_load_events "accounts.csv" ++ segment
         ++ [EWriteFile "output.csv"
               ("username,banned,warn,store,iap" +:+ LF
                +:+ "bob,false,false,true,true" +:+ LF) "utf8"]
     ∧ check_segment session_event (VStr "bob") segment)
  ∧ (∃ segments st',
       Part000.Main banned_world Part000.initial_state
       = (Throw (Error "Status code 3 received from RPC"), st')
       ∧ trace st'
         = Part000_config_events "debug" ++ Part000_load_events "accounts.4.csv"
           ++ concat segments
       ∧ Forall2 (λ account segment,
                    ∃ username, check_segment draft_event username segment)
                 (take (length segments) [0; 1]) segments
       ∧ clients (trace st') = 1
       ∧ Forall (λ ev, ¬ output_write ev) (trace st')).
Proof.
  split.
  - pose proof (Main_pipeline good_world Index.initial_state) as (H & _).
    unfold runs_pipeline in H.
    destruct (Index.loadConfig good_world Index.initial_state) as [[[]|e] s1] eqn:Hconfig;
      [|vm_compute in Hconfig; discriminate Hconfig].
    vm_compute in Hconfig. injection Hconfig as <-. destruct H as (_ & H).
    destruct (Index.loadAccount good_world _ _) as [[accounts|e] s2] eqn:Hload;
      [|vm_compute in Hload; discriminate Hload].
    vm_compute in Hload. injection Hload as <- <-. destruct H as (_ & H).
    destruct (for_of _ _ _) as [[[]|e] s3] eqn:Hchecks; [|vm_compute in Hchecks; discriminate Hchecks].
    vm_compute in Hchecks. injection Hchecks as <-.
    destruct H as (new & (segments & -> & Hsegments) & Hrun).
    apply Forall2_cons_inv_l in Hsegments as (segment & rest & Hsegment & Hrest & ->).
    apply Forall2_nil_inv_l in Hrest as ->.
    exists segment. eexists. split; [exact Hrun|]. split; [|exact Hsegment].
    cbn [trace with_trace concat]. rewrite app_nil_r. reflexivity.
  - pose proof (Main_pipeline banned_world Part000.initial_state) as (_ & H & _ & Hquiet).
    unfold runs_pipeline in H.
    destruct (Part000.loadConfig banned_world Part000.initial_state) as [[[]|e] s1] eqn:Hconfig;
      [|vm_compute in Hconfig; discriminate Hconfig].
    vm_compute in Hconfig. injection Hconfig as <-. destruct H as (_ & H).
    destruct (Part000.loadAccount banned_world _ _ _) as [[accounts|e] s2] eqn:Hload;
      [|vm_compute in Hload; discriminate Hload].
    vm_compute in Hload. injection Hload as <- <-. destruct H as (_ & H).
    destruct (for_of _ _ _) as [[[]|e] s3] eqn:Hchecks; [vm_compute in Hchecks; discriminate Hchecks|].
    vm_compute in Hchecks. injection Hchecks as <- <-.
    destruct H as (Hrun & segments & Htrace & Hsegments).
    exists segments. eexists.
    split; [exact Hrun|].
    split; [exact Htrace|].
    split; [|split].
    + eapply Forall2_impl; [exact Hsegments|]. intros account segment Hs. eexists. exact Hs.
    + vm_compute. reflexivity.
    + rewrite Htrace. clear -Hsegments Hquiet. cbn [trace app].
      repeat (apply Forall_cons; split; [intros (? & ? & [=])|]).
      apply Forall_concat.
      induction Hsegments as [|a s l1 l2 Hs _ IH]; constructor; [|exact IH].
      eapply check_segment_not_output; [|exact Hs].
      intros client ev Hev. apply (Hquiet client). right. exact Hev.
Defined.

(** C6 on a store with an in-app purchase, on a store without items, on a
    store request that is not answered, and, in the draft, on a disk that
    takes the dump and on one that is full. *)
Lemma checkAccount_store_flags_witness :
  (∃ st', Index.checkAccount good_world 0 bob_state = (Ok tt, st')
     ∧ prop (deref (heap st') 0) "store" = VBool true
     ∧ prop (deref (heap st') 0) "iap" = VBool true)
  ∧ (∃ st', Index.checkAccount timeout_world 0 bob_state = (Ok tt, st')
       ∧ prop (deref (heap st') 0) "store" = VBool true
       ∧ prop (deref (heap st') 0) "iap" = VBool false)
  ∧ (∃ st', Index.checkAccount offline_world 0 bob_state = (Ok tt, st')
       ∧ prop (deref (heap st') 0) "store" = VBool false
       ∧ prop (deref (heap st') 0) "iap" = VBool false)
  ∧ (∃ st', Part000.checkAccount good_world 0 bob_state = (Ok tt, st')
       ∧ prop (deref (heap st') 0) "store" = VBool true
       ∧ prop (deref (heap st') 0) "iap" = VBool true)
  ∧ (∃ st', Part000.checkAccount full_disk_world 0 bob_state = (Ok tt, st')
       ∧ prop (deref (heap st') 0) "store" = VBool false
       ∧ prop (deref (heap st') 0) "iap" = VBool false).
Proof.
  split; [|split; [|split; [|split]]].
  - pose proof (checkAccount_store_flags good_world 0 bob_state) as H.
    cbv zeta in H. destruct H as [(st' & Hrun & Hflags) _].
    assert (Hanswer :
      batchCall_answer good_world
        (store_history (next_client bob_state)
           (Index_login_phase good_world 0 (next_client bob_state)
              (Index_session good_world 0 bob_state)).2)
      = Ok (Single (GetStoreItemsResponse [{| is_iap := VBool true |}])))
      by (vm_compute; reflexivity).
    rewrite Hanswer in Hflags. destruct Hflags as (Hstore & iap & Hiap & Hiff).
    exists st'. split; [exact Hrun|]. split; [exact Hstore|].
    rewrite Hiap. f_equal. apply Hiff.
    exists {| is_iap := VBool true |}. split; [constructor | reflexivity].
  - pose proof (checkAccount_store_flags timeout_world 0 bob_state) as H.
    cbv zeta in H. destruct H as [(st' & Hrun & Hflags) _].
    assert (Hanswer :
      batchCall_answer timeout_world
        (store_history (next_client bob_state)
           (Index_login_phase timeout_world 0 (next_client bob_state)
              (Index_session timeout_world 0 bob_state)).2)
      = Ok (Single (GetStoreItemsResponse [])))
      by (vm_compute; reflexivity).
    rewrite Hanswer in Hflags. destruct Hflags as (Hstore & iap & Hiap & Hiff).
    exists st'. split; [exact Hrun|]. split; [exact Hstore|].
    rewrite Hiap. f_equal. destruct iap; [|reflexivity].
    exfalso. destruct (proj1 Hiff eq_refl) as (item & Hin & _).
    clear -Hin. by apply elem_of_nil in Hin.
  - pose proof (checkAccount_store_flags offline_world 0 bob_state) as H.
    cbv zeta in H. destruct H as [(st' & Hrun & Hflags) _].
    assert (Hanswer :
      batchCall_answer offline_world
        (store_history (next_client bob_state)
           (Index_login_phase offline_world 0 (next_client bob_state)
              (Index_session offline_world 0 bob_state)).2)
      = Throw (Error "socket hang up"))
      by (vm_compute; reflexivity).
    rewrite Hanswer in Hflags. exists st'. split; [exact Hrun | exact Hflags].
  - pose proof (checkAccount_store_flags good_world 0 bob_state) as H.
    cbv zeta in H. destruct H as [_ H].
    destruct (Part000.loginFlow good_world 0 (next_client bob_state)
                (Part000_session good_world 0 bob_state)) as [[res|e] st1] eqn:Hlogin;
      [|by vm_compute in Hlogin].
    destruct (H res st1 eq_refl) as (st' & Hrun & Hflags).
    assert (Hst1 : st1 = (Part000.loginFlow good_world 0 (next_client bob_state)
                            (Part000_session good_world 0 bob_state)).2)
      by (rewrite Hlogin; reflexivity).
    rewrite Hst1 in Hflags.
    assert (Hanswer :
      batchCall_answer good_world
        (store_history (next_client bob_state)
           (Part000.loginFlow good_world 0 (next_client bob_state)
              (Part000_session good_world 0 bob_state)).2)
      = Ok (Single (GetStoreItemsResponse [{| is_iap := VBool true |}])))
      by (vm_compute; reflexivity).
    rewrite Hanswer in Hflags.
    change (writeFile_answer good_world ?t) with (@Ok unit tt) in Hflags.
    destruct Hflags as (Hstore & iap & Hiap & Hiff).
    exists st'. split; [exact Hrun|]. split; [exact Hstore|].
    rewrite Hiap. f_equal. apply Hiff.
    exists {| is_iap := VBool true |}. split; [constructor | reflexivity].
  - pose proof (checkAccount_store_flags full_disk_world 0 bob_state) as H.
    cbv zeta in H. destruct H as [_ H].
    destruct (Part000.loginFlow full_disk_world 0 (next_client bob_state)
                (Part000_session full_disk_world 0 bob_state)) as [[res|e] st1] eqn:Hlogin;
      [|by vm_compute in Hlogin].
    destruct (H res st1 eq_refl) as (st' & Hrun & Hflags).
    assert (Hst1 : st1 = (Part000.loginFlow full_disk_world 0 (next_client bob_state)
                            (Part000_session full_disk_world 0 bob_state)).2)
      by (rewrite Hlogin; reflexivity).
    rewrite Hst1 in Hflags.
    assert (Hanswer :
      batchCall_answer full_disk_world
        (store_history (next_client bob_state)
           (Part000.loginFlow full_disk_world 0 (next_client bob_state)
              (Part000_session full_disk_world 0 bob_state)).2)
      = Ok (Single (GetStoreItemsResponse [{| is_iap := VBool true |}])))
      by (vm_compute; reflexivity).
    rewrite Hanswer in Hflags.
    change (writeFile_answer full_disk_world ?t)
      with (@Throw unit (Error "ENOSPC: no space left on device")) in Hflags.
    exists st'. split; [exact Hrun | exact Hflags].
Defined.

(** X2 in a world without any file. *)
Lemma run_without_config_witness :
  let events := [EExistsSync "config.json";
                 ELog "error" "Please create a config.json config file."] in
  Index.run bare_world Index.initial_state = (Ok tt, with_trace events Index.initial_state)
  ∧ Part000.run bare_world Part000.initial_state
    = (Ok tt, with_trace events Part000.initial_state).
Proof.
  split.
  - exact (proj1 (run_without_config bare_world Index.initial_state eq_refl)).
  - exact (proj2 (run_without_config bare_world Part000.initial_state eq_refl)).
Defined.

(** X4 on the first run of index.js in a world that tells files, texts and
    separators apart: [config.json] names no delimiter. *)
Lemma loaded_delimiter_separates_witness :
  let s1 := (Index.loadConfig filing_world Index.initial_state).2 in
  let s2 := (Index.loadAccount filing_world "accounts.csv" s1).2 in
  readFile_answer filing_world [EExistsSync "config.json"; EReadFile "config.json" "utf8"]
  = Ok config_text
  ∧ JSON_parse filing_world config_text = Ok sample_config_json
  ∧ config s1 = defaultsDeep sample_config_json Index.default_config
  ∧ readFile_answer filing_world (trace s1 ++ Index_load_events "accounts.csv")
    = Ok sample_content
  ∧ csvImport filing_world sample_content (VStr ",") = Ok [bob]
  ∧ map (deref (heap s2)) [0] = [bob].
Proof.
  intros s1 s2.
  destruct (loaded_delimiter_separates filing_world Index.initial_state s1 "accounts.csv"
              [0] s2)
    as (text & parsed & content & records & Htext & Hparsed & Hcfg & Hread & Hcsv & Hmap).
  - reflexivity.
  - vm_compute. reflexivity.
  - vm_compute. reflexivity.
  - assert (H1 : readFile_answer filing_world
                   (trace Index.initial_state
                    ++ [EExistsSync "config.json"; EReadFile "config.json" "utf8"])
                 = Ok config_text) by (vm_compute; reflexivity).
    rewrite H1 in Htext. injection Htext as <-.
    assert (H2 : JSON_parse filing_world config_text = Ok sample_config_json)
      by (vm_compute; reflexivity).
    rewrite H2 in Hparsed. injection Hparsed as <-.
    assert (H3 : readFile_answer filing_world (trace s1 ++ Index_load_events "accounts.csv")
                 = Ok sample_content) by (vm_compute; reflexivity).
    rewrite H3 in Hread. injection Hread as <-.
    cbn [default json_delimiter sample_config_json] in Hcsv.
    assert (H4 : csvImport filing_world sample_content (VStr ",") = Ok [bob])
      by (vm_compute; reflexivity).
    rewrite H4 in Hcsv. injection Hcsv as <-.
    split; [exact H1|]. split; [exact H2|]. split; [exact Hcfg|].
    split; [exact H3|]. split; [exact H4 | exact Hmap].
Defined.

(** X5 on a file of two lines. *)
Lemma split_lines_round_trip_witness :
  join_with LF (split_lines full_content) = full_content
  ∧ split_lines (join_with LF ["ptc,bob,secret"; "google,alice,hunter2"])
    = ["ptc,bob,secret"; "google,alice,hunter2"]
  ∧ split_lines ("ptc,bob,secret" +:+ CR +:+ LF +:+ "google,alice,hunter2")
    = split_lines ("ptc,bob,secret" +:+ LF +:+ "google,alice,hunter2").
Proof.
  destruct (split_lines_round_trip full_content "ptc,bob,secret" "google,alice,hunter2"
              ["ptc,bob,secret"; "google,alice,hunter2"]) as (Hjoin & Hsplit & Hcrlf).
  split; [exact (Hjoin eq_refl)|].
  split; [apply Hsplit; [discriminate | repeat constructor] | exact (Hcrlf eq_refl)].
Defined.

(** X6 on the cells of a line of credentials. *)
Lemma js_split_round_trip_witness :
  js_split (join_with "," ["ptc"; "bob"; "secret"]) "," = ["ptc"; "bob"; "secret"].
Proof.
  destruct (js_split_round_trip "ptc,bob,secret" "," ["ptc"; "bob"; "secret"])
    as (_ & _ & Hcells).
  apply Hcells; [discriminate | repeat constructor].
Defined.

(** X7 on the same file with a final line feed. *)
Lemma loadAccount_trailing_line_witness :
  ∃ accounts st' r,
    Part000.loadAccount trailing_world "accounts.4.csv" None Part000.initial_state
    = (Ok accounts, st')
    ∧ length accounts = 2 + count_char "010" full_content
    ∧ last accounts = Some r
    ∧ prop (deref (heap st') r) "type" = VStr EmptyString
    ∧ prop (deref (heap st') r) "username" = VUndefined
    ∧ prop (deref (heap st') r) "password" = VUndefined.
Proof.
  apply (loadAccount_trailing_line trailing_world "accounts.4.csv" None
           Part000.initial_state full_content); [reflexivity | reflexivity | discriminate].
Defined.

(** X8 on the file of two lines. *)
Lemma loadAccount_round_trip_witness :
  ∃ accounts st',
    Part000.loadAccount full_world "accounts.4.csv" None Part000.initial_state
    = (Ok accounts, st')
    ∧ join_with LF (map (λ r, credentials "," (deref (heap st') r)) accounts) = full_content.
Proof.
  apply (loadAccount_round_trip full_world "accounts.4.csv" None Part000.initial_state
           full_content); [reflexivity | reflexivity | reflexivity |].
  vm_compute. repeat constructor.
Defined.

(** X9 on [bob], who has no position of his own. *)
Lemma loginFlow_position_witness :
  ∃ rest, trace (Index.loginFlow good_world 0 0 bob_state).2
          = login_start 0 (VNum "48.85") (VNum "2.35") 0 100 bob_state ++ rest.
Proof.
  destruct (loginFlow_position good_world 0 0 bob_state) as [_ Hconfig].
  destruct (Hconfig {| latitude := VNum "48.85"; longitude := VNum "2.35" |} eq_refl)
    as [Hindex _].
  exact (Hindex eq_refl eq_refl).
Defined.

(** X10 on [bob], when the answer comes without the inventory. *)
Lemma loginFlow_incomplete_answer_witness :
  ∃ e st1,
    Index.loginFlow incomplete_world 0 0 bob_state = (Throw e, st1)
    ∧ batch_calls (trace st1) = 3
    ∧ prop (deref (heap st1) 0) "warn" = VBool true.
Proof.
  destruct (loginFlow_incomplete_answer incomplete_world 0 0 bob_state
              (VNum "48.85") (VNum "2.35")
              (Single (GetPlayerResponse (VBool true) (VBool false)))
              (Multi [OtherResponse DOWNLOAD_REMOTE_CONFIG_VERSION;
                      DownloadSettingsResponse (VStr "54b359c9")]))
    as (e & st1 & Hrun & Htrace & Hheap).
  - reflexivity.
  - reflexivity.
  - reflexivity.
  - by eexists.
  - reflexivity.
  - reflexivity.
  - by left.
  - exists e, st1. split; [exact Hrun|]. rewrite Htrace, Hheap.
    split; [reflexivity|]. by rewrite prop_assign_ne, prop_assign_eq.
Defined.

(** X11 on [bob] before any configuration is loaded. *)
Lemma loginFlow_without_position_witness :
  Part000.checkAccount good_world 0 unconfigured_state
  = (Throw no_position, Part000_session good_world 0 unconfigured_state)
  ∧ ∃ st',
      Index.checkAccount good_world 0 unconfigured_state = (Ok tt, st')
      ∧ trace st' = opening 0 (Index_options good_world 0 unconfigured_state) unconfigured_state
                    ++ store_request 0 ++ Index_flag_lines (deref (heap st') 0)
      ∧ ∀ r k, k ≠ "store" → k ≠ "iap" →
               deref (heap st') r !! k = deref (heap unconfigured_state) r !! k.
Proof.
  destruct (loginFlow_without_position good_world 0 unconfigured_state eq_refl)
    as [[_ Hdraft] Hindex].
  split; [exact Hdraft|]. exact (proj2 (Hindex eq_refl)).
Defined.

(** X12 with a generator that runs through the digits in order. *)
Lemma checkAccount_deviceId_witness :
  String.length (drawn_deviceId good_world bob_state) = 32
  ∧ opt_deviceId (Part000_options good_world 0 bob_state)
    = VStr "0123456789abcdef0123456789abcdef".
Proof.
  destruct (checkAccount_deviceId good_world 0 bob_state) as (Hlen & _ & _ & Hdraft & _).
  - intros draw. apply Nat.mod_upper_bound. lia.
  - split; [exact Hlen|]. rewrite Hdraft. vm_compute. reflexivity.
Defined.

(** X15 on [bob], whose login goes through. *)
Lemma checkAccount_row_after_login_witness :
  ∃ (store iap : bool) st',
    Index.checkAccount good_world 0 bob_state = (Ok tt, st')
    ∧ report_line (deref (heap st') 0)
      = "bob,false,false," +:+ toString (VBool store) +:+ "," +:+ toString (VBool iap) +:+ LF.
Proof.
  destruct (Index.loginFlow good_world 0 (next_client bob_state)
              (Index_session good_world 0 bob_state)) as [[res|e] st1] eqn:Hlogin;
    [|by vm_compute in Hlogin].
  destruct (checkAccount_row_after_login good_world 0 bob_state res st1 Hlogin)
    as (lat & lon & player & store & iap & st' & Hplayer & Hrun & Hrow).
  vm_compute in Hplayer. injection Hplayer as <-.
  exists store, iap, st'. split; [exact Hrun|]. rewrite Hrow. reflexivity.
Defined.

(** X16 on the banned account, followed by another one. *)
Lemma Part000_login_error_stops_checks_witness :
  let e := Error "Status code 3 received from RPC" in
  let st1 := (Part000.loginFlow banned_world 0 0 (Part000_session banned_world 0 bob_state)).2 in
  for_of [0; 1] (Part000.checkAccount banned_world) bob_state = (Throw e, st1)
  ∧ (∃ login,
       trace st1 = trace bob_state
                   ++ opening 0 (Part000_options banned_world 0 bob_state) bob_state ++ login
       ∧ Forall (session_event 0) login
       ∧ call_names login `prefix_of` login_script)
  ∧ ∀ r k, r ≠ 0 ∨ k ∉ ["warn"; "banned"] →
           deref (heap st1) r !! k = deref (heap bob_state) r !! k.
Proof.
  intros e st1.
  apply (Part000_login_error_stops_checks banned_world 0 [1] bob_state e st1).
  vm_compute. reflexivity.
Defined.


(** X18 on the one check of the draft that returns. *)
Lemma clients_share_config_witness :
  ∃ new,
    trace (for_of [0] (Part000.checkAccount good_world) bob_state).2 = trace bob_state ++ new
    ∧ clients new = 1
    ∧ Forall (configured_client (config bob_state)) new.
Proof.
  destruct (clients_share_config good_world [0] bob_state) as [_ (new & E & _ & Hall & F)].
  exists new. split; [exact E|]. split; [|exact F].
  apply Hall.
  destruct (for_of [0] (Part000.checkAccount good_world) bob_state) as [[[]|e] st'] eqn:Hrun;
    [by exists st' | by vm_compute in Hrun].
Defined.

(** X19 on a run started as [node index.js mine.csv]. *)
Lemma Main_input_file_witness :
  ∃ rest,
    trace (Index.Main argument_world Index.initial_state).2
    = trace (Index.loadConfig argument_world Index.initial_state).2
      ++ [ELog "info" "Import accounts from mine.csv"; EExistsSync "mine.csv"] ++ rest.
Proof.
  destruct (Main_input_file argument_world Index.initial_state
              (Index.loadConfig argument_world Index.initial_state).2) as [Hindex _].
  destruct Hindex as (filename & rest & Htrace & Harg & _); [vm_compute; reflexivity|].
  rewrite (Harg "mine.csv" eq_refl) in Htrace by discriminate.
  exists rest. exact Htrace.
Defined.

(** X20 on the first run of index.js. *)
Lemma Main_checks_every_account_witness :
  let s1 := (Index.loadConfig good_world Index.initial_state).2 in
  let s2 := (Index.loadAccount good_world (Index.input good_world) s1).2 in
  ∃ s3,
    for_of [0] (Index.checkAccount good_world) s2 = (Ok tt, s3)
    ∧ (∀ r, r ∈ [0] → flags_decided (deref (heap s3) r))
    ∧ let written := trace s3 ++ [EWriteFile "output.csv" (report (map (deref (heap s3)) [0]))
                                    "utf8"] in
      Index.Main good_world Index.initial_state
      = (writeFile_answer good_world written, with_trace written s3).
Proof.
  intros s1 s2.
  apply (Main_checks_every_account good_world Index.initial_state s1 [0] s2).
  - vm_compute. reflexivity.
  - vm_compute. reflexivity.
Defined.

(** X22 on [bob] before his check. *)
Lemma report_round_trip_witness :
  map (λ line, js_split line ",") (split_lines (report [bob]))
  = [["username"; "banned"; "warn"; "store"; "iap"];
     ["bob"; "undefined"; "undefined"; "undefined"; "undefined"];
     [EmptyString]].
Proof.
  destruct (report_round_trip [bob]) as [_ Hback]. apply Hback.
  repeat constructor.
Defined.
